(** * Contact book: validated fields, records, the address book and the
      upcoming-birthday query of [task.py], embedded in Rocq.

    Python values are modelled as follows.
    - A [str] is the list of its Unicode code points ([pystr]).
    - A raised exception is the [Raise] case of [result]; methods that mutate
      [self] are functions in the state-and-exception monad [M].
    - A [datetime.date] is the record [date] of its three fields; the
      arithmetic on dates follows the proleptic Gregorian ordinal of the
      standard library ([_ymd2ord], [_ord2ymd]).
    - The [dict] inside [AddressBook] is an association list kept in
      insertion order, which is the order [values()] iterates in. *)

From Stdlib Require Import ZArith List Bool Lia String Ascii.
Import ListNotations.
Open Scope Z_scope.

(* ================================================================== *)
(** ** Exceptions and the state-and-exception monad                    *)
(* ================================================================== *)

Inductive exn : Type :=
| ValueError (msg : string)
| OverflowError (msg : string).

Inductive result (A : Type) : Type :=
| Ok (a : A)
| Raise (e : exn).
Arguments Ok {A} a.
Arguments Raise {A} e.

Definition rbind {A B} (r : result A) (k : A -> result B) : result B :=
  match r with
  | Ok a => k a
  | Raise e => Raise e
  end.

Definition is_ok {A} (r : result A) : bool :=
  match r with Ok _ => true | Raise _ => false end.

Declare Scope result_scope.
Delimit Scope result_scope with result.
Notation "x <- c1 ;; c2" := (rbind c1 (fun x => c2))
  (at level 61, c1 at next level, right associativity) : result_scope.

(** A method running on an object of state [S]: it returns a value or raises,
    and leaves a (possibly updated) object behind in both cases. *)
Definition M (S A : Type) : Type := S -> result A * S.

Definition ret {S A} (a : A) : M S A := fun s => (Ok a, s).
Definition bind {S A B} (m : M S A) (k : A -> M S B) : M S B :=
  fun s => match m s with
           | (Ok a, s') => k a s'
           | (Raise e, s') => (Raise e, s')
           end.
Definition get {S} : M S S := fun s => (Ok s, s).
Definition put {S} (s : S) : M S unit := fun _ => (Ok tt, s).
Definition lift {S A} (r : result A) : M S A := fun s => (r, s).

Declare Scope monad_scope.
Delimit Scope monad_scope with monad.
Notation "x <~ c1 ;; c2" := (bind c1 (fun x => c2))
  (at level 61, c1 at next level, right associativity) : monad_scope.

(** A [for x in xs:] loop whose body updates the loop-carried value [acc]. *)
Fixpoint for_each {S A B} (xs : list A) (acc : B) (body : A -> B -> M S B)
  : M S B :=
  match xs with
  | [] => ret acc
  | x :: xs' => bind (body x acc) (fun acc' => for_each xs' acc' body)
  end.

(* ================================================================== *)
(** ** Python strings                                                  *)
(* ================================================================== *)

(** A code point, an integer of 0 .. 0x10FFFF. *)
Abbreviation codepoint := Z (only parsing).
Definition pystr := list codepoint.

(** An ASCII literal as a Python string. *)
Definition u (s : string) : pystr :=
  map (fun a => Z.of_N (N_of_ascii a)) (list_ascii_of_string s).

Definition len (s : pystr) : Z := Z.of_nat (List.length s).

(** Unicode 14.0 (the table of CPython 3.11): every run of characters with
    Numeric_Type=Decimal, as (code point of the zero, length of the run); the
    decimal value of a character is its offset in the run modulo 10. *)
Definition decimal_runs : list (Z * Z) :=
  [ (0x30, 10); (0x660, 10); (0x6f0, 10); (0x7c0, 10); (0x966, 10);
    (0x9e6, 10); (0xa66, 10); (0xae6, 10); (0xb66, 10); (0xbe6, 10);
    (0xc66, 10); (0xce6, 10); (0xd66, 10); (0xde6, 10); (0xe50, 10);
    (0xed0, 10); (0xf20, 10); (0x1040, 10); (0x1090, 10); (0x17e0, 10);
    (0x1810, 10); (0x1946, 10); (0x19d0, 10); (0x1a80, 10); (0x1a90, 10);
    (0x1b50, 10); (0x1bb0, 10); (0x1c40, 10); (0x1c50, 10); (0xa620, 10);
    (0xa8d0, 10); (0xa900, 10); (0xa9d0, 10); (0xa9f0, 10); (0xaa50, 10);
    (0xabf0, 10); (0xff10, 10); (0x104a0, 10); (0x10d30, 10); (0x11066, 10);
    (0x110f0, 10); (0x11136, 10); (0x111d0, 10); (0x112f0, 10);
    (0x11450, 10); (0x114d0, 10); (0x11650, 10); (0x116c0, 10);
    (0x11730, 10); (0x118e0, 10); (0x11950, 10); (0x11c50, 10);
    (0x11d50, 10); (0x11da0, 10); (0x16a60, 10); (0x16ac0, 10);
    (0x16b50, 10); (0x1d7ce, 50); (0x1e140, 10); (0x1e2f0, 10);
    (0x1e950, 10); (0x1fbf0, 10) ].

(** The characters with Numeric_Type=Digit that are not decimal (superscripts,
    subscripts, circled digits and the like), as inclusive ranges. *)
Definition digit_only_ranges : list (Z * Z) :=
  [ (0xb2, 0xb3); (0xb9, 0xb9); (0x1369, 0x1371); (0x19da, 0x19da);
    (0x2070, 0x2070); (0x2074, 0x2079); (0x2080, 0x2089); (0x2460, 0x2468);
    (0x2474, 0x247c); (0x2488, 0x2490); (0x24ea, 0x24ea); (0x24f5, 0x24fd);
    (0x24ff, 0x24ff); (0x2776, 0x277e); (0x2780, 0x2788); (0x278a, 0x2792);
    (0x10a40, 0x10a43); (0x10e60, 0x10e68); (0x11052, 0x1105a);
    (0x1f100, 0x1f10a) ].

(** [unicodedata.decimal]: the value of a decimal character. *)
Definition decimal_value (c : codepoint) : option Z :=
  match find (fun r => (fst r <=? c) && (c <? fst r + snd r)) decimal_runs with
  | Some r => Some ((c - fst r) mod 10)
  | None => None
  end.

(** What [\d] matches in a [str] pattern, and [str.isdecimal] on one
    character. *)
Definition isdecimal_cp (c : codepoint) : bool :=
  match decimal_value c with Some _ => true | None => false end.

(** [str.isdigit] on one character: Numeric_Type Digit or Decimal. *)
Definition isdigit_cp (c : codepoint) : bool :=
  isdecimal_cp c
  || existsb (fun r => (fst r <=? c) && (c <=? snd r)) digit_only_ranges.

(** [str.isdigit]: at least one character, and all of them digits. *)
Definition isdigit (s : pystr) : bool :=
  match s with
  | [] => false
  | _ => forallb isdigit_cp s
  end.

(** The ten ASCII digits, the decimal digits of the specification. *)
Definition is_ascii_digit (c : codepoint) : bool := (48 <=? c) && (c <=? 57).

(** [int(s)] for the texts this program converts: surrounding spaces are
    stripped, then every character must be a decimal character. *)
Fixpoint lstrip (s : pystr) : pystr :=
  match s with
  | c :: s' => if c =? 32 then lstrip s' else s
  | [] => []
  end.

Definition strip (s : pystr) : pystr := rev (lstrip (rev (lstrip s))).

Fixpoint int_digits (acc : Z) (s : pystr) : option Z :=
  match s with
  | [] => Some acc
  | c :: s' =>
      match decimal_value c with
      | Some v => int_digits (10 * acc + v) s'
      | None => None
      end
  end.

Definition int (s : pystr) : result Z :=
  match strip s with
  | [] => Raise (ValueError "invalid literal for int() with base 10")
  | t => match int_digits 0 t with
         | Some n => Ok n
         | None => Raise (ValueError "invalid literal for int() with base 10")
         end
  end.

(** [str(n).zfill(w)] for [0 <= n < 10^w]: the [w] low decimal digits of [n],
    most significant first. *)
Fixpoint zero_padded (w : nat) (n : Z) : pystr :=
  match w with
  | O => []
  | S w' => zero_padded w' (n / 10) ++ [48 + n mod 10]
  end.

(* ================================================================== *)
(** ** [datetime.date]                                                 *)
(* ================================================================== *)

Definition MINYEAR : Z := 1.
Definition MAXYEAR : Z := 9999.
Definition _MAXORDINAL : Z := 3652059.

Definition _DAYS_IN_MONTH : list Z :=
  [-1; 31; 28; 31; 30; 31; 30; 31; 31; 30; 31; 30; 31].
Definition _DAYS_BEFORE_MONTH : list Z :=
  [-1; 0; 31; 59; 90; 120; 151; 181; 212; 243; 273; 304; 334].

Definition _DI400Y : Z := 146097.
Definition _DI100Y : Z := 36524.
Definition _DI4Y : Z := 1461.

(** [table[i]] for the two month tables, which are only indexed by a month. *)
Definition index (table : list Z) (i : Z) : Z := nth (Z.to_nat i) table 0.

Definition _is_leap (year : Z) : bool :=
  (year mod 4 =? 0) && (negb (year mod 100 =? 0) || (year mod 400 =? 0)).

Definition _days_before_year (year : Z) : Z :=
  let y := year - 1 in
  y * 365 + y / 4 - y / 100 + y / 400.

Definition _days_in_month (year month : Z) : Z :=
  if (month =? 2) && _is_leap year then 29 else index _DAYS_IN_MONTH month.

Definition _days_before_month (year month : Z) : Z :=
  index _DAYS_BEFORE_MONTH month
  + (if (2 <? month) && _is_leap year then 1 else 0).

Definition _ymd2ord (year month day : Z) : Z :=
  _days_before_year year + _days_before_month year month + day.

Definition _ord2ymd (n : Z) : Z * Z * Z :=
  let n := n - 1 in
  let n400 := n / _DI400Y in
  let n := n mod _DI400Y in
  let year := n400 * 400 + 1 in
  let n100 := n / _DI100Y in
  let n := n mod _DI100Y in
  let n4 := n / _DI4Y in
  let n := n mod _DI4Y in
  let n1 := n / 365 in
  let n := n mod 365 in
  let year := year + (n100 * 100 + n4 * 4 + n1) in
  if (n1 =? 4) || (n100 =? 4) then (year - 1, 12, 31)
  else
    let leapyear := (n1 =? 3) && (negb (n4 =? 24) || (n100 =? 3)) in
    let month := Z.shiftr (n + 50) 5 in
    let preceding :=
      index _DAYS_BEFORE_MONTH month
      + (if (2 <? month) && leapyear then 1 else 0) in
    let '(month, preceding) :=
      if n <? preceding
      then (month - 1,
            preceding - (index _DAYS_IN_MONTH (month - 1)
                         + (if (month - 1 =? 2) && leapyear then 1 else 0)))
      else (month, preceding) in
    (year, month, n - preceding + 1).

Record date : Type := mkdate { year : Z; month : Z; day : Z }.

(** [_check_date_fields]: the three tests the constructor runs, in order
    (the message on the year is given without the year). *)
Definition check_date_fields (y m d : Z) : result unit :=
  if negb ((MINYEAR <=? y) && (y <=? MAXYEAR))
  then Raise (ValueError "year is out of range")
  else if negb ((1 <=? m) && (m <=? 12))
  then Raise (ValueError "month must be in 1..12")
  else if negb ((1 <=? d) && (d <=? _days_in_month y m))
  then Raise (ValueError "day is out of range for month")
  else Ok tt.

(** [date(y, m, d)]. *)
Definition date_new (y m d : Z) : result date :=
  (_ <- check_date_fields y m d ;; Ok (mkdate y m d))%result.

(** The dates that exist as [date] objects. *)
Definition valid_date (d : date) : bool :=
  is_ok (check_date_fields (year d) (month d) (day d)).

(** [d.replace(year=y)]. *)
Definition replace_year (d : date) (y : Z) : result date :=
  date_new y (month d) (day d).

Definition toordinal (d : date) : Z := _ymd2ord (year d) (month d) (day d).

Definition fromordinal (n : Z) : date :=
  let '(y, m, d) := _ord2ymd n in mkdate y m d.

(** [d.weekday()]: Monday is 0 and Sunday is 6. *)
Definition weekday (d : date) : Z := (toordinal d + 6) mod 7.

(** [a < b] on dates: the comparison of the (year, month, day) triples. *)
Definition date_lt (a b : date) : bool :=
  (year a <? year b)
  || ((year a =? year b)
      && ((month a <? month b)
          || ((month a =? month b) && (day a <? day b)))).

(** [(a - b).days]. *)
Definition days_between (a b : date) : Z := toordinal a - toordinal b.

(** [d + timedelta(days=k)]. *)
Definition add_days (d : date) (k : Z) : result date :=
  let o := toordinal d + k in
  if (0 <? o) && (o <=? _MAXORDINAL) then Ok (fromordinal o)
  else Raise (OverflowError "date value out of range").

(** [d.strftime("%d.%m.%Y")]: day and month on two digits, the year on four,
    as the library documents [%Y] (0001, ..., 9999).  For the years below
    1000 the text comes from the C library, and CPython before 3.13 on glibc
    drops the leading zeros there (999 and not 0999); from the year 1000 on
    all agree.  So this is the text the program writes for the years 1000 to
    9999, and the canonical text DD.MM.YYYY of the date for every year; what
    is stated below of the text written by [get_upcoming_birthdays] is stated
    for a day [today] with [1000 <= year today]. *)
Definition strftime (d : date) : pystr :=
  zero_padded 2 (day d) ++ u "." ++ zero_padded 2 (month d) ++ u "."
  ++ zero_padded 4 (year d).

(* ================================================================== *)
(** ** [datetime.strptime(value, '%d.%m.%Y')]                          *)
(* ================================================================== *)

(** The fragment of regular expressions that [_strptime.TimeRE] builds for
    this format. *)
Inductive regex : Type :=
| Chr (c : codepoint)              (* a literal character *)
| Rng (lo hi : codepoint)          (* [lo-hi] *)
| Dec                              (* \d *)
| Seq (r1 r2 : regex)
| Alt (r1 r2 : regex)
| Grp (name : string) (r : regex). (* (?P<name>r) *)

(** The captured groups of a match, latest first. *)
Definition groups := list (string * pystr).

(** Backtracking search: every way [r] matches a prefix of [s], as
    (groups, text matched, rest), in the order the engine tries them. *)
Fixpoint re_match (r : regex) (s : pystr) : list (groups * pystr * pystr) :=
  match r with
  | Chr c =>
      match s with
      | c' :: s' => if c' =? c then [([], [c'], s')] else []
      | [] => []
      end
  | Rng lo hi =>
      match s with
      | c' :: s' => if (lo <=? c') && (c' <=? hi) then [([], [c'], s')] else []
      | [] => []
      end
  | Dec =>
      match s with
      | c' :: s' => if isdecimal_cp c' then [([], [c'], s')] else []
      | [] => []
      end
  | Seq r1 r2 =>
      flat_map (fun '(g1, t1, s1) =>
                  map (fun '(g2, t2, s2) => (g2 ++ g1, t1 ++ t2, s2))
                      (re_match r2 s1))
               (re_match r1 s)
  | Alt r1 r2 => re_match r1 s ++ re_match r2 s
  | Grp name r1 =>
      map (fun '(g, t, s') => ((name, t) :: g, t, s')) (re_match r1 s)
  end.

Fixpoint alts (rs : list regex) (last : regex) : regex :=
  match rs with
  | [] => last
  | r :: rs' => Alt r (alts rs' last)
  end.

Definition lit (c : string) : regex :=
  match u c with
  | [a] => Chr a
  | _ => Chr 0
  end.
Definition rng (lo hi : string) : regex :=
  match u lo, u hi with
  | [a], [b] => Rng a b
  | _, _ => Chr 0
  end.

(** [(?P<d>3[0-1]|[1-2]\d|0[1-9]|[1-9]| [1-9])] *)
Definition re_d : regex :=
  Grp "d" (alts [ Seq (lit "3") (rng "0" "1");
                  Seq (rng "1" "2") Dec;
                  Seq (lit "0") (rng "1" "9");
                  rng "1" "9" ]
                (Seq (lit " ") (rng "1" "9"))).

(** [(?P<m>1[0-2]|0[1-9]|[1-9])] *)
Definition re_m : regex :=
  Grp "m" (alts [ Seq (lit "1") (rng "0" "2");
                  Seq (lit "0") (rng "1" "9") ]
                (rng "1" "9")).

(** [(?P<Y>\d\d\d\d)] *)
Definition re_Y : regex :=
  Grp "Y" (Seq Dec (Seq Dec (Seq Dec Dec))).

(** The pattern of ['%d.%m.%Y']. *)
Definition format_regex : regex :=
  Seq re_d (Seq (lit ".") (Seq re_m (Seq (lit ".") re_Y))).

Fixpoint group (name : string) (g : groups) : pystr :=
  match g with
  | [] => []
  | (n, t) :: g' => if String.eqb n name then t else group name g'
  end.

(** [datetime.strptime(data, '%d.%m.%Y').date()]: the first match of the
    pattern at the start of [data] must reach its end; the three groups are
    converted with [int] and the date is built from them. *)
Definition strptime (data : pystr) : result date :=
  match re_match format_regex data with
  | [] => Raise (ValueError "time data does not match format")
  | (g, _, rest) :: _ =>
      match rest with
      | _ :: _ => Raise (ValueError "unconverted data remains")
      | [] =>
          (y <- int (group "Y" g) ;;
           m <- int (group "m" g) ;;
           d <- int (group "d" g) ;;
           date_new y m d)%result
      end
  end.

(* ================================================================== *)
(** ** Fields                                                          *)
(* ================================================================== *)

(** [Field] and its subclasses [Name], [Phone] and [Birthday] hold one
    attribute, [value]. *)
Record Field : Type := mkField { value : pystr }.

Definition Field_init (value : pystr) : Field := mkField value.

(** [class Name(Field): pass]: the inherited constructor, without a check. *)
Definition Name_init (value : pystr) : result Field := Ok (Field_init value).

(** [isinstance(value, str)] holds of every [pystr]. *)
Definition Phone_init (value : pystr) : result Field :=
  if negb (isdigit value && (len value =? 10))
  then Raise (ValueError "Phone number must be 10 digits.")
  else Ok (Field_init value).

Definition Birthday_init (value : pystr) : result Field :=
  match strptime value with
  | Raise (ValueError _) =>
      Raise (ValueError "Invalid date format. Use DD.MM.YYYY")
  | Raise e => Raise e
  | Ok _ => Ok (Field_init value)
  end.

(* ================================================================== *)
(** ** Records                                                         *)
(* ================================================================== *)

(** An object of the class [Record]. *)
Record RecordT : Type := mkRecord {
  name : Field;
  phones : list Field;
  birthday : option Field
}.

Definition Record_init (name : pystr) : result RecordT :=
  (n <- Name_init name ;; Ok (mkRecord n [] None))%result.

Definition add_phone (phone_number : pystr) : M RecordT unit :=
  (p <~ lift (Phone_init phone_number) ;;
   self <~ get ;;
   put (mkRecord (name self) (phones self ++ [p]) (birthday self)))%monad.

Definition add_birthday (birthday_str : pystr) : M RecordT unit :=
  (b <~ lift (Birthday_init birthday_str) ;;
   self <~ get ;;
   put (mkRecord (name self) (phones self) (Some b)))%monad.

(* ================================================================== *)
(** ** The address book                                                *)
(* ================================================================== *)

Fixpoint str_eqb (a b : pystr) : bool :=
  match a, b with
  | [], [] => true
  | x :: a', y :: b' => (x =? y) && str_eqb a' b'
  | _, _ => false
  end.

(** [self.data]: keys in insertion order. *)
Definition AddressBook := list (pystr * RecordT).

(** [data[k] = v]: an existing key keeps its place, a new one goes last. *)
Fixpoint dict_set (k : pystr) (v : RecordT) (data : AddressBook)
  : AddressBook :=
  match data with
  | [] => [(k, v)]
  | (k', v') :: data' =>
      if str_eqb k' k then (k', v) :: data'
      else (k', v') :: dict_set k v data'
  end.

(** [data.get(k)]. *)
Fixpoint dict_get (k : pystr) (data : AddressBook) : option RecordT :=
  match data with
  | [] => None
  | (k', v') :: data' => if str_eqb k' k then Some v' else dict_get k data'
  end.

(** [data.values()]. *)
Definition dict_values (data : AddressBook) : list RecordT := map snd data.

Definition dict_keys (data : AddressBook) : list pystr := map fst data.

Definition add_record (record : RecordT) : M AddressBook unit :=
  (data <~ get ;; put (dict_set (value (name record)) record data))%monad.

Definition find (name : pystr) : M AddressBook (option RecordT) :=
  (data <~ get ;; ret (dict_get name data))%monad.

(** An element of the list [get_upcoming_birthdays] returns: the dictionary
    with the keys "name" and "congratulation_date". *)
Record Entry : Type := mkEntry {
  entry_name : pystr;
  congratulation_date : pystr
}.

(** The body of the loop of [get_upcoming_birthdays], for one [record] and the
    list [upcoming] built so far. *)
Definition upcoming_body (today : date) (record : RecordT)
    (upcoming : list Entry) : result (list Entry) :=
  match birthday record with
  | None => Ok upcoming
  | Some b =>
      (b_date <- strptime (value b) ;;
       b_this_year <- replace_year b_date (year today) ;;
       b_this_year <-
         (if date_lt b_this_year today
          then replace_year b_this_year (year today + 1)
          else Ok b_this_year) ;;
       if (0 <=? days_between b_this_year today)
          && (days_between b_this_year today <? 7)
       then
         b_this_year <-
           (if 5 <=? weekday b_this_year
            then add_days b_this_year (7 - weekday b_this_year)
            else Ok b_this_year) ;;
         Ok (upcoming
             ++ [mkEntry (value (name record)) (strftime b_this_year)])
       else Ok upcoming)%result
  end.

(** [get_upcoming_birthdays], with the date [date.today()] returned as the
    argument [today]. *)
Definition get_upcoming_birthdays (today : date)
  : M AddressBook (list Entry) :=
  (data <~ get ;;
   for_each (dict_values data) []
            (fun record upcoming => lift (upcoming_body today record upcoming))
  )%monad.

(** Running a method for its final object. *)
Definition exec {S A} (m : M S A) (s : S) : S := snd (m s).
Definition eval {S A} (m : M S A) (s : S) : result A := fst (m s).

(* ================================================================== *)
(** ** Auxiliary definitions of the proofs                             *)
(* ================================================================== *)

(** The month tables as functions of the leap flag alone. *)
Definition dim_of (leap : bool) (m : Z) : Z :=
  if (m =? 2) && leap then 29 else index _DAYS_IN_MONTH m.

Definition dbm_of (leap : bool) (m : Z) : Z :=
  index _DAYS_BEFORE_MONTH m + (if (2 <? m) && leap then 1 else 0).

(** The last step of [_ord2ymd]: month and day of the [n]-th day (from 0) of
    a year. *)
Definition month_day_of (leapyear : bool) (n : Z) : Z * Z :=
  let month := Z.shiftr (n + 50) 5 in
  let preceding := dbm_of leapyear month in
  if n <? preceding
  then (month - 1, n - (preceding - dim_of leapyear (month - 1)) + 1)
  else (month, n - preceding + 1).

(** The check that [month_day_of] returns a day of the year's calendar whose
    day of the year is [n + 1]. *)
Definition month_day_ok (leapyear : bool) (n : Z) : bool :=
  let '(m, d) := month_day_of leapyear n in
  (1 <=? m) && (m <=? 12) && (1 <=? d) && (d <=? dim_of leapyear m)
  && (dbm_of leapyear m + d =? n + 1).

(** The number of days of a year. *)
Definition year_length (leap : bool) : Z := if leap then 366 else 365.

(** All the integers of [lo, lo + n). *)
Definition zrange (lo : Z) (n : nat) : list Z :=
  map (fun i => lo + Z.of_nat i) (seq 0 n).

(** *** What the pattern of ['%d.%m.%Y'] accepts

    The texts each directive matches, with the number [int] reads from them:
    the day is ['3'] and ['0'-'1'], or ['1'-'2'] and any decimal character, or
    ['0'] and ['1'-'9'], or ['1'-'9'] alone, or a space and ['1'-'9']; the
    month is ['1'] and ['0'-'2'], or ['0'] and ['1'-'9'], or ['1'-'9'] alone;
    the year is four decimal characters. *)
Inductive day_text : pystr -> Z -> Prop :=
| day_3x c : 48 <= c <= 49 -> day_text [51; c] (30 + (c - 48))
| day_12x c1 c2 v :
    49 <= c1 <= 50 -> decimal_value c2 = Some v ->
    day_text [c1; c2] (10 * (c1 - 48) + v)
| day_0x c : 49 <= c <= 57 -> day_text [48; c] (c - 48)
| day_x c : 49 <= c <= 57 -> day_text [c] (c - 48)
| day_space c : 49 <= c <= 57 -> day_text [32; c] (c - 48).

Inductive month_text : pystr -> Z -> Prop :=
| month_1x c : 48 <= c <= 50 -> month_text [49; c] (10 + (c - 48))
| month_0x c : 49 <= c <= 57 -> month_text [48; c] (c - 48)
| month_x c : 49 <= c <= 57 -> month_text [c] (c - 48).

Inductive year_text : pystr -> Z -> Prop :=
| year_4 c1 c2 c3 c4 v1 v2 v3 v4 :
    decimal_value c1 = Some v1 -> decimal_value c2 = Some v2 ->
    decimal_value c3 = Some v3 -> decimal_value c4 = Some v4 ->
    year_text [c1; c2; c3; c4] (1000 * v1 + 100 * v2 + 10 * v3 + v4).

(** A day text, a dot, a month text, a dot and a year text. *)
Inductive date_text : pystr -> date -> Prop :=
| date_dmY D Mo Y d m y :
    day_text D d -> month_text Mo m -> year_text Y y ->
    date_text (D ++ 46 :: Mo ++ 46 :: Y) (mkdate y m d).

(** The first match of a pattern, which is the one [re.match] returns. *)
Definition first_match (r : regex) (s : pystr)
  : option (groups * pystr * pystr) :=
  hd_error (re_match r s).

(** The check on a run of decimal characters: it is the run of the ASCII
    digits, of length 10, or it lies outside ASCII. *)
Definition run_ok (r : Z * Z) : bool :=
  (48 <=? fst r) && (0 <? snd r) && ((fst r =? 48) || (128 <=? fst r))
  && implb (fst r =? 48) (snd r =? 10).

(** *** The scheduler in the words of the specification *)

(** The birthday of a record as a date, when the record has one. *)
Definition birthday_date (r : RecordT) : option date :=
  match birthday r with
  | Some b => match strptime (value b) with
              | Ok d => Some d
              | Raise _ => None
              end
  | None => None
  end.

(** The occurrence of a birthday in the year [y]: the same month and day in
    that year, when the calendar has such a day. *)
Definition occurrence_in (y : Z) (b : date) : option date :=
  let occ := mkdate y (month b) (day b) in
  if valid_date occ then Some occ else None.

(** This year's occurrence, or next year's when this year's is strictly
    before [today]. *)
Definition rolled_occurrence (today b : date) : option date :=
  match occurrence_in (year today) b with
  | Some occ =>
      if toordinal occ <? toordinal today
      then occurrence_in (year today + 1) b
      else Some occ
  | None => None
  end.

(** The number of whole days from [today] to [occ]. *)
Definition delta (today occ : date) : Z := toordinal occ - toordinal today.

(** The inclusion test: the record has a birthday whose rolled occurrence is
    today or at most six days ahead. *)
Definition included (today : date) (r : RecordT) : bool :=
  match birthday_date r with
  | Some b =>
      match rolled_occurrence today b with
      | Some occ => (0 <=? delta today occ) && (delta today occ <? 7)
      | None => false
      end
  | None => false
  end.

(** The records the scheduler can treat: those without a birthday, and those
    whose birthday has a rolled occurrence. *)
Definition schedulable (today : date) (r : RecordT) : bool :=
  match birthday r with
  | None => true
  | Some _ =>
      match birthday_date r with
      | Some b => match rolled_occurrence today b with
                  | Some _ => true
                  | None => false
                  end
      | None => false
      end
  end.

(** The day of the congratulation: the Monday after a Saturday or a Sunday,
    the day itself otherwise. *)
Definition congratulation_day (occ : date) : date :=
  if 5 <=? weekday occ
  then fromordinal (toordinal occ + (7 - weekday occ))
  else occ.

(** The text DD.MM.YYYY of a date. *)
Definition dd_mm_yyyy (d : date) : pystr :=
  zero_padded 2 (day d) ++ [46] ++ zero_padded 2 (month d) ++ [46]
  ++ zero_padded 4 (year d).

(** What a record contributes to the result. *)
Definition entries_of (today : date) (r : RecordT) : list Entry :=
  match birthday_date r with
  | Some b =>
      match rolled_occurrence today b with
      | Some occ =>
          if (0 <=? delta today occ) && (delta today occ <? 7)
          then [mkEntry (value (name r)) (dd_mm_yyyy (congratulation_day occ))]
          else []
      | None => []
      end
  | None => []
  end.

(** What the specification says of an entry [e] emitted for a record [r]:
    the occurrence [occ] passed the inclusion test, and the entry carries the
    name of the record and the text of the day [cd], which is [occ] moved by
    two days from a Saturday, by one day from a Sunday, and [occ] itself on
    the other days. *)
Definition shifted_entry (today : date) (r : RecordT) (e : Entry) : Prop :=
  exists b occ cd,
    birthday_date r = Some b /\ rolled_occurrence today b = Some occ
    /\ 0 <= delta today occ < 7
    /\ valid_date cd = true
    /\ (5 <= weekday occ -> toordinal cd = toordinal occ + (7 - weekday occ))
    /\ (weekday occ = 5 -> toordinal cd = toordinal occ + 2 /\ weekday cd = 0)
    /\ (weekday occ = 6 -> toordinal cd = toordinal occ + 1 /\ weekday cd = 0)
    /\ (weekday occ < 5 -> cd = occ)
    /\ entry_name e = value (name r)
    /\ congratulation_date e = dd_mm_yyyy cd
    /\ len (congratulation_date e) = 10.

(** *** Sample objects *)

(** A record built as the program builds it: the constructor, then
    [add_birthday]; the empty record stands for a constructor that raised. *)
Definition record_with_birthday (n b : string) : RecordT :=
  match Record_init (u n) with
  | Ok r => exec (add_birthday (u b)) r
  | Raise _ => mkRecord (mkField []) [] None
  end.

Definition record_without_birthday (n : string) : RecordT :=
  match Record_init (u n) with
  | Ok r => r
  | Raise _ => mkRecord (mkField []) [] None
  end.

Definition book_of (records : list RecordT) : AddressBook :=
  fold_left (fun book r => exec (add_record r) book) records [].

(** Monday 10 June 2024 and the three contacts of the scenarios of the
    specification, with a contact without a birthday. *)
Definition monday_10_june_2024 : date := mkdate 2024 6 10.

Definition sample_book : AddressBook :=
  book_of [ record_with_birthday "Alice" "10.06.1990";
            record_with_birthday "Bob" "15.06.1985";
            record_with_birthday "Carol" "09.06.1999";
            record_without_birthday "Dave" ].

(** A contact born on 29 February, and a day of a year without one. *)
Definition leap_day_book : AddressBook :=
  book_of [ record_with_birthday "Ann" "29.02.2000" ].

Definition saturday_25_february_2023 : date := mkdate 2023 2 25.

(** Ten times SUPERSCRIPT TWO (U+00B2). *)
Definition ten_superscript_twos : pystr := repeat 0xb2 10%nat.

(** The exact shape of the specification: two ASCII digits, a dot, two ASCII
    digits, a dot and four ASCII digits. *)
Definition exact_shape (s : pystr) : bool :=
  match s with
  | [d1; d2; p1; m1; m2; p2; y1; y2; y3; y4] =>
      is_ascii_digit d1 && is_ascii_digit d2 && (p1 =? 46)
      && is_ascii_digit m1 && is_ascii_digit m2 && (p2 =? 46)
      && is_ascii_digit y1 && is_ascii_digit y2
      && is_ascii_digit y3 && is_ascii_digit y4
  | _ => false
  end.

(* ================================================================== *)
(** ** The rest of the program: what records and books keep            *)
(* ================================================================== *)

(** What [Phone.__init__] checked of the value of a stored phone, and what
    [Birthday.__init__] checked of the value of a stored birthday. *)
Definition phone_ok (p : Field) : bool :=
  isdigit (value p) && (len (value p) =? 10).

Definition birthday_ok (b : Field) : bool := is_ok (strptime (value b)).

(** A record all of whose fields passed the check of their constructor. *)
Definition record_ok (r : RecordT) : bool :=
  forallb phone_ok (phones r)
  && match birthday r with
     | Some b => birthday_ok b
     | None => true
     end.

(** A book that holds every record under the value of its name, each key
    once. *)
Definition book_keyed (book : AddressBook) : Prop :=
  NoDup (dict_keys book)
  /\ Forall (fun kv => fst kv = value (name (snd kv))) book.

(** A record that is not born on 29 February. *)
Definition leap_day_free (r : RecordT) : bool :=
  match birthday_date r with
  | Some b => negb ((month b =? 2) && (day b =? 29))
  | None => true
  end.

(** The part of a record the query of the birthdays reads. *)
Definition name_and_birthday (r : RecordT) : Field * option Field :=
  (name r, birthday r).

(* ================================================================== *)
(** ** The rest of the program: the text of a record                   *)
(* ================================================================== *)

(** [sep.join(l)]. *)
Fixpoint join (sep : pystr) (l : list pystr) : pystr :=
  match l with
  | [] => []
  | x :: l' =>
      match l' with
      | [] => x
      | _ :: _ => x ++ sep ++ join sep l'
      end
  end.

(** [Field.__str__], on a field whose value is a string. *)
Definition Field_str (self : Field) : pystr := value self.

(** [Record.__str__]. *)
Definition Record_str (self : RecordT) : pystr :=
  let birthday_str :=
    match birthday self with
    | Some b => u ", birthday: " ++ value b
    | None => []
    end in
  u "Contact name: " ++ value (name self) ++ u ", phones: "
  ++ join (u "; ") (map value (phones self)) ++ birthday_str.

(* ================================================================== *)
(** ** The rest of the program: the command handlers                   *)
(* ================================================================== *)

(** The exceptions of the command layer: those of the classes above, and the
    three the handlers, the view and [input] add. *)
Inductive pyexn : Type :=
| Core (e : exn)
| IndexError (msg : string)
| TypeError (msg : string)
| EOFError (msg : string).

Inductive outcome (A : Type) : Type :=
| Return (a : A)
| Throw (e : pyexn).
Arguments Return {A} a.
Arguments Throw {A} e.

Definition of_result {A} (r : result A) : outcome A :=
  match r with
  | Ok a => Return a
  | Raise e => Throw (Core e)
  end.

(** A function of the command layer, running on an object of state [S]. *)
Definition Cmd (S A : Type) : Type := S -> outcome A * S.

Definition cret {S A} (a : A) : Cmd S A := fun s => (Return a, s).
Definition cbind {S A B} (m : Cmd S A) (k : A -> Cmd S B) : Cmd S B :=
  fun s => match m s with
           | (Return a, s') => k a s'
           | (Throw e, s') => (Throw e, s')
           end.
Definition cthrow {S A} (e : pyexn) : Cmd S A := fun s => (Throw e, s).
Definition cget {S} : Cmd S S := fun s => (Return s, s).

(** A value or an exception that does not depend on the object. *)
Definition pure_outcome {S A} (o : outcome A) : Cmd S A := fun s => (o, s).

(** A method of the classes above, called from the command layer. *)
Definition call {S A} (m : M S A) : Cmd S A :=
  fun s => let (r, s') := m s in (of_result r, s').

Declare Scope cmd_scope.
Delimit Scope cmd_scope with cmd.
Notation "x <<- c1 ;; c2" := (cbind c1 (fun x => c2))
  (at level 61, c1 at next level, right associativity) : cmd_scope.

(** A method called on a record object that the book holds: [record] is the
    object, which the book holds under the key [k], so what the method does
    to the object is seen through the book.  (The program puts a record in
    the book under the value of its name only, so no object is held under
    two keys.) *)
Definition on_record {A} (k : pystr) (record : RecordT) (m : M RecordT A)
  : Cmd AddressBook A :=
  fun book =>
    let (r, record') := m record in (of_result r, dict_set k record' book).

(** [str(e)] for the exceptions the decorator catches.  (KeyError and
    AttributeError, which it also names, are raised nowhere.) *)
Definition caught (e : pyexn) : option string :=
  match e with
  | Core (ValueError msg) => Some msg
  | IndexError msg => Some msg
  | _ => None
  end.

(** [input_error(func)]: the value of [func], on the left, or the text of the
    error it caught, on the right. *)
Definition input_error {S A} (func : Cmd S A) : Cmd S (A + pystr) :=
  fun s => match func s with
           | (Return a, s') => (Return (inl a), s')
           | (Throw e, s') =>
               match caught e with
               | Some msg => (Return (inr (u "Error: " ++ u msg)), s')
               | None => (Throw e, s')
               end
           end.

(** [name, phone = args]. *)
Definition unpack2 (args : list pystr) : outcome (pystr * pystr) :=
  match args with
  | [] =>
      Throw (Core (ValueError "not enough values to unpack (expected 2, got 0)"))
  | [_] =>
      Throw (Core (ValueError "not enough values to unpack (expected 2, got 1)"))
  | [name; phone] => Return (name, phone)
  | _ => Throw (Core (ValueError "too many values to unpack (expected 2)"))
  end.

(** The function [add_contact] before its decoration. *)
Definition add_contact_func (args : list pystr) : Cmd AddressBook pystr :=
  (np <<- pure_outcome (unpack2 args) ;;
   let '(name, phone) := np in
   record <<- call (find name) ;;
   record <<-
     match record with
     | None =>
         record <<- pure_outcome (of_result (Record_init name)) ;;
         _ <<- call (add_record record) ;;
         cret record
     | Some record => cret record
     end ;;
   _ <<- on_record name record (add_phone phone) ;;
   cret (u "Contact added/updated."))%cmd.

Definition add_contact (args : list pystr) : Cmd AddressBook (pystr + pystr) :=
  input_error (add_contact_func args).

(** The function [show_phone] before its decoration: the record, on the
    left, or the text "Contact not found.", on the right. *)
Definition show_phone_func (args : list pystr)
  : Cmd AddressBook (RecordT + pystr) :=
  match args with
  | [] => cthrow (IndexError "list index out of range")
  | name :: _ =>
      (record <<- call (find name) ;;
       match record with
       | None => cret (inr (u "Contact not found."))
       | Some record => cret (inl record)
       end)%cmd
  end.

Definition show_phone (args : list pystr)
  : Cmd AddressBook ((RecordT + pystr) + pystr) :=
  input_error (show_phone_func args).

Definition show_all_func : Cmd AddressBook (list RecordT) :=
  (book <<- cget ;; cret (dict_values book))%cmd.

Definition show_all : Cmd AddressBook (list RecordT + pystr) :=
  input_error show_all_func.

Definition birthdays_func (today : date) : Cmd AddressBook (list Entry) :=
  call (get_upcoming_birthdays today).

Definition birthdays (today : date) : Cmd AddressBook (list Entry + pystr) :=
  input_error (birthdays_func today).

(* ================================================================== *)
(** ** The rest of the program: the console view                       *)
(* ================================================================== *)

(** What the program writes: the text of a [print], or the prompt of an
    [input]. *)
Inductive event : Type :=
| Printed (text : pystr)
| Prompted (prompt : pystr).

(** [ConsoleView.display_message], on a string. *)
Definition display_message (message : pystr) : Cmd (list event) unit :=
  fun out => (Return tt, out ++ [Printed message]).

(** A [for x in xs:] loop of the command layer, without a value. *)
Fixpoint for_all {S A} (xs : list A) (body : A -> Cmd S unit) : Cmd S unit :=
  match xs with
  | [] => cret tt
  | x :: xs' => cbind (body x) (fun _ => for_all xs' body)
  end.

(** [ConsoleView.display_contacts], on what [show_all] returns: the list of
    the records, or the text of an error, which [not] and [for] take as the
    sequence of its characters. *)
Definition display_contacts (contacts : list RecordT + pystr)
  : Cmd (list event) unit :=
  match contacts with
  | inl [] => display_message (u "No contacts found.")
  | inl records =>
      for_all records (fun record => display_message (Record_str record))
  | inr [] => display_message (u "No contacts found.")
  | inr text => for_all text (fun c => display_message [c])
  end.

(** [ConsoleView.display_birthdays], on what [birthdays] returns: on the text
    of an error the first [entry['name']] indexes a string with a string. *)
Definition display_birthdays (upcoming : list Entry + pystr)
  : Cmd (list event) unit :=
  match upcoming with
  | inl [] => display_message (u "No upcoming birthdays.")
  | inl entries =>
      for_all entries
        (fun entry =>
           display_message
             (entry_name entry ++ u ": " ++ congratulation_date entry))
  | inr [] => display_message (u "No upcoming birthdays.")
  | inr (_ :: _) =>
      cthrow (TypeError "string indices must be integers, not 'str'")
  end.

(* ================================================================== *)
(** ** The rest of the program: the command line                       *)
(* ================================================================== *)

(** Unicode 14.0: the characters [str.split] and [str.strip] take as
    whitespace, as inclusive ranges. *)
Definition whitespace_ranges : list (Z * Z) :=
  [ (0x9, 0xd); (0x1c, 0x20); (0x85, 0x85); (0xa0, 0xa0); (0x1680, 0x1680);
    (0x2000, 0x200a); (0x2028, 0x2029); (0x202f, 0x202f); (0x205f, 0x205f);
    (0x3000, 0x3000) ].

Definition isspace_cp (c : codepoint) : bool :=
  existsb (fun r => (fst r <=? c) && (c <=? snd r)) whitespace_ranges.

(** [s.split()]: the maximal runs of characters that are not whitespace;
    [word] is the run being read. *)
Fixpoint split_words (word : pystr) (s : pystr) : list pystr :=
  match s with
  | [] => match word with
          | [] => []
          | _ :: _ => [word]
          end
  | c :: s' =>
      if isspace_cp c
      then match word with
           | [] => split_words [] s'
           | _ :: _ => word :: split_words [] s'
           end
      else split_words (word ++ [c]) s'
  end.

Definition str_split (s : pystr) : list pystr := split_words [] s.

Fixpoint lstrip_ws (s : pystr) : pystr :=
  match s with
  | c :: s' => if isspace_cp c then lstrip_ws s' else s
  | [] => []
  end.

(** [s.strip()]. *)
Definition str_strip (s : pystr) : pystr :=
  rev (lstrip_ws (rev (lstrip_ws s))).

(** The state of a run of [main]: the book and what was written. *)
Definition World : Type := AddressBook * list event.

Definition in_book {A} (m : Cmd AddressBook A) : Cmd World A :=
  fun w => let (o, b) := m (fst w) in (o, (b, snd w)).

Definition in_view {A} (m : Cmd (list event) A) : Cmd World A :=
  fun w => let (o, v) := m (snd w) in (o, (fst w, v)).

Section CommandLine.

(** [str.lower], which the case tables of Unicode define. *)
Variable str_lower : pystr -> pystr.

(** [parse_input]: the command and the list of the arguments. *)
Definition parse_input (user_input : pystr) : outcome (pystr * list pystr) :=
  match str_split user_input with
  | [] =>
      Throw (Core (ValueError
        "not enough values to unpack (expected at least 1, got 0)"))
  | cmd :: args => Return (str_lower (str_strip cmd), args)
  end.

(** The body of the loop of [main] once [input] has returned [line], on the
    day [today]; the value says whether the loop is left. *)
Definition main_body (today : date) (line : pystr) : Cmd World bool :=
  let user_input := str_strip line in
  match user_input with
  | [] => cret false
  | _ :: _ =>
      (ca <<- pure_outcome (parse_input user_input) ;;
       let '(command, args) := ca in
       if existsb (str_eqb command) [u "close"; u "exit"] then
         _ <<- in_view (display_message (u "Good bye!")) ;; cret true
       else if str_eqb command (u "hello") then
         _ <<- in_view (display_message (u "How can I help you?")) ;;
         cret false
       else if str_eqb command (u "add") then
         message <<- in_book (add_contact args) ;;
         _ <<- in_view (display_message
                          (match message with inl s => s | inr s => s end)) ;;
         cret false
       else if str_eqb command (u "phone") then
         result <<- in_book (show_phone args) ;;
         _ <<- match result with
               | inl (inl record) => in_view (display_contacts (inl [record]))
               | inl (inr text) => in_view (display_message text)
               | inr text => in_view (display_message text)
               end ;;
         cret false
       else if str_eqb command (u "all") then
         all_contacts <<- in_book show_all ;;
         _ <<- in_view (display_contacts all_contacts) ;;
         cret false
       else if str_eqb command (u "birthdays") then
         upcoming_birthdays <<- in_book (birthdays today) ;;
         _ <<- in_view (display_birthdays upcoming_birthdays) ;;
         cret false
       else
         _ <<- in_view (display_message (u "Invalid command.")) ;;
         cret false)%cmd
  end.

(** [input("Enter a command: ")]: the prompt is written, then a line is read. *)
Definition prompt : Cmd World unit :=
  fun w => (Return tt, (fst w, snd w ++ [Prompted (u "Enter a command: ")])).

(** The loop of [main] on the lines the user enters, each with the date of
    the day it is entered; when they run out, [input] finds the end of the
    file. *)
Fixpoint main_loop (inputs : list (date * pystr)) : Cmd World unit :=
  match inputs with
  | [] =>
      (_ <<- prompt ;; cthrow (EOFError "EOF when reading a line"))%cmd
  | (today, line) :: inputs' =>
      (_ <<- prompt ;;
       leave <<- main_body today line ;;
       if (leave : bool) then cret tt else main_loop inputs')%cmd
  end.

(** [main()]. *)
Definition main (inputs : list (date * pystr)) : outcome unit * World :=
  (_ <<- in_view (display_message (u "Welcome to the assistant bot!")) ;;
   main_loop inputs)%cmd ([], []).

End CommandLine.

(** Lower case on ASCII letters, which is [str.lower] on ASCII text. *)
Definition ascii_lower (s : pystr) : pystr :=
  map (fun c => if (65 <=? c) && (c <=? 90) then c + 32 else c) s.

(** A call of one of the two methods that change a record. *)
Inductive record_call : Type :=
| AddPhone (phone_number : pystr)
| AddBirthday (birthday_str : pystr).

(** The record after the call, whether it returned or raised. *)
Definition after_call (r : RecordT) (c : record_call) : RecordT :=
  match c with
  | AddPhone s => exec (add_phone s) r
  | AddBirthday s => exec (add_birthday s) r
  end.

(** The record the command [add] works on: the one the book holds under the
    name, or a new one. *)
Definition contact_or_new (name : pystr) (book : AddressBook) : RecordT :=
  match dict_get name book with
  | Some record => record
  | None => mkRecord (mkField name) [] None
  end.

(** The record with one more phone. *)
Definition with_phone (r : RecordT) (phone : pystr) : RecordT :=
  mkRecord (name r) (phones r ++ [mkField phone]) (birthday r).

(** A word of a command line: a text that is not empty and holds no
    whitespace. *)
Definition is_word (w : pystr) : bool :=
  match w with
  | [] => false
  | _ :: _ => forallb (fun c => negb (isspace_cp c)) w
  end.

(** A record as the commands of [main] can make it: its phones passed the
    check, it has no birthday, and its name is a word. *)
Definition cli_record (r : RecordT) : bool :=
  record_ok r
  && match birthday r with
     | None => true
     | Some _ => false
     end
  && is_word (value (name r)).

(** A book as the commands of [main] can make it. *)
Definition cli_book (book : AddressBook) : Prop :=
  book_keyed book /\ forallb cli_record (dict_values book) = true.

(* ================================================================== *)
(** ** The calendar                                                    *)
(* ================================================================== *)

Ltac dlia := Z.to_euclidean_division_equations; lia.

Ltac bool_to_prop :=
  repeat match goal with
         | H : _ && _ = true |- _ => apply andb_prop in H; destruct H
         | H : _ || _ = false |- _ => apply orb_false_elim in H; destruct H
         | H : negb _ = true |- _ => apply negb_true_iff in H
         | H : negb _ = false |- _ => apply negb_false_iff in H
         | H : (_ <=? _) = true |- _ => apply Z.leb_le in H
         | H : (_ <=? _) = false |- _ => apply Z.leb_gt in H
         | H : (_ <? _) = true |- _ => apply Z.ltb_lt in H
         | H : (_ <? _) = false |- _ => apply Z.ltb_ge in H
         | H : (_ =? _) = true |- _ => apply Z.eqb_eq in H
         | H : (_ =? _) = false |- _ => apply Z.eqb_neq in H
         end.

Lemma zrange_In lo n x :
  lo <= x < lo + Z.of_nat n -> In x (zrange lo n).
Proof.
  intros H. unfold zrange. apply in_map_iff.
  exists (Z.to_nat (x - lo)). split; [lia|]. apply in_seq. lia.
Qed.

Lemma month_cases m :
  1 <= m <= 12 ->
  m = 1 \/ m = 2 \/ m = 3 \/ m = 4 \/ m = 5 \/ m = 6 \/ m = 7 \/ m = 8
  \/ m = 9 \/ m = 10 \/ m = 11 \/ m = 12.
Proof. lia. Qed.

Ltac each_month m H :=
  destruct (month_cases m H) as
    [?|[?|[?|[?|[?|[?|[?|[?|[?|[?|[?|?]]]]]]]]]]]; subst m.

(** Evaluates the month tables at a known month and leap flag. *)
Ltac calc_tables :=
  repeat match goal with
         | |- context [dim_of ?l ?m] =>
             let v := eval vm_compute in (dim_of l m) in
             change (dim_of l m) with v in *
         | |- context [dbm_of ?l ?m] =>
             let v := eval vm_compute in (dbm_of l m) in
             change (dbm_of l m) with v in *
         | H : context [dim_of ?l ?m] |- _ =>
             let v := eval vm_compute in (dim_of l m) in
             change (dim_of l m) with v in *
         | H : context [dbm_of ?l ?m] |- _ =>
             let v := eval vm_compute in (dbm_of l m) in
             change (dbm_of l m) with v in *
         end.

Lemma _days_in_month_of y m : _days_in_month y m = dim_of (_is_leap y) m.
Proof. reflexivity. Qed.

Lemma _days_before_month_of y m :
  _days_before_month y m = dbm_of (_is_leap y) m.
Proof. reflexivity. Qed.

Lemma dim_of_bounds leap m : 1 <= m <= 12 -> 28 <= dim_of leap m <= 31.
Proof.
  intros H. each_month m H; destruct leap; vm_compute; intuition discriminate.
Qed.

(** The day of the year of a date of the year is at most the year's length. *)
Lemma day_of_year_bounds leap m d :
  1 <= m <= 12 -> 1 <= d <= dim_of leap m ->
  1 <= dbm_of leap m + d <= year_length leap.
Proof.
  intros Hm Hd. unfold year_length.
  each_month m Hm; destruct leap; calc_tables; lia.
Qed.

(** Within a year, the day of the year orders dates as (month, day) does. *)
Lemma day_of_year_mono leap m1 d1 m2 d2 :
  1 <= m1 <= 12 -> 1 <= d1 <= dim_of leap m1 ->
  1 <= m2 <= 12 -> 1 <= d2 <= dim_of leap m2 ->
  m1 < m2 \/ (m1 = m2 /\ d1 < d2) ->
  dbm_of leap m1 + d1 < dbm_of leap m2 + d2.
Proof.
  intros H1 Hd1 H2 Hd2 Hlt.
  each_month m1 H1; each_month m2 H2; try lia;
    destruct leap; calc_tables; lia.
Qed.

Lemma year_length_spec y :
  _days_before_year (y + 1) - _days_before_year y = year_length (_is_leap y).
Proof.
  unfold _days_before_year, year_length, _is_leap.
  destruct (y mod 4 =? 0) eqn:E4; destruct (y mod 100 =? 0) eqn:E100;
    destruct (y mod 400 =? 0) eqn:E400; simpl; bool_to_prop; dlia.
Qed.

Lemma _days_before_year_mono y1 y2 :
  y1 <= y2 -> _days_before_year y1 <= _days_before_year y2.
Proof. unfold _days_before_year. intros. dlia. Qed.

Lemma valid_date_spec d :
  valid_date d = true <->
  1 <= year d <= 9999 /\ 1 <= month d <= 12
  /\ 1 <= day d <= _days_in_month (year d) (month d).
Proof.
  unfold valid_date, check_date_fields, MINYEAR, MAXYEAR.
  destruct (_ && _) eqn:E1; simpl.
  - destruct ((1 <=? month d) && _) eqn:E2; simpl.
    + destruct ((1 <=? day d) && _) eqn:E3; simpl.
      * bool_to_prop. intuition lia.
      * apply andb_false_iff in E3. split; [discriminate|].
        intros (_ & _ & H). destruct E3; bool_to_prop; lia.
    + apply andb_false_iff in E2. split; [discriminate|].
      intros (_ & H & _). destruct E2; bool_to_prop; lia.
  - apply andb_false_iff in E1. split; [discriminate|].
    intros (H & _ & _). destruct E1; bool_to_prop; lia.
Qed.

Lemma date_new_ok y m d r :
  date_new y m d = Ok r <-> r = mkdate y m d /\ valid_date (mkdate y m d) = true.
Proof.
  unfold date_new, valid_date. simpl.
  destruct (check_date_fields y m d) as [[]|e]; simpl; split.
  - intros H; inversion H; auto.
  - intros [-> _]; reflexivity.
  - discriminate.
  - intros [_ H]; discriminate.
Qed.

(** [date_new] raises nothing but ValueError. *)
Lemma date_new_raises y m d e :
  date_new y m d = Raise e -> exists msg, e = ValueError msg.
Proof.
  unfold date_new, check_date_fields.
  repeat match goal with |- context [if ?b then _ else _] => destruct b end;
    simpl; intros H; inversion H; eauto.
Qed.

Lemma toordinal_bounds d :
  valid_date d = true -> 1 <= toordinal d <= _MAXORDINAL.
Proof.
  intros H. apply valid_date_spec in H. destruct H as (Hy & Hm & Hd).
  unfold toordinal, _ymd2ord. rewrite _days_before_month_of.
  rewrite _days_in_month_of in Hd.
  pose proof (day_of_year_bounds _ _ _ Hm Hd) as Hdoy.
  pose proof (year_length_spec (year d)) as Hlen.
  pose proof (_days_before_year_mono 1 (year d) ltac:(lia)) as H1.
  pose proof (_days_before_year_mono (year d + 1) 10000 ltac:(lia)) as H2.
  change (_days_before_year 1) with 0 in H1.
  change (_days_before_year 10000) with 3652059 in H2.
  unfold _MAXORDINAL. lia.
Qed.

(** The ordinal orders valid dates as the comparison of dates does. *)
Lemma date_lt_toordinal a b :
  valid_date a = true -> valid_date b = true ->
  date_lt a b = (toordinal a <? toordinal b).
Proof.
  intros Ha Hb. apply valid_date_spec in Ha, Hb.
  destruct Ha as (Hya & Hma & Hda), Hb as (Hyb & Hmb & Hdb).
  rewrite _days_in_month_of in Hda, Hdb.
  unfold toordinal, _ymd2ord. rewrite !_days_before_month_of.
  pose proof (day_of_year_bounds _ _ _ Hma Hda) as Ba.
  pose proof (day_of_year_bounds _ _ _ Hmb Hdb) as Bb.
  pose proof (year_length_spec (year a)) as La.
  pose proof (year_length_spec (year b)) as Lb.
  unfold date_lt.
  destruct (Z.lt_trichotomy (year a) (year b)) as [Hlt|[Heq|Hgt]].
  - pose proof (_days_before_year_mono (year a + 1) (year b) ltac:(lia)).
    replace (year a <? year b) with true by (symmetry; apply Z.ltb_lt; lia).
    simpl. symmetry. apply Z.ltb_lt. lia.
  - replace (year a <? year b) with false by (symmetry; apply Z.ltb_ge; lia).
    replace (year a =? year b) with true by (symmetry; apply Z.eqb_eq; lia).
    simpl. rewrite Heq in *.
    destruct (Z.lt_trichotomy (month a) (month b)) as [Hm|[Hm|Hm]].
    + replace (month a <? month b) with true by (symmetry; apply Z.ltb_lt; lia).
      simpl. symmetry. apply Z.ltb_lt.
      pose proof (day_of_year_mono _ _ _ _ _ Hma Hda Hmb Hdb (or_introl Hm)). lia.
    + replace (month a <? month b) with false by (symmetry; apply Z.ltb_ge; lia).
      replace (month a =? month b) with true by (symmetry; apply Z.eqb_eq; lia).
      simpl. rewrite Hm.
      destruct (day a <? day b) eqn:E; symmetry; bool_to_prop;
        [apply Z.ltb_lt | apply Z.ltb_ge]; lia.
    + replace (month a <? month b) with false by (symmetry; apply Z.ltb_ge; lia).
      replace (month a =? month b) with false by (symmetry; apply Z.eqb_neq; lia).
      simpl. symmetry. apply Z.ltb_ge.
      pose proof (day_of_year_mono _ _ _ _ _ Hmb Hdb Hma Hda (or_introl Hm)). lia.
  - pose proof (_days_before_year_mono (year b + 1) (year a) ltac:(lia)).
    replace (year a <? year b) with false by (symmetry; apply Z.ltb_ge; lia).
    replace (year a =? year b) with false by (symmetry; apply Z.eqb_neq; lia).
    simpl. symmetry. apply Z.ltb_ge. lia.
Qed.

Lemma month_day_of_ok leap n :
  0 <= n < year_length leap -> month_day_ok leap n = true.
Proof.
  intros H.
  assert (A : forall l, forallb (month_day_ok l) (zrange 0 (Z.to_nat (year_length l))) = true)
    by (intros []; vm_compute; reflexivity).
  specialize (A leap). rewrite forallb_forall in A.
  apply A, zrange_In. lia.
Qed.

Lemma month_day_of_spec leap n m d :
  0 <= n < year_length leap -> month_day_of leap n = (m, d) ->
  1 <= m <= 12 /\ 1 <= d <= dim_of leap m /\ dbm_of leap m + d = n + 1.
Proof.
  intros H E. pose proof (month_day_of_ok leap n H) as Hok.
  unfold month_day_ok in Hok. rewrite E in Hok. bool_to_prop. lia.
Qed.

(** [_ord2ymd] with its last step written as [month_day_of]. *)
Lemma _ord2ymd_unfold n :
  let n0 := n - 1 in
  let r1 := n0 mod _DI400Y in
  let r2 := r1 mod _DI100Y in
  let r3 := r2 mod _DI4Y in
  let n400 := n0 / _DI400Y in
  let n100 := r1 / _DI100Y in
  let n4 := r2 / _DI4Y in
  let n1 := r3 / 365 in
  let k := r3 mod 365 in
  let y := n400 * 400 + 1 + (n100 * 100 + n4 * 4 + n1) in
  let leapyear := (n1 =? 3) && (negb (n4 =? 24) || (n100 =? 3)) in
  _ord2ymd n =
  if (n1 =? 4) || (n100 =? 4) then (y - 1, 12, 31)
  else (y, fst (month_day_of leapyear k), snd (month_day_of leapyear k)).
Proof.
  intros n0 r1 r2 r3 n400 n100 n4 n1 k y leapyear.
  unfold _ord2ymd. fold n0. fold r1. fold r2. fold r3.
  fold n400. fold n100. fold n4. fold n1. fold k.
  cbv zeta. fold y. fold leapyear.
  destruct ((n1 =? 4) || (n100 =? 4)); [reflexivity|].
  unfold month_day_of, dbm_of, dim_of. cbv zeta.
  destruct (k <? _) eqn:Ek; cbn [fst snd]; f_equal.
  destruct ((Z.shiftr (k + 50) 5 - 1 =? 2) && leapyear) eqn:Em; [|lia].
  apply andb_prop in Em. destruct Em as [Em _]. apply Z.eqb_eq in Em.
  rewrite Em. change (index _DAYS_IN_MONTH 2) with 28. lia.
Qed.

Lemma is_leap_intro y :
  y mod 4 = 0 -> y mod 100 <> 0 \/ y mod 400 = 0 -> _is_leap y = true.
Proof.
  intros A B. unfold _is_leap.
  apply andb_true_intro; split; [apply Z.eqb_eq; exact A|].
  apply orb_true_iff. destruct B as [B|B];
    [left; apply negb_true_iff, Z.eqb_neq; exact B
    |right; apply Z.eqb_eq; exact B].
Qed.

Lemma fromordinal_spec n :
  1 <= n <= _MAXORDINAL ->
  valid_date (fromordinal n) = true /\ toordinal (fromordinal n) = n.
Proof.
  unfold _MAXORDINAL. intros Hn.
  pose proof (_ord2ymd_unfold n) as Hun. cbv zeta in Hun.
  unfold fromordinal.
  set (n0 := n - 1) in *.
  set (r1 := n0 mod _DI400Y) in *.
  set (r2 := r1 mod _DI100Y) in *.
  set (r3 := r2 mod _DI4Y) in *.
  set (n400 := n0 / _DI400Y) in *.
  set (n100 := r1 / _DI100Y) in *.
  set (n4 := r2 / _DI4Y) in *.
  set (n1 := r3 / 365) in *.
  set (k := r3 mod 365) in *.
  pose proof (Z.div_mod n0 _DI400Y ltac:(discriminate)) as D1.
  pose proof (Z.mod_pos_bound n0 _DI400Y ltac:(reflexivity)) as B1.
  pose proof (Z.div_mod r1 _DI100Y ltac:(discriminate)) as D2.
  pose proof (Z.mod_pos_bound r1 _DI100Y ltac:(reflexivity)) as B2.
  pose proof (Z.div_mod r2 _DI4Y ltac:(discriminate)) as D3.
  pose proof (Z.mod_pos_bound r2 _DI4Y ltac:(reflexivity)) as B3.
  pose proof (Z.div_mod r3 365 ltac:(discriminate)) as D4.
  pose proof (Z.mod_pos_bound r3 365 ltac:(reflexivity)) as B4.
  fold r1 in D1, B1. fold n400 in D1. fold r2 in D2, B2. fold n100 in D2.
  fold r3 in D3, B3. fold n4 in D3. fold k in D4, B4. fold n1 in D4.
  unfold _DI400Y, _DI100Y, _DI4Y in D1, B1, D2, B2, D3, B3.
  assert (Hn0 : n0 = n - 1) by reflexivity.
  clearbody n0 r1 r2 r3 n400 n100 n4 n1 k.
  rewrite Hun. clear Hun.
  set (y := n400 * 400 + 1 + (n100 * 100 + n4 * 4 + n1)).
  assert (Hb : 0 <= n400 <= 24 /\ 0 <= n100 <= 4 /\ 0 <= n4 <= 24
               /\ 0 <= n1 <= 4) by lia.
  destruct ((n1 =? 4) || (n100 =? 4)) eqn:E.
  - (* the last day of a 4-year or 400-year cycle *)
    assert (Hc : (n1 = 4 /\ k = 0 /\ n100 <= 3 /\ (n4 <= 23 \/ n100 = 3)
                  \/ n100 = 4 /\ n4 = 0 /\ n1 = 0 /\ k = 0)).
    { apply orb_prop in E. destruct E; bool_to_prop; lia. }
    assert (Hleap : _is_leap (y - 1) = true).
    { apply is_leap_intro; subst y; dlia. }
    split.
    + apply valid_date_spec; simpl. rewrite _days_in_month_of, Hleap.
      calc_tables. subst y. lia.
    + unfold toordinal, _ymd2ord; simpl.
      rewrite _days_before_month_of, Hleap. calc_tables.
      assert (_days_before_year (y - 1) + 335 + 31 = n0 + 1);
        [unfold _days_before_year; subst y; dlia | lia].
  - set (leapyear := (n1 =? 3) && (negb (n4 =? 24) || (n100 =? 3))).
    bool_to_prop.
    assert (Hleap : _is_leap y = leapyear).
    { unfold leapyear.
      destruct (n1 =? 3) eqn:E3; destruct (n4 =? 24) eqn:E24;
        destruct (n100 =? 3) eqn:E100; simpl; bool_to_prop.
      all: try (apply is_leap_intro; subst y; dlia).
      all: unfold _is_leap;
        repeat match goal with
               | |- context [?a =? 0] =>
                   let Eq := fresh "Eq" in destruct (a =? 0) eqn:Eq
               end; simpl; try reflexivity; bool_to_prop; exfalso;
        subst y; dlia. }
    assert (Hk : 0 <= k < year_length leapyear)
      by (unfold year_length; destruct leapyear; lia).
    destruct (month_day_of leapyear k) as [m d] eqn:Emd.
    destruct (month_day_of_spec _ _ _ _ Hk Emd) as (Hm & Hd & Hsum).
    cbn [fst snd]. split.
    + apply valid_date_spec; simpl. rewrite _days_in_month_of, Hleap.
      subst y. lia.
    + unfold toordinal, _ymd2ord; simpl.
      rewrite _days_before_month_of, Hleap.
      assert (_days_before_year y
              = n400 * 146097 + n100 * 36524 + n4 * 1461 + n1 * 365);
        [unfold _days_before_year; subst y; dlia | lia].
Qed.

(** Two valid dates with the same ordinal are the same date. *)
Lemma toordinal_inj a b :
  valid_date a = true -> valid_date b = true ->
  toordinal a = toordinal b -> a = b.
Proof.
  intros Ha Hb E.
  pose proof (date_lt_toordinal a b Ha Hb) as L1.
  pose proof (date_lt_toordinal b a Hb Ha) as L2.
  rewrite E, Z.ltb_irrefl in L1. rewrite E, Z.ltb_irrefl in L2.
  unfold date_lt in L1, L2. destruct a as [ya ma da], b as [yb mb db].
  simpl in *.
  repeat match goal with
         | H : _ || _ = false |- _ => apply orb_false_elim in H; destruct H
         | H : _ && _ = false |- _ => apply andb_false_iff in H
         end.
  f_equal; repeat match goal with H : _ \/ _ |- _ => destruct H end;
    repeat match goal with
           | H : _ || _ = false |- _ => apply orb_false_elim in H; destruct H
           | H : _ && _ = false |- _ => apply andb_false_iff in H; destruct H
           end; bool_to_prop; lia.
Qed.

Lemma fromordinal_toordinal d :
  valid_date d = true -> fromordinal (toordinal d) = d.
Proof.
  intros H. pose proof (toordinal_bounds d H) as B.
  destruct (fromordinal_spec _ B) as [V E].
  apply toordinal_inj; assumption.
Qed.

(* ================================================================== *)
(** ** Decimal characters and [int]                                    *)
(* ================================================================== *)

Lemma decimal_value_ascii c :
  48 <= c <= 57 -> decimal_value c = Some (c - 48).
Proof.
  intros H.
  assert (A : forallb (fun c => match decimal_value c with
                                | Some v => v =? c - 48
                                | None => false
                                end) (zrange 48 10) = true) by reflexivity.
  rewrite forallb_forall in A. specialize (A c (zrange_In 48 10 c ltac:(lia))).
  destruct (decimal_value c); [|discriminate].
  apply Z.eqb_eq in A. congruence.
Qed.

(** A decimal character has a value below ten; it is an ASCII digit or lies
    outside ASCII. *)
Lemma decimal_value_some c v :
  decimal_value c = Some v ->
  0 <= v <= 9 /\ (48 <= c <= 57 /\ v = c - 48 \/ 128 <= c).
Proof.
  unfold decimal_value.
  destruct (List.find _ decimal_runs) as [r|] eqn:F; [|discriminate].
  intros H; inversion H; subst v; clear H.
  apply find_some in F. destruct F as [Hin Ht].
  assert (A : forallb run_ok decimal_runs = true) by reflexivity.
  rewrite forallb_forall in A. specialize (A r Hin).
  unfold run_ok in A. bool_to_prop.
  split; [dlia|].
  match goal with H : implb _ _ = true |- _ => rename H into Himp end.
  match goal with H : _ || _ = true |- _ => apply orb_prop in H; destruct H as [E|E] end.
  - rewrite E in Himp. simpl in Himp. bool_to_prop.
    left. split; [lia|]. rewrite E. apply Z.mod_small. lia.
  - bool_to_prop. right. lia.
Qed.

Lemma isdecimal_cp_iff c :
  isdecimal_cp c = true <-> exists v, decimal_value c = Some v.
Proof.
  unfold isdecimal_cp. destruct (decimal_value c) as [v|].
  - split; eauto.
  - split; [discriminate|]. intros [v H]; discriminate.
Qed.

Lemma lstrip_not_space c s : c <> 32 -> lstrip (c :: s) = c :: s.
Proof. intros H. simpl. apply Z.eqb_neq in H. rewrite H. reflexivity. Qed.

(** A text that neither starts nor ends with a space is left as it is. *)
Lemma strip_no_space c s c' :
  c <> 32 -> c' <> 32 -> strip (c :: s ++ [c']) = c :: s ++ [c'].
Proof.
  intros H H'. unfold strip. rewrite lstrip_not_space by assumption.
  rewrite app_comm_cons, rev_unit.
  rewrite lstrip_not_space by assumption.
  rewrite <- rev_unit, rev_involutive. reflexivity.
Qed.

Lemma strip_one c : c <> 32 -> strip [c] = [c].
Proof.
  intros H. unfold strip. rewrite lstrip_not_space by assumption.
  change (rev [c]) with [c]. rewrite lstrip_not_space by assumption.
  reflexivity.
Qed.

Lemma strip_leading_space s : strip (32 :: s) = strip s.
Proof. reflexivity. Qed.

Lemma int_one c v : decimal_value c = Some v -> int [c] = Ok v.
Proof.
  intros H. destruct (decimal_value_some _ _ H) as [_ Hc].
  unfold int. rewrite strip_one by lia. cbn [int_digits app]. rewrite H. cbn [int_digits app]. f_equal; lia.
Qed.

Lemma int_two c1 c2 v1 v2 :
  decimal_value c1 = Some v1 -> decimal_value c2 = Some v2 ->
  int [c1; c2] = Ok (10 * v1 + v2).
Proof.
  intros H1 H2.
  destruct (decimal_value_some _ _ H1) as [_ Hc1].
  destruct (decimal_value_some _ _ H2) as [_ Hc2].
  unfold int.
  rewrite (strip_no_space c1 [] c2 ltac:(lia) ltac:(lia) : strip [c1; c2] = _).
  cbn [int_digits app]. rewrite H1. cbn [int_digits app]. rewrite H2.
  cbn [int_digits app]. f_equal; lia.
Qed.

Lemma int_four c1 c2 c3 c4 v1 v2 v3 v4 :
  decimal_value c1 = Some v1 -> decimal_value c2 = Some v2 ->
  decimal_value c3 = Some v3 -> decimal_value c4 = Some v4 ->
  int [c1; c2; c3; c4] = Ok (1000 * v1 + 100 * v2 + 10 * v3 + v4).
Proof.
  intros H1 H2 H3 H4.
  destruct (decimal_value_some _ _ H1) as [_ Hc1].
  destruct (decimal_value_some _ _ H4) as [_ Hc4].
  unfold int.
  rewrite (strip_no_space c1 [c2; c3] c4 ltac:(lia) ltac:(lia)
           : strip [c1; c2; c3; c4] = _).
  cbn [int_digits app]. rewrite H1. cbn [int_digits app]. rewrite H2.
  cbn [int_digits app]. rewrite H3. cbn [int_digits app]. rewrite H4.
  cbn [int_digits app]. f_equal; lia.
Qed.

Lemma int_day_text t d : day_text t d -> int t = Ok d.
Proof.
  intros H. destruct H.
  - transitivity (Ok (A:=Z) (10 * 3 + (c - 48))); [|f_equal; lia].
    apply int_two; [reflexivity|apply decimal_value_ascii; lia].
  - apply int_two; [apply decimal_value_ascii; lia|assumption].
  - transitivity (Ok (A:=Z) (10 * 0 + (c - 48))); [|f_equal; lia].
    apply int_two; [reflexivity|apply decimal_value_ascii; lia].
  - apply int_one, decimal_value_ascii; lia.
  - unfold int. rewrite strip_leading_space, strip_one by lia.
    cbn [int_digits app]. rewrite decimal_value_ascii by lia.
    cbn [int_digits app]. f_equal; lia.
Qed.

Lemma int_month_text t m : month_text t m -> int t = Ok m.
Proof.
  intros H. destruct H.
  - transitivity (Ok (A:=Z) (10 * 1 + (c - 48))); [|f_equal; lia].
    apply int_two; [reflexivity|apply decimal_value_ascii; lia].
  - transitivity (Ok (A:=Z) (10 * 0 + (c - 48))); [|f_equal; lia].
    apply int_two; [reflexivity|apply decimal_value_ascii; lia].
  - apply int_one, decimal_value_ascii; lia.
Qed.

Lemma int_year_text t y : year_text t y -> int t = Ok y.
Proof. intros H. destruct H. apply int_four; assumption. Qed.

Lemma day_text_range t d : day_text t d -> 1 <= d <= 31.
Proof.
  intros H. destruct H; try lia.
  destruct (decimal_value_some _ _ H0). lia.
Qed.

Lemma month_text_range t m : month_text t m -> 1 <= m <= 12.
Proof. intros H. destruct H; lia. Qed.

Lemma year_text_range t y : year_text t y -> 0 <= y <= 9999.
Proof.
  intros H. destruct H.
  repeat match goal with
         | H : decimal_value _ = Some _ |- _ =>
             apply decimal_value_some in H; destruct H as [? _]
         end. lia.
Qed.

(* ================================================================== *)
(** ** The pattern of ['%d.%m.%Y']                                     *)
(* ================================================================== *)

Section Matches.
Variables (g : groups) (t r s : pystr).

Lemma In_Chr c :
  In (g, t, r) (re_match (Chr c) s) -> s = c :: r /\ t = [c] /\ g = [].
Proof.
  simpl. destruct s as [|c' s']; [intros []|].
  destruct (c' =? c) eqn:E; [|intros []].
  apply Z.eqb_eq in E. subst c'. intros [H|[]]. inversion H. auto.
Qed.

Lemma In_Rng lo hi :
  In (g, t, r) (re_match (Rng lo hi) s) ->
  exists c, s = c :: r /\ t = [c] /\ g = [] /\ lo <= c <= hi.
Proof.
  simpl. destruct s as [|c' s']; [intros []|].
  destruct (_ && _) eqn:E; [|intros []].
  bool_to_prop. intros [Hx|[]]. inversion Hx. exists c'. auto.
Qed.

Lemma In_Dec :
  In (g, t, r) (re_match Dec s) ->
  exists c v, s = c :: r /\ t = [c] /\ g = [] /\ decimal_value c = Some v.
Proof.
  simpl. destruct s as [|c' s']; [intros []|].
  destruct (isdecimal_cp c') eqn:E; [|intros []].
  apply isdecimal_cp_iff in E. destruct E as [v E].
  intros [H|[]]. inversion H. exists c', v. auto.
Qed.

Lemma In_Seq r1 r2 :
  In (g, t, r) (re_match (Seq r1 r2) s) ->
  exists g1 t1 s1 g2 t2,
    In (g1, t1, s1) (re_match r1 s) /\ In (g2, t2, r) (re_match r2 s1)
    /\ g = g2 ++ g1 /\ t = t1 ++ t2.
Proof.
  simpl. rewrite in_flat_map. intros ([[g1 t1] s1] & H1 & H2).
  rewrite in_map_iff in H2. destruct H2 as ([[g2 t2] s2] & E & H2).
  inversion E; subst. exists g1, t1, s1, g2, t2. auto.
Qed.

Lemma In_Alt r1 r2 :
  In (g, t, r) (re_match (Alt r1 r2) s) ->
  In (g, t, r) (re_match r1 s) \/ In (g, t, r) (re_match r2 s).
Proof. simpl. apply in_app_or. Qed.

Lemma In_Grp name r1 :
  In (g, t, r) (re_match (Grp name r1) s) ->
  exists g', In (g', t, r) (re_match r1 s) /\ g = (name, t) :: g'.
Proof.
  simpl. rewrite in_map_iff. intros ([[g' t'] s'] & E & H).
  inversion E; subst. exists g'. auto.
Qed.
End Matches.

(** Takes a hypothesis on the matches of a pattern apart, down to the
    characters. *)
Ltac invert_match :=
  repeat match goal with
         | H : In _ (re_match (Grp _ _) _) |- _ =>
             let H1 := fresh "M" in
             apply In_Grp in H; destruct H as (? & H1 & ?)
         | H : In _ (re_match (Alt _ _) _) |- _ =>
             let H1 := fresh "M" in
             apply In_Alt in H; destruct H as [H1|H1]
         | H : In _ (re_match (Seq _ _) _) |- _ =>
             let H1 := fresh "M" in
             let H2 := fresh "M" in
             apply In_Seq in H;
             destruct H as (? & ? & ? & ? & ? & H1 & H2 & ? & ?)
         | H : In _ (re_match (Chr _) _) |- _ =>
             apply In_Chr in H; destruct H as (? & ? & ?)
         | H : In _ (re_match (Rng _ _) _) |- _ =>
             apply In_Rng in H; destruct H as (? & ? & ? & ? & ?)
         | H : In _ (re_match Dec _) |- _ =>
             apply In_Dec in H; destruct H as (? & ? & ? & ? & ? & ?)
         end.

Lemma re_d_sound g t r s :
  In (g, t, r) (re_match re_d s) ->
  exists d, day_text t d /\ s = t ++ r /\ g = [("d"%string, t)].
Proof.
  intros H. let p := eval cbv in re_d in change re_d with p in H.
  invert_match; subst; simpl.
  - eexists; split; [apply day_3x; eassumption|auto].
  - eexists; split; [eapply day_12x; eassumption|auto].
  - eexists; split; [apply day_0x; eassumption|auto].
  - eexists; split; [apply day_x; eassumption|auto].
  - eexists; split; [apply day_space; eassumption|auto].
Qed.

Lemma re_m_sound g t r s :
  In (g, t, r) (re_match re_m s) ->
  exists m, month_text t m /\ s = t ++ r /\ g = [("m"%string, t)].
Proof.
  intros H. let p := eval cbv in re_m in change re_m with p in H.
  invert_match; subst; simpl.
  - eexists; split; [apply month_1x; eassumption|auto].
  - eexists; split; [apply month_0x; eassumption|auto].
  - eexists; split; [apply month_x; eassumption|auto].
Qed.

Lemma re_Y_sound g t r s :
  In (g, t, r) (re_match re_Y s) ->
  exists y, year_text t y /\ s = t ++ r /\ g = [("Y"%string, t)].
Proof.
  intros H. let p := eval cbv in re_Y in change re_Y with p in H.
  invert_match; subst; simpl.
  eexists; split; [eapply year_4; eassumption|auto].
Qed.

(** Every match of the pattern is a day text, a dot, a month text, a dot and
    a year text, held by the groups d, m and Y. *)
Lemma format_regex_sound g t r s :
  In (g, t, r) (re_match format_regex s) ->
  exists D Mo Y d m y,
    day_text D d /\ month_text Mo m /\ year_text Y y
    /\ t = D ++ 46 :: Mo ++ 46 :: Y /\ s = t ++ r
    /\ g = [("Y"%string, Y); ("m"%string, Mo); ("d"%string, D)].
Proof.
  intros H. unfold format_regex in H.
  change (lit ".") with (Chr 46) in H.
  apply In_Seq in H. destruct H as (g1 & t1 & s1 & g2 & t2 & Hd & H & -> & ->).
  apply In_Seq in H. destruct H as (g3 & t3 & s3 & g4 & t4 & Hp & H & -> & ->).
  apply In_Seq in H. destruct H as (g5 & t5 & s5 & g6 & t6 & Hm & H & -> & ->).
  apply In_Seq in H. destruct H as (g7 & t7 & s7 & g8 & t8 & Hq & Hy & -> & ->).
  apply re_d_sound in Hd. destruct Hd as (d & Hd & -> & ->).
  apply In_Chr in Hp. destruct Hp as (-> & -> & ->).
  apply re_m_sound in Hm. destruct Hm as (m & Hm & -> & ->).
  apply In_Chr in Hq. destruct Hq as (-> & -> & ->).
  apply re_Y_sound in Hy. destruct Hy as (y & Hy & -> & ->).
  exists t1, t5, t8, d, m, y. repeat split; try assumption.
  all: repeat (rewrite <- app_assoc; simpl); reflexivity.
Qed.

Lemma first_match_Seq r1 r2 s g1 t1 s1 g2 t2 s2 :
  first_match r1 s = Some (g1, t1, s1) ->
  first_match r2 s1 = Some (g2, t2, s2) ->
  first_match (Seq r1 r2) s = Some (g2 ++ g1, t1 ++ t2, s2).
Proof.
  unfold first_match. simpl.
  destruct (re_match r1 s) as [|x l]; [discriminate|].
  simpl. intros H; inversion H; subst x.
  destruct (re_match r2 s1) as [|x2 l2]; [discriminate|].
  simpl. intros H2; inversion H2; subst x2. reflexivity.
Qed.

Lemma first_match_Chr c s : first_match (Chr c) (c :: s) = Some ([], [c], s).
Proof. unfold first_match. simpl. rewrite Z.eqb_refl. reflexivity. Qed.

Lemma digit_cases lo hi c (P : Z -> Prop) :
  lo <= c <= hi -> Forall P (zrange lo (Z.to_nat (hi - lo + 1))) -> P c.
Proof.
  intros H F. rewrite Forall_forall in F. apply F, zrange_In. lia.
Qed.

(** Splits a goal on a character [c] of a known range [lo <= c <= hi] into
    one goal for each character of the range. *)
Ltac each_char H :=
  match type of H with
  | ?lo <= ?c <= ?hi =>
      pattern c; apply (digit_cases lo hi c _ H);
      let l := eval vm_compute in (zrange lo (Z.to_nat (hi - lo + 1))) in
      change (zrange lo (Z.to_nat (hi - lo + 1))) with l;
      clear H;
      repeat (apply Forall_cons; [cbv beta|]); [..|apply Forall_nil]
  end.

(** Followed by a dot, a day text is the first match of the day group. *)
Lemma re_d_first D d rest :
  day_text D d ->
  first_match re_d (D ++ 46 :: rest) = Some ([("d"%string, D)], D, 46 :: rest).
Proof.
  intros H. destruct H.
  - each_char H; reflexivity.
  - assert (E : isdecimal_cp c2 = true) by (apply isdecimal_cp_iff; eauto).
    each_char H; unfold first_match; cbn; rewrite E; reflexivity.
  - each_char H; reflexivity.
  - each_char H; reflexivity.
  - each_char H; reflexivity.
Qed.

Lemma re_m_first Mo m rest :
  month_text Mo m ->
  first_match re_m (Mo ++ 46 :: rest) = Some ([("m"%string, Mo)], Mo, 46 :: rest).
Proof.
  intros H. destruct H; each_char H; reflexivity.
Qed.

Lemma re_Y_first Y y rest :
  year_text Y y ->
  first_match re_Y (Y ++ rest) = Some ([("Y"%string, Y)], Y, rest).
Proof.
  intros H. destruct H.
  assert (E1 : isdecimal_cp c1 = true) by (apply isdecimal_cp_iff; eauto).
  assert (E2 : isdecimal_cp c2 = true) by (apply isdecimal_cp_iff; eauto).
  assert (E3 : isdecimal_cp c3 = true) by (apply isdecimal_cp_iff; eauto).
  assert (E4 : isdecimal_cp c4 = true) by (apply isdecimal_cp_iff; eauto).
  unfold first_match. cbn. rewrite E1. cbn. rewrite E2. cbn. rewrite E3.
  cbn. rewrite E4. reflexivity.
Qed.

(** A date text is matched whole by the first match of the pattern. *)
Lemma format_regex_first D Mo Y d m y :
  day_text D d -> month_text Mo m -> year_text Y y ->
  first_match format_regex (D ++ 46 :: Mo ++ 46 :: Y)
  = Some ([("Y"%string, Y); ("m"%string, Mo); ("d"%string, D)],
          D ++ 46 :: Mo ++ 46 :: Y, []).
Proof.
  intros Hd Hm Hy. unfold format_regex. change (lit ".") with (Chr 46).
  pose proof (re_Y_first Y y [] Hy) as FY. rewrite app_nil_r in FY.
  pose proof (first_match_Seq _ _ _ _ _ _ _ _ _ (first_match_Chr 46 Y) FY) as F1.
  pose proof (first_match_Seq _ _ _ _ _ _ _ _ _
                (re_m_first Mo m Y Hm) F1) as F2.
  pose proof (first_match_Seq _ _ _ _ _ _ _ _ _
                (first_match_Chr 46 (Mo ++ 46 :: Y)) F2) as F3.
  pose proof (first_match_Seq _ _ _ _ _ _ _ _ _
                (re_d_first D d (Mo ++ 46 :: Y) Hd) F3) as F4.
  rewrite F4. reflexivity.
Qed.

Lemma strptime_first_match data :
  strptime data =
  match first_match format_regex data with
  | None => Raise (ValueError "time data does not match format")
  | Some (g, _, rest) =>
      match rest with
      | _ :: _ => Raise (ValueError "unconverted data remains")
      | [] =>
          (y <- int (group "Y" g) ;;
           m <- int (group "m" g) ;;
           d <- int (group "d" g) ;;
           date_new y m d)%result
      end
  end.
Proof.
  unfold strptime, first_match.
  destruct (re_match format_regex data) as [|[[g t] rest] l]; reflexivity.
Qed.

(** [strptime] accepts exactly the date texts of real dates, and returns the
    date they denote. *)
Lemma strptime_spec s dt :
  strptime s = Ok dt <-> date_text s dt /\ valid_date dt = true.
Proof.
  split.
  - rewrite strptime_first_match. unfold first_match.
    destruct (re_match format_regex s) as [|[[g t] rest] l] eqn:E;
      [discriminate|].
    simpl. destruct rest as [|c rest]; [|discriminate].
    assert (Hin : In (g, t, []) (re_match format_regex s))
      by (rewrite E; left; reflexivity).
    apply format_regex_sound in Hin.
    destruct Hin as (D & Mo & Y & d & m & y & Hd & Hm & Hy & -> & -> & ->).
    cbn [group String.eqb Ascii.eqb Bool.eqb].
    rewrite (int_year_text _ _ Hy), (int_month_text _ _ Hm),
      (int_day_text _ _ Hd). cbn [rbind].
    intros H. apply date_new_ok in H. destruct H as [-> V].
    split; [|assumption]. rewrite app_nil_r. constructor; assumption.
  - intros [H V]. destruct H as [D Mo Y d m y Hd Hm Hy].
    rewrite strptime_first_match, (format_regex_first _ _ _ _ _ _ Hd Hm Hy).
    cbn [group String.eqb Ascii.eqb Bool.eqb].
    rewrite (int_year_text _ _ Hy), (int_month_text _ _ Hm),
      (int_day_text _ _ Hd). cbn [rbind].
    apply date_new_ok. auto.
Qed.

(** [strptime] raises nothing but ValueError. *)
Lemma strptime_raises s e :
  strptime s = Raise e -> exists msg, e = ValueError msg.
Proof.
  unfold strptime.
  destruct (re_match format_regex s) as [|[[g t] rest] l]; [intros H; inversion H; eauto|].
  destruct rest; [|intros H; inversion H; eauto].
  unfold int.
  repeat match goal with
         | |- context [match ?x with _ => _ end] =>
             match x with
             | strip _ => destruct x
             | int_digits _ _ => destruct x
             end
         end; simpl; try (intros H; inversion H; eauto; fail);
    apply date_new_raises.
Qed.

(* ================================================================== *)
(** ** [strftime] and the way back                                     *)
(* ================================================================== *)

Lemma day_text_eq t d t' d' : day_text t d -> t = t' -> d = d' -> day_text t' d'.
Proof. intros H -> ->. exact H. Qed.

Lemma month_text_eq t m t' m' :
  month_text t m -> t = t' -> m = m' -> month_text t' m'.
Proof. intros H -> ->. exact H. Qed.

Lemma year_text_eq t y t' y' :
  year_text t y -> t = t' -> y = y' -> year_text t' y'.
Proof. intros H -> ->. exact H. Qed.

Lemma zero_padded_2 n : zero_padded 2 n = [48 + (n / 10) mod 10; 48 + n mod 10].
Proof. reflexivity. Qed.

Lemma zero_padded_4 n :
  zero_padded 4 n
  = [48 + (n / 10 / 10 / 10) mod 10; 48 + (n / 10 / 10) mod 10;
     48 + (n / 10) mod 10; 48 + n mod 10].
Proof. reflexivity. Qed.

Lemma zero_padded_day d : 1 <= d <= 31 -> day_text (zero_padded 2 d) d.
Proof.
  intros H. rewrite zero_padded_2.
  destruct (Z_le_gt_dec d 9); [|destruct (Z_le_gt_dec d 29)].
  - eapply day_text_eq; [apply (day_0x (48 + d)); lia| |lia].
    f_equal; try dlia; f_equal; dlia.
  - eapply day_text_eq;
      [apply (day_12x (48 + d / 10) (48 + d mod 10) (d mod 10));
       [dlia|rewrite decimal_value_ascii by dlia; f_equal; lia]| |dlia].
    f_equal; try dlia; f_equal; dlia.
  - eapply day_text_eq; [apply (day_3x (48 + d mod 10)); dlia| |dlia].
    f_equal; try dlia; f_equal; dlia.
Qed.

Lemma zero_padded_month m : 1 <= m <= 12 -> month_text (zero_padded 2 m) m.
Proof.
  intros H. rewrite zero_padded_2. destruct (Z_le_gt_dec m 9).
  - eapply month_text_eq; [apply (month_0x (48 + m)); lia| |lia].
    f_equal; try dlia; f_equal; dlia.
  - eapply month_text_eq; [apply (month_1x (48 + m mod 10)); dlia| |dlia].
    f_equal; try dlia; f_equal; dlia.
Qed.

Lemma zero_padded_year y : 0 <= y <= 9999 -> year_text (zero_padded 4 y) y.
Proof.
  intros H. rewrite zero_padded_4.
  eapply year_text_eq;
    [apply (year_4 (48 + (y / 10 / 10 / 10) mod 10) (48 + (y / 10 / 10) mod 10)
                   (48 + (y / 10) mod 10) (48 + y mod 10)
                   ((y / 10 / 10 / 10) mod 10) ((y / 10 / 10) mod 10)
                   ((y / 10) mod 10) (y mod 10));
     rewrite decimal_value_ascii by dlia; f_equal; lia
    |reflexivity|dlia].
Qed.

Lemma strftime_date_text d : valid_date d = true -> date_text (strftime d) d.
Proof.
  intros V. apply valid_date_spec in V. destruct V as (Hy & Hm & Hd).
  rewrite _days_in_month_of in Hd.
  pose proof (dim_of_bounds (_is_leap (year d)) _ Hm).
  unfold strftime. destruct d as [y m dd]. simpl in *.
  apply (date_dmY (zero_padded 2 dd) (zero_padded 2 m) (zero_padded 4 y)).
  - apply zero_padded_day. lia.
  - apply zero_padded_month. lia.
  - apply zero_padded_year. lia.
Qed.

(** Parsing the text [strftime] writes for a date gives the date back. *)
Lemma strptime_strftime d :
  valid_date d = true -> strptime (strftime d) = Ok d.
Proof.
  intros V. apply strptime_spec. split; [apply strftime_date_text|]; exact V.
Qed.

Lemma strftime_length d : len (strftime d) = 10.
Proof. reflexivity. Qed.

(* ================================================================== *)
(** ** Weekdays                                                        *)
(* ================================================================== *)

Lemma weekday_range d : 0 <= weekday d <= 6.
Proof. unfold weekday. dlia. Qed.

(** Adding days to a date: when the sum stays in range, the result is the
    valid date that many days later. *)
Lemma add_days_ok d k d' :
  add_days d k = Ok d' ->
  valid_date d' = true /\ toordinal d' = toordinal d + k.
Proof.
  unfold add_days. destruct (_ && _) eqn:E; [|discriminate].
  intros H; inversion H; subst d'. bool_to_prop.
  apply fromordinal_spec. lia.
Qed.

(** A Saturday or Sunday of the calendar is never in its last two days, so
    the shift to Monday cannot overflow. *)
Lemma weekend_shift_ok d :
  valid_date d = true -> 5 <= weekday d ->
  exists d', add_days d (7 - weekday d) = Ok d'.
Proof.
  intros V W. pose proof (toordinal_bounds d V) as B.
  unfold add_days. unfold weekday in *. unfold _MAXORDINAL in *.
  destruct (_ && _) eqn:E; [eauto|].
  exfalso. apply andb_false_iff in E. destruct E; bool_to_prop; dlia.
Qed.

(* ================================================================== *)
(** ** The loop of [get_upcoming_birthdays]                            *)
(* ================================================================== *)

Lemma date_new_valid y m d :
  valid_date (mkdate y m d) = true -> date_new y m d = Ok (mkdate y m d).
Proof. intros V. apply date_new_ok. auto. Qed.

Lemma date_new_invalid y m d :
  valid_date (mkdate y m d) = false ->
  exists msg, date_new y m d = Raise (ValueError msg).
Proof.
  intros V. destruct (date_new y m d) as [x|e] eqn:E.
  - apply date_new_ok in E. destruct E as [_ E]. congruence.
  - destruct (date_new_raises _ _ _ _ E) as [msg ->]. eauto.
Qed.

Lemma replace_year_occurrence b y :
  match occurrence_in y b with
  | Some occ => replace_year b y = Ok occ /\ valid_date occ = true
                /\ month occ = month b /\ day occ = day b
  | None => exists msg, replace_year b y = Raise (ValueError msg)
  end.
Proof.
  unfold occurrence_in, replace_year.
  destruct (valid_date (mkdate y (month b) (day b))) eqn:V.
  - rewrite (date_new_valid _ _ _ V). auto.
  - apply date_new_invalid, V.
Qed.

Lemma strftime_dd_mm_yyyy d : strftime d = dd_mm_yyyy d.
Proof. reflexivity. Qed.

(** One turn of the loop, for a record the scheduler can treat. *)
Lemma upcoming_body_schedulable today r acc :
  valid_date today = true -> schedulable today r = true ->
  upcoming_body today r acc = Ok (acc ++ entries_of today r).
Proof.
  intros Vt. unfold schedulable, upcoming_body, entries_of, birthday_date.
  destruct (birthday r) as [b|]; [|intros _; rewrite app_nil_r; reflexivity].
  destruct (strptime (value b)) as [d|e] eqn:Ep; [|discriminate].
  unfold rolled_occurrence. cbn [rbind].
  pose proof (replace_year_occurrence d (year today)) as R1.
  destruct (occurrence_in (year today) d) as [occ0|]; [|discriminate].
  destruct R1 as (-> & V0 & M0 & D0). cbn [rbind].
  rewrite (date_lt_toordinal _ _ V0 Vt).
  assert (Hroll :
    forall occ, (if toordinal occ0 <? toordinal today
                 then occurrence_in (year today + 1) d else Some occ0) = Some occ ->
      (if toordinal occ0 <? toordinal today
       then replace_year occ0 (year today + 1) else Ok occ0) = Ok occ
      /\ valid_date occ = true).
  { intros occ. destruct (toordinal occ0 <? toordinal today).
    - pose proof (replace_year_occurrence d (year today + 1)) as R2.
      intros E. rewrite E in R2. destruct R2 as (R2 & V & _).
      unfold replace_year in *. rewrite M0, D0. auto.
    - intros E; inversion E; subst. auto. }
  destruct (if toordinal occ0 <? toordinal today
            then occurrence_in (year today + 1) d else Some occ0)
    as [occ|]; [|discriminate].
  destruct (Hroll occ eq_refl) as [-> V]. intros _. cbn [rbind].
  unfold days_between, delta.
  destruct ((0 <=? toordinal occ - toordinal today)
            && (toordinal occ - toordinal today <? 7));
    [|rewrite app_nil_r; reflexivity].
  unfold congratulation_day.
  destruct (5 <=? weekday occ) eqn:W; [|reflexivity].
  apply Z.leb_le in W. destruct (weekend_shift_ok occ V W) as [cd E].
  rewrite E. cbn [rbind]. unfold add_days in E.
  destruct (_ && _); inversion E. reflexivity.
Qed.

(** One turn of the loop, for a record the scheduler cannot treat: the
    birthday has no occurrence in the year asked for, and the constructor of
    [date] raises ValueError. *)
Lemma upcoming_body_unschedulable today r acc :
  valid_date today = true -> schedulable today r = false ->
  exists msg, upcoming_body today r acc = Raise (ValueError msg).
Proof.
  intros Vt. unfold schedulable, upcoming_body, birthday_date.
  destruct (birthday r) as [b|]; [|discriminate].
  destruct (strptime (value b)) as [d|e] eqn:Ep.
  2:{ intros _. destruct (strptime_raises _ _ Ep) as [msg ->]. simpl. eauto. }
  unfold rolled_occurrence. cbn [rbind].
  pose proof (replace_year_occurrence d (year today)) as R1.
  destruct (occurrence_in (year today) d) as [occ0|].
  2:{ intros _. destruct R1 as [msg ->]. simpl. eauto. }
  destruct R1 as (-> & V0 & M0 & D0). cbn [rbind].
  rewrite (date_lt_toordinal _ _ V0 Vt).
  destruct (toordinal occ0 <? toordinal today); [|discriminate].
  pose proof (replace_year_occurrence d (year today + 1)) as R2.
  destruct (occurrence_in (year today + 1) d); [discriminate|].
  intros _. destruct R2 as [msg R2]. unfold replace_year in *.
  rewrite M0, D0, R2. simpl. eauto.
Qed.

(** The loop over pure bodies never touches the object. *)
Lemma for_each_lift_state {S A B} (xs : list A) (f : A -> B -> result B) :
  forall (acc : B) (s : S),
    snd (for_each xs acc (fun x a => lift (f x a)) s) = s.
Proof.
  induction xs as [|x xs IH]; intros acc s; [reflexivity|].
  simpl. unfold bind, lift. destruct (f x acc); [apply IH|reflexivity].
Qed.

Lemma upcoming_loop_ok today (s : AddressBook) records :
  valid_date today = true ->
  forallb (schedulable today) records = true ->
  forall acc,
    fst (for_each records acc
           (fun record upcoming => lift (upcoming_body today record upcoming)) s)
    = Ok (acc ++ flat_map (entries_of today) records).
Proof.
  intros Vt. induction records as [|r rs IH]; intros Hs acc.
  - simpl. rewrite app_nil_r. reflexivity.
  - simpl in Hs. apply andb_prop in Hs. destruct Hs as [Hr Hrs].
    simpl. unfold bind, lift at 1.
    rewrite (upcoming_body_schedulable _ _ _ Vt Hr).
    rewrite (IH Hrs). rewrite app_assoc. reflexivity.
Qed.

Lemma upcoming_loop_raises today (s : AddressBook) records :
  valid_date today = true ->
  forallb (schedulable today) records = false ->
  forall acc, exists msg,
    fst (for_each records acc
           (fun record upcoming => lift (upcoming_body today record upcoming)) s)
    = Raise (ValueError msg).
Proof.
  intros Vt. induction records as [|r rs IH]; intros Hs acc; [discriminate|].
  simpl in Hs. simpl. unfold bind, lift at 1.
  destruct (schedulable today r) eqn:Hr.
  - rewrite (upcoming_body_schedulable _ _ _ Vt Hr). apply IH, Hs.
  - destruct (upcoming_body_unschedulable _ _ acc Vt Hr) as [msg ->].
    simpl. eauto.
Qed.

Lemma entries_of_included today r :
  map entry_name (entries_of today r)
  = if included today r then [value (name r)] else [].
Proof.
  unfold entries_of, included.
  destruct (birthday_date r) as [b|]; [|reflexivity].
  destruct (rolled_occurrence today b) as [occ|]; [|reflexivity].
  destruct (_ && _); reflexivity.
Qed.

Lemma names_of_entries today records :
  map entry_name (flat_map (entries_of today) records)
  = map (fun r => value (name r)) (filter (included today) records).
Proof.
  induction records as [|r rs IH]; [reflexivity|].
  simpl. rewrite map_app, entries_of_included, IH.
  destruct (included today r); reflexivity.
Qed.

Lemma get_upcoming_birthdays_unfold today book :
  get_upcoming_birthdays today book
  = for_each (dict_values book) []
      (fun record upcoming => lift (upcoming_body today record upcoming)) book.
Proof. reflexivity. Qed.

(** The result of the query: the entries of the records, in the order of the
    book, when every record can be treated, and ValueError otherwise. *)
Lemma get_upcoming_birthdays_result today book :
  valid_date today = true ->
  if forallb (schedulable today) (dict_values book)
  then eval (get_upcoming_birthdays today) book
       = Ok (flat_map (entries_of today) (dict_values book))
  else exists msg,
      eval (get_upcoming_birthdays today) book = Raise (ValueError msg).
Proof.
  intros Vt. unfold eval. rewrite get_upcoming_birthdays_unfold.
  destruct (forallb (schedulable today) (dict_values book)) eqn:E.
  - rewrite (upcoming_loop_ok _ _ _ Vt E). reflexivity.
  - apply (upcoming_loop_raises _ _ _ Vt E).
Qed.

Lemma get_upcoming_birthdays_ok today book out :
  valid_date today = true ->
  eval (get_upcoming_birthdays today) book = Ok out ->
  out = flat_map (entries_of today) (dict_values book).
Proof.
  intros Vt E. pose proof (get_upcoming_birthdays_result today book Vt) as R.
  destruct (forallb _ _).
  - congruence.
  - destruct R as [msg R]. congruence.
Qed.

Lemma occurrence_in_valid y b occ :
  occurrence_in y b = Some occ -> valid_date occ = true.
Proof.
  unfold occurrence_in. destruct (valid_date _) eqn:V; [|discriminate].
  intros H; inversion H; subst. exact V.
Qed.

Lemma rolled_occurrence_valid today b occ :
  rolled_occurrence today b = Some occ -> valid_date occ = true.
Proof.
  unfold rolled_occurrence.
  destruct (occurrence_in (year today) b) as [occ0|] eqn:E0; [|discriminate].
  destruct (_ <? _).
  - apply occurrence_in_valid.
  - intros H; inversion H; subst. apply (occurrence_in_valid _ _ _ E0).
Qed.

Lemma included_iff today r :
  included today r = true <->
  exists b occ, birthday_date r = Some b /\ rolled_occurrence today b = Some occ
                /\ 0 <= delta today occ < 7.
Proof.
  unfold included. split.
  - destruct (birthday_date r) as [b|]; [|discriminate].
    destruct (rolled_occurrence today b) as [occ|] eqn:E; [|discriminate].
    intros H. bool_to_prop. exists b, occ. repeat split; auto.
  - intros (b & occ & -> & -> & H).
    apply andb_true_intro. split; [apply Z.leb_le|apply Z.ltb_lt]; lia.
Qed.

(** The congratulation day of a valid date: a valid date, on Monday to
    Friday, and the Monday after a Saturday or Sunday. *)
Lemma congratulation_day_spec occ :
  valid_date occ = true ->
  let cd := congratulation_day occ in
  valid_date cd = true
  /\ 0 <= weekday cd <= 4
  /\ (5 <= weekday occ ->
      toordinal cd = toordinal occ + (7 - weekday occ) /\ weekday cd = 0)
  /\ (weekday occ < 5 -> cd = occ).
Proof.
  intros V. unfold congratulation_day. cbv zeta.
  pose proof (weekday_range occ) as R.
  destruct (5 <=? weekday occ) eqn:W; bool_to_prop.
  - destruct (weekend_shift_ok occ V W) as [cd E].
    pose proof (add_days_ok _ _ _ E) as [Vc Oc].
    assert (Ecd : fromordinal (toordinal occ + (7 - weekday occ)) = cd).
    { unfold add_days in E.
      destruct (_ && _); [injection E as E; exact E|discriminate]. }
    rewrite Ecd.
    assert (W0 : weekday cd = 0).
    { unfold weekday at 1. rewrite Oc. unfold weekday. dlia. }
    repeat split; try assumption; try lia.
  - repeat split; try assumption; try lia.
Qed.

Lemma entries_of_spec today r :
  if included today r
  then exists b occ,
      birthday_date r = Some b /\ rolled_occurrence today b = Some occ
      /\ 0 <= delta today occ < 7 /\ valid_date occ = true
      /\ entries_of today r
         = [mkEntry (value (name r)) (dd_mm_yyyy (congratulation_day occ))]
  else entries_of today r = [].
Proof.
  unfold included, entries_of.
  destruct (birthday_date r) as [b|]; [|reflexivity].
  destruct (rolled_occurrence today b) as [occ|] eqn:E; [|reflexivity].
  destruct (_ && _) eqn:W; [|reflexivity].
  bool_to_prop. exists b, occ.
  repeat split; try assumption; try reflexivity.
  apply (rolled_occurrence_valid _ _ _ E).
Qed.

Lemma Forall2_entries today (P : RecordT -> Entry -> Prop) records :
  (forall r e, included today r = true -> entries_of today r = [e] -> P r e) ->
  Forall2 P (filter (included today) records)
          (flat_map (entries_of today) records).
Proof.
  intros HP. induction records as [|r rs IH]; [constructor|].
  simpl. pose proof (entries_of_spec today r) as S.
  destruct (included today r) eqn:I.
  - destruct S as (b & occ & _ & _ & _ & _ & E). rewrite E. simpl.
    constructor; [apply HP; assumption|exact IH].
  - rewrite S. exact IH.
Qed.

(* ================================================================== *)
(** ** The dictionary of the address book                              *)
(* ================================================================== *)

Lemma str_eqb_eq a b : str_eqb a b = true <-> a = b.
Proof.
  revert b. induction a as [|x a IH]; intros [|y b]; simpl;
    try (split; [discriminate|intros H; inversion H]; fail);
    [split; reflexivity|].
  rewrite andb_true_iff, Z.eqb_eq, IH.
  split; [intros [-> ->]; reflexivity|intros H; inversion H; auto].
Qed.

Lemma str_eqb_refl a : str_eqb a a = true.
Proof. apply str_eqb_eq. reflexivity. Qed.

Lemma dict_get_set k v data : dict_get k (dict_set k v data) = Some v.
Proof.
  induction data as [|[k' v'] data IH]; simpl.
  - rewrite str_eqb_refl. reflexivity.
  - destruct (str_eqb k' k) eqn:E; simpl; rewrite E; [reflexivity|exact IH].
Qed.

Lemma dict_set_set k v v' data :
  dict_set k v (dict_set k v' data) = dict_set k v data.
Proof.
  induction data as [|[k0 v0] data IH]; simpl.
  - rewrite str_eqb_refl. reflexivity.
  - destruct (str_eqb k0 k) eqn:E; simpl; rewrite E; [reflexivity|].
    rewrite IH. reflexivity.
Qed.

Lemma dict_get_absent k data : ~ In k (dict_keys data) -> dict_get k data = None.
Proof.
  induction data as [|[k' v'] data IH]; simpl; [reflexivity|].
  intros H. destruct (str_eqb k' k) eqn:E.
  - apply str_eqb_eq in E. exfalso. apply H. left. exact E.
  - apply IH. intros Hin. apply H. right. exact Hin.
Qed.

Lemma dict_get_other k k' v data :
  k' <> k -> dict_get k' (dict_set k v data) = dict_get k' data.
Proof.
  intros N. induction data as [|[k0 v0] data IH]; simpl.
  - destruct (str_eqb k k') eqn:E; [|reflexivity].
    apply str_eqb_eq in E. congruence.
  - destruct (str_eqb k0 k) eqn:E; simpl.
    + apply str_eqb_eq in E. subst k0.
      destruct (str_eqb k k') eqn:E'; [|reflexivity].
      apply str_eqb_eq in E'. congruence.
    + destruct (str_eqb k0 k'); [reflexivity|exact IH].
Qed.

(** Setting a key keeps the keys distinct. *)
Lemma dict_set_keys k v data :
  dict_keys (dict_set k v data)
  = if existsb (fun k' => str_eqb k' k) (dict_keys data)
    then dict_keys data else dict_keys data ++ [k].
Proof.
  induction data as [|[k0 v0] data IH]; simpl; [reflexivity|].
  destruct (str_eqb k0 k) eqn:E; simpl; [reflexivity|].
  unfold dict_keys in *. rewrite IH.
  destruct (existsb _ _); reflexivity.
Qed.

Lemma forallb_isdigit s :
  forallb isdigit_cp s = true <-> Forall (fun c => isdigit_cp c = true) s.
Proof.
  rewrite forallb_forall, Forall_forall. reflexivity.
Qed.

Lemma ascii_digit_isdigit c : is_ascii_digit c = true -> isdigit_cp c = true.
Proof.
  unfold is_ascii_digit, isdigit_cp, isdecimal_cp. intros H. bool_to_prop.
  rewrite decimal_value_ascii by lia. reflexivity.
Qed.

Lemma Phone_init_cases s :
  if isdigit s && (len s =? 10)
  then Phone_init s = Ok (mkField s)
  else Phone_init s = Raise (ValueError "Phone number must be 10 digits.").
Proof. unfold Phone_init. destruct (_ && _); reflexivity. Qed.

Lemma isdigit_len_10 s :
  isdigit s && (len s =? 10) = true
  <-> len s = 10 /\ Forall (fun c => isdigit_cp c = true) s.
Proof.
  rewrite andb_true_iff, Z.eqb_eq. unfold isdigit.
  destruct s as [|c s]; [split; intros [H1 H2]; discriminate|].
  rewrite forallb_isdigit. tauto.
Qed.

(* ================================================================== *)
(** ** Texts of the exact shape DD.MM.YYYY                             *)
(* ================================================================== *)

Lemma decimal_value_digit k v :
  0 <= k <= 9 -> decimal_value (48 + k) = Some v -> v = k.
Proof.
  intros H E. rewrite decimal_value_ascii in E by lia.
  assert (E' : Some (48 + k - 48) = Some k) by (f_equal; lia).
  congruence.
Qed.

Lemma dd_mm_yyyy_chars d m y :
  dd_mm_yyyy (mkdate y m d)
  = [48 + (d / 10) mod 10; 48 + d mod 10; 46;
     48 + (m / 10) mod 10; 48 + m mod 10; 46;
     48 + (y / 10 / 10 / 10) mod 10; 48 + (y / 10 / 10) mod 10;
     48 + (y / 10) mod 10; 48 + y mod 10].
Proof. reflexivity. Qed.

(** A text of two digits, a dot, two digits, a dot and four digits is a date
    text in one way only. *)
Lemma date_text_digits a1 a2 b1 b2 y1 y2 y3 y4 dt :
  48 <= a1 <= 57 -> 48 <= a2 <= 57 -> 48 <= b1 <= 57 -> 48 <= b2 <= 57 ->
  48 <= y1 <= 57 -> 48 <= y2 <= 57 -> 48 <= y3 <= 57 -> 48 <= y4 <= 57 ->
  date_text [a1; a2; 46; b1; b2; 46; y1; y2; y3; y4] dt ->
  dt = mkdate (1000 * (y1 - 48) + 100 * (y2 - 48) + 10 * (y3 - 48) + (y4 - 48))
              (10 * (b1 - 48) + (b2 - 48)) (10 * (a1 - 48) + (a2 - 48)).
Proof.
  intros A1 A2 B1 B2 Y1 Y2 Y3 Y4 H.
  remember [a1; a2; 46; b1; b2; 46; y1; y2; y3; y4] as s eqn:Es.
  destruct H as [D Mo Y d' m' y' Hd Hm Hy].
  assert (Ed : d' = 10 * (a1 - 48) + (a2 - 48)
               /\ Mo ++ 46 :: Y = [b1; b2; 46; y1; y2; y3; y4]).
  { destruct Hd as [c Hc|c1 c2 v Hc Hv|c Hc|c Hc|c Hc];
      cbn [app] in Es; injection Es; intros; subst;
      try (exfalso; lia); (split; [|assumption]).
    - lia.
    - rewrite decimal_value_ascii in Hv by lia.
      assert (v = a2 - 48) by congruence. lia.
    - lia. }
  destruct Ed as [-> Es']. clear Es Hd.
  assert (Em : m' = 10 * (b1 - 48) + (b2 - 48) /\ Y = [y1; y2; y3; y4]).
  { destruct Hm as [c Hc|c Hc|c Hc];
      cbn [app] in Es'; injection Es'; intros; subst;
      try (exfalso; lia); (split; [lia|first [assumption|reflexivity]]). }
  destruct Em as [-> EY]. clear Es' Hm.
  destruct Hy as [c1 c2 c3 c4 v1 v2 v3 v4 H1 H2 H3 H4].
  injection EY; intros; subst.
  rewrite decimal_value_ascii in H1, H2, H3, H4 by lia.
  assert (v1 = y1 - 48) by congruence. assert (v2 = y2 - 48) by congruence.
  assert (v3 = y3 - 48) by congruence. assert (v4 = y4 - 48) by congruence.
  subst. reflexivity.
Qed.

Lemma date_text_canonical d m y dt :
  0 <= d <= 99 -> 0 <= m <= 99 -> 0 <= y <= 9999 ->
  date_text (dd_mm_yyyy (mkdate y m d)) dt -> dt = mkdate y m d.
Proof.
  intros Bd Bm By H. rewrite dd_mm_yyyy_chars in H.
  apply date_text_digits in H; try dlia.
  rewrite H. f_equal; dlia.
Qed.

(** On the texts of the exact shape, construction succeeds exactly when the
    day, month and year are those of a real date. *)
Lemma Birthday_init_exact_shape d m y :
  0 <= d <= 99 -> 0 <= m <= 99 -> 0 <= y <= 9999 ->
  is_ok (Birthday_init (dd_mm_yyyy (mkdate y m d))) = valid_date (mkdate y m d).
Proof.
  intros Bd Bm By. unfold Birthday_init.
  destruct (valid_date (mkdate y m d)) eqn:V.
  - rewrite <- strftime_dd_mm_yyyy, (strptime_strftime _ V). reflexivity.
  - destruct (strptime (dd_mm_yyyy (mkdate y m d))) as [dt|e] eqn:E.
    + apply strptime_spec in E. destruct E as [T Vd].
      apply date_text_canonical in T; try assumption. congruence.
    + destruct (strptime_raises _ _ E) as [msg ->]. reflexivity.
Qed.

(** The texts of the exact shape are the texts DD.MM.YYYY of the triples of a
    day and a month below 100 and a year below 10000. *)
Lemma exact_shape_iff s :
  exact_shape s = true <->
  exists d m y,
    0 <= d <= 99 /\ 0 <= m <= 99 /\ 0 <= y <= 9999
    /\ s = dd_mm_yyyy (mkdate y m d).
Proof.
  split.
  - unfold exact_shape.
    destruct s as [|d1 [|d2 [|p1 [|m1 [|m2 [|p2 [|y1 [|y2 [|y3 [|y4 [|x s]]]]]]]]]]];
      try discriminate.
    unfold is_ascii_digit. intros H. bool_to_prop. subst p1 p2.
    exists (10 * (d1 - 48) + (d2 - 48)), (10 * (m1 - 48) + (m2 - 48)),
      (1000 * (y1 - 48) + 100 * (y2 - 48) + 10 * (y3 - 48) + (y4 - 48)).
    repeat split; try lia.
    rewrite dd_mm_yyyy_chars.
    repeat (apply f_equal2; [try reflexivity; dlia|]). reflexivity.
  - intros (d & m & y & Bd & Bm & By & ->).
    rewrite dd_mm_yyyy_chars. unfold exact_shape, is_ascii_digit.
    repeat (apply andb_true_intro; split);
      try reflexivity; try (apply Z.leb_le; dlia).
Qed.

(* ================================================================== *)
(** ** The claims                                                      *)
(* ================================================================== *)

(** C1. With [today] a date: the query on the empty book returns the empty
    list; it returns a list exactly when every record with a birthday has a
    rolled occurrence (the birthday with the year of [today], or with the
    next year when that day is strictly before [today]); the list it returns
    holds, in the order of the book, one entry for each record that has a
    birthday whose rolled occurrence is 0 to 6 days after [today], and no
    other; a record without a birthday is never one of them. *)
Theorem upcoming_window_inclusion (today : date) (book : AddressBook) :
  valid_date today = true ->
  eval (get_upcoming_birthdays today) [] = Ok []
  /\ is_ok (eval (get_upcoming_birthdays today) book)
     = forallb (schedulable today) (dict_values book)
  /\ (forall out,
        eval (get_upcoming_birthdays today) book = Ok out ->
        map entry_name out
        = map (fun r => value (name r))
              (filter (included today) (dict_values book)))
  /\ (forall r,
        included today r = true <->
        exists b occ,
          birthday_date r = Some b /\ rolled_occurrence today b = Some occ
          /\ 0 <= delta today occ < 7)
  /\ (forall r, birthday r = None -> included today r = false).
Proof.
  intros Vt. split; [reflexivity|]. split; [|split; [|split]].
  - pose proof (get_upcoming_birthdays_result today book Vt) as R.
    destruct (forallb _ _).
    + rewrite R. reflexivity.
    + destruct R as [msg ->]. reflexivity.
  - intros out E. rewrite (get_upcoming_birthdays_ok _ _ _ Vt E).
    apply names_of_entries.
  - intros r. apply included_iff.
  - intros r E. unfold included, birthday_date. rewrite E. reflexivity.
Qed.

Lemma upcoming_window_inclusion_witness :
  valid_date monday_10_june_2024 = true
  /\ map entry_name
         [mkEntry (u "Alice") (u "10.06.2024"); mkEntry (u "Bob") (u "17.06.2024")]
     = map (fun r => value (name r))
           (filter (included monday_10_june_2024) (dict_values sample_book)).
Proof.
  split; [reflexivity|].
  exact (proj1 (proj2 (proj2
           (upcoming_window_inclusion monday_10_june_2024 sample_book eq_refl)))
           _ eq_refl).
Defined.

(** C2. With [today] in a year from 1000 on (where [strftime] writes the
    year on four digits on every platform): every entry of the result stands
    for a record that passed the inclusion test on its occurrence before any
    shift; it carries the name of the record and, as DD.MM.YYYY, the
    occurrence moved forward by 7 - weekday days when it falls on a Saturday
    (2 days) or a Sunday (1 day), which is a Monday, and the occurrence
    itself on the other days. *)
Theorem weekend_shift_display (today : date) (book : AddressBook)
    (out : list Entry) :
  valid_date today = true ->
  1000 <= year today ->
  eval (get_upcoming_birthdays today) book = Ok out ->
  Forall2 (shifted_entry today)
          (filter (included today) (dict_values book)) out.
Proof.
  intros Vt _ E. rewrite (get_upcoming_birthdays_ok _ _ _ Vt E).
  apply Forall2_entries. intros r e I Ee.
  pose proof (entries_of_spec today r) as S. rewrite I in S.
  destruct S as (b & occ & Hb & Ho & Hd & Vo & Ee').
  rewrite Ee in Ee'. injection Ee' as ->.
  destruct (congratulation_day_spec occ Vo) as (Vc & Wc & Hw & Hn).
  exists b, occ, (congratulation_day occ).
  refine (conj Hb (conj Ho (conj Hd (conj Vc (conj _ (conj _ (conj _
            (conj Hn (conj eq_refl (conj eq_refl eq_refl)))))))))).
  - intros W. apply Hw, W.
  - intros W. destruct (Hw ltac:(lia)) as [A B]. split; lia.
  - intros W. destruct (Hw ltac:(lia)) as [A B]. split; lia.
Qed.

Lemma weekend_shift_display_witness :
  valid_date monday_10_june_2024 = true
  /\ 1000 <= year monday_10_june_2024
  /\ eval (get_upcoming_birthdays monday_10_june_2024) sample_book
     = Ok [mkEntry (u "Alice") (u "10.06.2024"); mkEntry (u "Bob") (u "17.06.2024")]
  /\ Forall2 (shifted_entry monday_10_june_2024)
             (filter (included monday_10_june_2024) (dict_values sample_book))
             [mkEntry (u "Alice") (u "10.06.2024"); mkEntry (u "Bob") (u "17.06.2024")].
Proof.
  assert (Y : 1000 <= year monday_10_june_2024) by (simpl; lia).
  split; [reflexivity|]. split; [exact Y|]. split; [reflexivity|].
  exact (weekend_shift_display monday_10_june_2024 sample_book _
           eq_refl Y eq_refl).
Defined.

(** C3, as stated, fails: a string with a character that is no decimal digit
    (ten times SUPERSCRIPT TWO, which [str.isdigit] accepts) makes a Phone. *)
Lemma Phone_init_accepts_superscripts :
  Exists (fun c => isdecimal_cp c = false /\ is_ascii_digit c = false)
         ten_superscript_twos
  /\ Phone_init ten_superscript_twos = Ok (mkField ten_superscript_twos).
Proof. split; [left; split; reflexivity|reflexivity]. Qed.

(** C3, amended. Phone construction fails with ValueError for every string
    whose length is not 10 or which holds a character that [str.isdigit]
    rejects; it succeeds for every string of exactly 10 characters that
    [str.isdigit] accepts, among them every string of 10 ASCII decimal
    digits, and the field holds exactly the string. *)
Theorem Phone_init_spec (s : pystr) :
  (Phone_init s = Raise (ValueError "Phone number must be 10 digits.")
   <-> len s <> 10 \/ Exists (fun c => isdigit_cp c = false) s)
  /\ (Phone_init s = Ok (mkField s)
      <-> len s = 10 /\ Forall (fun c => isdigit_cp c = true) s)
  /\ (len s = 10 /\ Forall (fun c => is_ascii_digit c = true) s ->
      Phone_init s = Ok (mkField s) /\ value (mkField s) = s).
Proof.
  pose proof (Phone_init_cases s) as C.
  pose proof (isdigit_len_10 s) as I.
  assert (D : len s <> 10 \/ Exists (fun c => isdigit_cp c = false) s
              <-> ~ (len s = 10 /\ Forall (fun c => isdigit_cp c = true) s)).
  { split.
    - intros [H|H] [L F]; [lia|].
      rewrite Exists_exists in H. destruct H as (c & Hin & Hc).
      rewrite Forall_forall in F. rewrite (F c Hin) in Hc. discriminate.
    - intros N. destruct (Z.eq_dec (len s) 10) as [L|L]; [|left; exact L].
      right.
      assert (NF : ~ Forall (fun c => isdigit_cp c = true) s) by tauto.
      apply neg_Forall_Exists_neg in NF;
        [|intros c; destruct (isdigit_cp c); [left|right]; congruence].
      revert NF. apply Exists_impl. intros c Hc.
      apply not_true_iff_false, Hc. }
  split; [|split].
  - destruct (isdigit s && (len s =? 10)).
    + rewrite C. split; [discriminate|].
      intros H. apply D in H. exfalso. apply H, I. reflexivity.
    + split; [intros _|intros _; exact C].
      apply D. intros H. apply I in H. discriminate.
  - destruct (isdigit s && (len s =? 10)).
    + split; [intros _; apply I; reflexivity|intros _; exact C].
    + rewrite C. split; [discriminate|]. intros H. apply I in H. discriminate.
  - intros [L F]. split; [|reflexivity].
    assert (F' : Forall (fun c => isdigit_cp c = true) s).
    { rewrite Forall_forall in *. intros c Hc. apply ascii_digit_isdigit, F, Hc. }
    destruct (isdigit s && (len s =? 10)); [exact C|].
    assert (false = true) by (apply I; auto). discriminate.
Qed.

Lemma Phone_init_spec_witness :
  len (u "0501234567") = 10
  /\ Forall (fun c => is_ascii_digit c = true) (u "0501234567")
  /\ Phone_init (u "0501234567") = Ok (mkField (u "0501234567")).
Proof.
  assert (F : Forall (fun c => is_ascii_digit c = true) (u "0501234567"))
    by (repeat constructor).
  split; [reflexivity|]. split; [exact F|].
  exact (proj1 (proj2 (proj2 (Phone_init_spec (u "0501234567")))
                  (conj eq_refl F))).
Defined.

Lemma Birthday_init_cases s :
  match strptime s with
  | Ok _ => Birthday_init s = Ok (mkField s)
  | Raise _ =>
      Birthday_init s = Raise (ValueError "Invalid date format. Use DD.MM.YYYY")
  end.
Proof.
  unfold Birthday_init. destruct (strptime s) as [d|e] eqn:E; [reflexivity|].
  destruct (strptime_raises _ _ E) as [msg ->]. reflexivity.
Qed.

(** C4, as stated, fails: a string that is not of the shape two digits, a
    dot, two digits, a dot and four digits makes a Birthday, and the value it
    stores is not the canonical text of its date. *)
Lemma Birthday_init_accepts_short_form :
  exact_shape (u "5.6.1990") = false
  /\ Birthday_init (u "5.6.1990") = Ok (mkField (u "5.6.1990"))
  /\ strptime (u "5.6.1990") = Ok (mkdate 1990 6 5)
  /\ strftime (mkdate 1990 6 5) = u "05.06.1990"
  /\ value (mkField (u "5.6.1990")) <> u "05.06.1990".
Proof. repeat split; try reflexivity; discriminate. Qed.

(** C4, amended. Birthday construction succeeds exactly on the texts that
    [strptime] reads under ['%d.%m.%Y'] as a real calendar date: a day of one
    or two digits (or a space and a digit), a dot, a month of one or two
    digits, a dot and a year of four decimal characters; on every other
    string it fails with ValueError.  On a string of the exact shape two
    digits, dot, two digits, dot, four digits it succeeds if and only if the
    string denotes a real calendar date (day 31 of a 30-day month and month
    13 are rejected).  The field holds the string as given; for every real
    date the canonical text DD.MM.YYYY is accepted, stored, and read back as
    the same date, which formats to the same text. *)
Theorem Birthday_init_spec (s : pystr) :
  (Birthday_init s = Ok (mkField s)
   <-> exists dt, date_text s dt /\ valid_date dt = true)
  /\ (Birthday_init s = Ok (mkField s)
      \/ Birthday_init s
         = Raise (ValueError "Invalid date format. Use DD.MM.YYYY"))
  /\ (exact_shape s = true ->
      (Birthday_init s = Ok (mkField s)
       <-> exists dt, s = dd_mm_yyyy dt /\ valid_date dt = true))
  /\ is_ok (Birthday_init (u "31.04.1990")) = false
  /\ is_ok (Birthday_init (u "01.13.1990")) = false
  /\ (forall dt,
        valid_date dt = true ->
        Birthday_init (strftime dt) = Ok (mkField (strftime dt))
        /\ strptime (value (mkField (strftime dt))) = Ok dt
        /\ strftime dt = dd_mm_yyyy dt).
Proof.
  pose proof (Birthday_init_cases s) as C.
  assert (RT : forall dt, valid_date dt = true ->
                 Birthday_init (strftime dt) = Ok (mkField (strftime dt))).
  { intros dt V. pose proof (Birthday_init_cases (strftime dt)) as C'.
    rewrite (strptime_strftime dt V) in C'. exact C'. }
  split; [|split; [|split; [|split; [|split]]]].
  - destruct (strptime s) as [d|e] eqn:E.
    + split; [intros _|intros _; exact C].
      exists d. apply strptime_spec, E.
    + rewrite C. split; [discriminate|].
      intros (dt & H). apply strptime_spec in H. congruence.
  - destruct (strptime s); auto.
  - intros X. apply exact_shape_iff in X.
    destruct X as (d & m & y & Bd & Bm & By & ->).
    pose proof (Birthday_init_exact_shape d m y Bd Bm By) as I.
    split.
    + intros E. rewrite E in I. simpl in I.
      exists (mkdate y m d). auto.
    + intros (dt & E & V). rewrite E.
      rewrite <- strftime_dd_mm_yyyy. apply RT, V.
  - reflexivity.
  - reflexivity.
  - intros dt V.
    split; [apply RT, V|]. split; [apply strptime_strftime, V|reflexivity].
Qed.

Lemma Birthday_init_spec_witness :
  exact_shape (u "10.06.1990") = true
  /\ valid_date (mkdate 1990 6 10) = true
  /\ Birthday_init (u "10.06.1990") = Ok (mkField (u "10.06.1990"))
  /\ strptime (value (mkField (u "10.06.1990"))) = Ok (mkdate 1990 6 10).
Proof.
  split; [reflexivity|]. split; [reflexivity|].
  pose proof (Birthday_init_spec (u "10.06.1990")) as T.
  split.
  - exact (proj2 (proj1 (proj2 (proj2 T)) eq_refl)
             (ex_intro _ (mkdate 1990 6 10) (conj eq_refl eq_refl))).
  - exact (proj1 (proj2 (proj2 (proj2 (proj2 (proj2 (proj2 T))))
                           (mkdate 1990 6 10) eq_refl))).
Defined.

(** Every record born on 29 February is beyond the scheduler in a year
    without that day. *)
Lemma leap_day_unschedulable today r b :
  valid_date today = true -> _is_leap (year today) = false ->
  birthday_date r = Some b -> month b = 2 -> day b = 29 ->
  schedulable today r = false.
Proof.
  intros Vt L Hb Hm Hd. unfold schedulable.
  destruct (birthday r) as [f|] eqn:Ef;
    [|unfold birthday_date in Hb; rewrite Ef in Hb; discriminate].
  rewrite Hb. unfold rolled_occurrence, occurrence_in.
  replace (valid_date (mkdate (year today) (month b) (day b))) with false;
    [reflexivity|].
  symmetry. apply not_true_iff_false. intros V.
  apply valid_date_spec in V. simpl in V.
  rewrite Hm, Hd, _days_in_month_of, L in V. calc_tables. lia.
Qed.

(** With such a record in the book, the query raises on every day of a year
    that is not a leap year. *)
Lemma leap_day_query_raises today book r b :
  valid_date today = true -> _is_leap (year today) = false ->
  In r (dict_values book) ->
  birthday_date r = Some b -> month b = 2 -> day b = 29 ->
  exists msg, eval (get_upcoming_birthdays today) book = Raise (ValueError msg).
Proof.
  intros Vt L Hin Hb Hm Hd.
  pose proof (get_upcoming_birthdays_result today book Vt) as R.
  destruct (forallb (schedulable today) (dict_values book)) eqn:E; [|exact R].
  rewrite forallb_forall in E. specialize (E r Hin).
  rewrite (leap_day_unschedulable _ _ _ Vt L Hb Hm Hd) in E. discriminate.
Qed.

(** C5 fails on the code: with a contact born on 29 February 2000 and today
    25 February 2023, [replace(year=2023)] raises ValueError and the query
    returns no result. *)
Lemma leap_day_birthday_raises :
  Birthday_init (u "29.02.2000") = Ok (mkField (u "29.02.2000"))
  /\ valid_date saturday_25_february_2023 = true
  /\ eval (get_upcoming_birthdays saturday_25_february_2023) leap_day_book
     = Raise (ValueError "day is out of range for month").
Proof. repeat split. Qed.

(** C6, as stated, fails: the empty name makes a record. *)
Lemma Record_init_accepts_empty_name :
  Record_init (u "") = Ok (mkRecord (mkField []) [] None).
Proof. reflexivity. Qed.

(** C6, amended. [Record] construction succeeds for every string, the empty
    one included ([Name] checks nothing), and gives a record with that name,
    no phones and no birthday. *)
Theorem Record_init_spec (s : pystr) :
  Record_init s = Ok (mkRecord (mkField s) [] None)
  /\ Name_init s = Ok (mkField s).
Proof. split; reflexivity. Qed.

(** C7. [add_record] always succeeds; [find] on the name of the record just
    added returns that record; adding a second record under the name of a
    first leaves the book as if the first had never been added; [find] never
    raises and returns [None] for a name that is not a key. *)
Theorem add_record_then_find (book : AddressBook) (r1 r2 : RecordT)
    (n : pystr) :
  eval (add_record r2) book = Ok tt
  /\ eval (find (value (name r2))) (exec (add_record r2) book) = Ok (Some r2)
  /\ (value (name r1) = value (name r2) ->
      exec (add_record r2) (exec (add_record r1) book)
      = exec (add_record r2) book
      /\ eval (find (value (name r1)))
              (exec (add_record r2) (exec (add_record r1) book))
         = Ok (Some r2))
  /\ (exists o, find n book = (Ok o, book))
  /\ (~ In n (dict_keys book) -> find n book = (Ok None, book)).
Proof.
  unfold eval, exec, add_record, find, bind, get, put, ret. simpl.
  split; [reflexivity|]. split; [|split; [|split]].
  - rewrite dict_get_set. reflexivity.
  - intros E. rewrite E, dict_set_set, dict_get_set. auto.
  - eauto.
  - intros H. rewrite (dict_get_absent _ _ H). reflexivity.
Qed.

Lemma add_record_then_find_witness :
  value (name (record_with_birthday "Bob" "01.01.2001"))
  = value (name (record_with_birthday "Bob" "15.06.1985"))
  /\ ~ In (u "Erin") (dict_keys sample_book)
  /\ eval (find (u "Bob"))
          (exec (add_record (record_with_birthday "Bob" "15.06.1985"))
             (exec (add_record (record_with_birthday "Bob" "01.01.2001"))
                sample_book))
     = Ok (Some (record_with_birthday "Bob" "15.06.1985"))
  /\ find (u "Erin") sample_book = (Ok None, sample_book).
Proof.
  assert (N : ~ In (u "Erin") (dict_keys sample_book)).
  { intros H. repeat (destruct H as [H|H]; [discriminate H|]). exact H. }
  split; [reflexivity|]. split; [exact N|].
  pose proof (add_record_then_find sample_book
                (record_with_birthday "Bob" "01.01.2001")
                (record_with_birthday "Bob" "15.06.1985") (u "Erin")) as T.
  split.
  - exact (proj2 (proj1 (proj2 (proj2 T)) eq_refl)).
  - exact (proj2 (proj2 (proj2 (proj2 T))) N).
Defined.

(** The strings that the check of [Phone] turns away. *)
Lemma isdigit_len_10_false s :
  isdigit s && (len s =? 10) = false
  <-> len s <> 10 \/ Exists (fun c => isdigit_cp c = false) s.
Proof.
  pose proof (isdigit_len_10 s) as I. split.
  - intros E. destruct (Z.eq_dec (len s) 10) as [L|L]; [|left; exact L].
    right.
    assert (NF : ~ Forall (fun c => isdigit_cp c = true) s).
    { intros F. rewrite (proj2 I (conj L F)) in E. discriminate. }
    apply neg_Forall_Exists_neg in NF;
      [|intros c; destruct (isdigit_cp c); [left|right]; congruence].
    revert NF. apply Exists_impl. intros c Hc.
    apply not_true_iff_false, Hc.
  - intros H. apply not_true_iff_false. intros E. apply I in E.
    destruct E as [L F]. destruct H as [H|H]; [lia|].
    rewrite Exists_exists in H. destruct H as (c & Hin & Hc).
    rewrite Forall_forall in F. rewrite (F c Hin) in Hc. discriminate.
Qed.

(** C8, as stated, fails: ten times SUPERSCRIPT TWO is no string of 10
    decimal digits, yet [add_phone] raises nothing and puts it at the end of
    the phones of the record. *)
Lemma add_phone_accepts_superscripts :
  len ten_superscript_twos = 10
  /\ Exists (fun c => isdecimal_cp c = false /\ is_ascii_digit c = false)
            ten_superscript_twos
  /\ add_phone ten_superscript_twos
               (mkRecord (mkField (u "Dave")) [mkField (u "0501234567")] None)
     = (Ok tt,
        mkRecord (mkField (u "Dave"))
                 [mkField (u "0501234567"); mkField ten_superscript_twos] None).
Proof. split; [reflexivity|]. split; [left; split; reflexivity|reflexivity]. Qed.

(** C8, amended. [add_phone] with a string of exactly 10 characters that
    [str.isdigit] accepts (every string of 10 ASCII decimal digits is one)
    puts a Phone that holds the string at the end of the phones of the
    record and changes nothing else; with a string whose length is not 10 or
    which holds a character that [str.isdigit] rejects it raises ValueError
    and leaves the record, phones included, as it was.  Every string is of
    one kind or the other. *)
Theorem add_phone_atomic (self : RecordT) (s : pystr) :
  (len s = 10 /\ Forall (fun c => isdigit_cp c = true) s ->
   add_phone s self
   = (Ok tt, mkRecord (name self) (phones self ++ [mkField s]) (birthday self)))
  /\ (len s = 10 /\ Forall (fun c => is_ascii_digit c = true) s ->
      add_phone s self
      = (Ok tt, mkRecord (name self) (phones self ++ [mkField s]) (birthday self)))
  /\ (len s <> 10 \/ Exists (fun c => isdigit_cp c = false) s ->
      add_phone s self
      = (Raise (ValueError "Phone number must be 10 digits."), self))
  /\ ((len s = 10 /\ Forall (fun c => isdigit_cp c = true) s)
      \/ (len s <> 10 \/ Exists (fun c => isdigit_cp c = false) s)).
Proof.
  pose proof (Phone_init_cases s) as C.
  pose proof (isdigit_len_10 s) as I.
  pose proof (isdigit_len_10_false s) as N.
  assert (A : len s = 10 /\ Forall (fun c => isdigit_cp c = true) s ->
              add_phone s self
              = (Ok tt, mkRecord (name self) (phones self ++ [mkField s])
                                 (birthday self))).
  { intros H. apply I in H. rewrite H in C.
    unfold add_phone, bind, lift, get, put. rewrite C. reflexivity. }
  split; [exact A|]. split; [|split].
  - intros [L F]. apply A. split; [exact L|].
    rewrite Forall_forall in *. intros c Hc. apply ascii_digit_isdigit, F, Hc.
  - intros H. apply N in H. rewrite H in C.
    unfold add_phone, bind, lift, get, put. rewrite C. reflexivity.
  - destruct (isdigit s && (len s =? 10)).
    + left. apply I. reflexivity.
    + right. apply N. reflexivity.
Qed.

Lemma add_phone_atomic_witness :
  (len (u "0501234567") = 10
   /\ Forall (fun c => is_ascii_digit c = true) (u "0501234567"))
  /\ (len (u "12345") <> 10
      \/ Exists (fun c => isdigit_cp c = false) (u "12345"))
  /\ (len (u "050123456x") <> 10
      \/ Exists (fun c => isdigit_cp c = false) (u "050123456x"))
  /\ add_phone (u "0501234567") (record_without_birthday "Dave")
     = (Ok tt, mkRecord (mkField (u "Dave")) [mkField (u "0501234567")] None)
  /\ add_phone (u "12345") (record_without_birthday "Dave")
     = (Raise (ValueError "Phone number must be 10 digits."),
        record_without_birthday "Dave")
  /\ add_phone (u "050123456x")
               (mkRecord (mkField (u "Dave")) [mkField (u "0501234567")] None)
     = (Raise (ValueError "Phone number must be 10 digits."),
        mkRecord (mkField (u "Dave")) [mkField (u "0501234567")] None).
Proof.
  assert (G : len (u "0501234567") = 10
              /\ Forall (fun c => is_ascii_digit c = true) (u "0501234567"))
    by (split; [reflexivity|repeat constructor]).
  assert (S : len (u "12345") <> 10
              \/ Exists (fun c => isdigit_cp c = false) (u "12345"))
    by (left; discriminate).
  assert (X : len (u "050123456x") <> 10
              \/ Exists (fun c => isdigit_cp c = false) (u "050123456x"))
    by (right; repeat (first [left; reflexivity|right])).
  split; [exact G|]. split; [exact S|]. split; [exact X|]. split; [|split].
  - exact (proj1 (proj2 (add_phone_atomic (record_without_birthday "Dave")
                           (u "0501234567"))) G).
  - exact (proj1 (proj2 (proj2 (add_phone_atomic
                                  (record_without_birthday "Dave")
                                  (u "12345")))) S).
  - exact (proj1 (proj2 (proj2 (add_phone_atomic
             (mkRecord (mkField (u "Dave")) [mkField (u "0501234567")] None)
             (u "050123456x")))) X).
Defined.

(** C9. The query leaves the book as it found it, whether it returns or
    raises: the keys, their order, and every record with its name, phones
    and birthday. *)
Theorem upcoming_is_pure_query (today : date) (book : AddressBook) :
  exec (get_upcoming_birthdays today) book = book.
Proof.
  unfold exec. rewrite get_upcoming_birthdays_unfold.
  apply for_each_lift_state.
Qed.

(** C10. With [today] in a year from 1000 on (where [strftime] writes the
    year on four digits on every platform): every entry of a result carries
    a text that reads back as a date, and that date is a Monday, Tuesday,
    Wednesday, Thursday or Friday. *)
Theorem congratulation_on_working_day (today : date) (book : AddressBook)
    (out : list Entry) (e : Entry) :
  valid_date today = true ->
  1000 <= year today ->
  eval (get_upcoming_birthdays today) book = Ok out ->
  In e out ->
  exists d, strptime (congratulation_date e) = Ok d /\ 0 <= weekday d <= 4.
Proof.
  intros Vt _ E Hin. rewrite (get_upcoming_birthdays_ok _ _ _ Vt E) in Hin.
  apply in_flat_map in Hin. destruct Hin as (r & _ & Hin).
  pose proof (entries_of_spec today r) as S.
  destruct (included today r).
  - destruct S as (b & occ & _ & _ & _ & Vo & Ee). rewrite Ee in Hin.
    destruct Hin as [<-|[]].
    destruct (congratulation_day_spec occ Vo) as (Vc & Wc & _).
    exists (congratulation_day occ). split; [|exact Wc].
    simpl. rewrite <- strftime_dd_mm_yyyy. apply strptime_strftime, Vc.
  - rewrite S in Hin. destruct Hin.
Qed.

Lemma congratulation_on_working_day_witness :
  valid_date monday_10_june_2024 = true
  /\ 1000 <= year monday_10_june_2024
  /\ eval (get_upcoming_birthdays monday_10_june_2024) sample_book
     = Ok [mkEntry (u "Alice") (u "10.06.2024"); mkEntry (u "Bob") (u "17.06.2024")]
  /\ In (mkEntry (u "Bob") (u "17.06.2024"))
        [mkEntry (u "Alice") (u "10.06.2024"); mkEntry (u "Bob") (u "17.06.2024")]
  /\ exists d, strptime (u "17.06.2024") = Ok d /\ 0 <= weekday d <= 4.
Proof.
  assert (Y : 1000 <= year monday_10_june_2024) by (simpl; lia).
  split; [reflexivity|]. split; [exact Y|]. split; [reflexivity|].
  split; [right; left; reflexivity|].
  exact (congratulation_on_working_day monday_10_june_2024 sample_book _
           (mkEntry (u "Bob") (u "17.06.2024")) eq_refl Y eq_refl
           (or_intror (or_introl eq_refl))).
Defined.

(* ================================================================== *)
(** ** Further properties: records                                     *)
(* ================================================================== *)

Lemma is_ok_Birthday_init s : is_ok (Birthday_init s) = is_ok (strptime s).
Proof.
  pose proof (Birthday_init_cases s) as C.
  destruct (strptime s); rewrite C; reflexivity.
Qed.

Lemma is_ok_Phone_init s :
  is_ok (Phone_init s) = isdigit s && (len s =? 10).
Proof.
  pose proof (Phone_init_cases s) as C.
  destruct (isdigit s && (len s =? 10)); rewrite C; reflexivity.
Qed.

Lemma add_birthday_cases self s :
  if is_ok (strptime s)
  then add_birthday s self
       = (Ok tt, mkRecord (name self) (phones self) (Some (mkField s)))
  else add_birthday s self
       = (Raise (ValueError "Invalid date format. Use DD.MM.YYYY"), self).
Proof.
  unfold add_birthday, bind, lift, get, put.
  pose proof (Birthday_init_cases s) as C.
  destruct (strptime s); rewrite C; reflexivity.
Qed.

Lemma add_phone_cases self s :
  if isdigit s && (len s =? 10)
  then add_phone s self
       = (Ok tt, mkRecord (name self) (phones self ++ [mkField s]) (birthday self))
  else add_phone s self
       = (Raise (ValueError "Phone number must be 10 digits."), self).
Proof.
  unfold add_phone, bind, lift, get, put.
  pose proof (Phone_init_cases s) as C.
  destruct (isdigit s && (len s =? 10)); rewrite C; reflexivity.
Qed.

(** X1. [add_birthday] with a string that makes a Birthday sets the birthday
    of the record to it and keeps the name and the phones; with any other
    string it raises ValueError and leaves the record as it was; a birthday
    set later replaces the one set before, which leaves no trace. *)
Theorem add_birthday_replaces (self : RecordT) (s1 s2 : pystr) :
  (is_ok (Birthday_init s2) = true ->
   add_birthday s2 self
   = (Ok tt, mkRecord (name self) (phones self) (Some (mkField s2)))
   /\ exec (add_birthday s2) (exec (add_birthday s1) self)
      = exec (add_birthday s2) self)
  /\ (is_ok (Birthday_init s2) = false ->
      add_birthday s2 self
      = (Raise (ValueError "Invalid date format. Use DD.MM.YYYY"), self)).
Proof.
  rewrite is_ok_Birthday_init.
  pose proof (add_birthday_cases self s2) as C2.
  split; intros E; rewrite E in C2; [|exact C2].
  split; [exact C2|]. unfold exec. rewrite C2.
  pose proof (add_birthday_cases (snd (add_birthday s1 self)) s2) as C3.
  rewrite E in C3. rewrite C3.
  pose proof (add_birthday_cases self s1) as C1.
  destruct (is_ok (strptime s1)); rewrite C1; reflexivity.
Qed.

Lemma add_birthday_replaces_witness :
  is_ok (Birthday_init (u "15.06.1985")) = true
  /\ is_ok (Birthday_init (u "15/06/1985")) = false
  /\ exec (add_birthday (u "15.06.1985"))
          (exec (add_birthday (u "01.01.2001")) (record_without_birthday "Bob"))
     = exec (add_birthday (u "15.06.1985")) (record_without_birthday "Bob")
  /\ add_birthday (u "15/06/1985") (record_with_birthday "Bob" "15.06.1985")
     = (Raise (ValueError "Invalid date format. Use DD.MM.YYYY"),
        record_with_birthday "Bob" "15.06.1985").
Proof.
  split; [reflexivity|]. split; [reflexivity|]. split.
  - exact (proj2 (proj1 (add_birthday_replaces (record_without_birthday "Bob")
                           (u "01.01.2001") (u "15.06.1985")) eq_refl)).
  - exact (proj2 (add_birthday_replaces
                    (record_with_birthday "Bob" "15.06.1985")
                    (u "15.06.1985") (u "15/06/1985")) eq_refl).
Defined.

Lemma record_ok_add_phone r s :
  record_ok r = true -> record_ok (exec (add_phone s) r) = true.
Proof.
  intros H. unfold exec. pose proof (add_phone_cases r s) as C.
  destruct (isdigit s && (len s =? 10)) eqn:E; rewrite C; [|exact H].
  unfold record_ok in *. simpl. apply andb_prop in H. destruct H as [Hp Hb].
  rewrite forallb_app, Hp, Hb. simpl. unfold phone_ok. simpl.
  rewrite E. reflexivity.
Qed.

Lemma record_ok_add_birthday r s :
  record_ok r = true -> record_ok (exec (add_birthday s) r) = true.
Proof.
  intros H. unfold exec. pose proof (add_birthday_cases r s) as C.
  destruct (is_ok (strptime s)) eqn:E; rewrite C; [|exact H].
  unfold record_ok in *. simpl. apply andb_prop in H. destruct H as [Hp Hb].
  rewrite Hp. unfold birthday_ok. simpl. exact E.
Qed.

Lemma record_ok_birthday_date r :
  record_ok r = true ->
  match birthday r with
  | Some b => exists d, birthday_date r = Some d /\ valid_date d = true
                        /\ date_text (value b) d
  | None => birthday_date r = None
  end.
Proof.
  unfold record_ok, birthday_date, birthday_ok. intros H.
  apply andb_prop in H. destruct H as [_ H].
  destruct (birthday r) as [b|]; [|reflexivity].
  destruct (strptime (value b)) as [d|e] eqn:E; [|discriminate].
  apply strptime_spec in E. destruct E. eauto.
Qed.

(** X2. Whatever calls of [add_phone] and [add_birthday] a new record
    receives, with whatever strings, and whether they return or raise, every
    phone it holds is a string of 10 digits and its birthday, when it has
    one, is a text that reads as a real calendar date. *)
Theorem record_fields_stay_valid (n : pystr) (calls : list record_call)
    (r0 : RecordT) :
  Record_init n = Ok r0 ->
  let r := fold_left after_call calls r0 in
  name r = mkField n
  /\ Forall (fun p => len (value p) = 10
                      /\ Forall (fun c => isdigit_cp c = true) (value p))
            (phones r)
  /\ (forall b, birthday r = Some b ->
        exists d, strptime (value b) = Ok d /\ valid_date d = true).
Proof.
  intros E. injection E as <-. cbv zeta.
  assert (I : forall calls r,
             record_ok r = true ->
             record_ok (fold_left after_call calls r) = true
             /\ name (fold_left after_call calls r) = name r).
  { clear. induction calls as [|c calls IH]; intros r H; [auto|].
    simpl. destruct c as [s|s]; simpl.
    - destruct (IH _ (record_ok_add_phone r s H)) as [A B].
      split; [exact A|]. rewrite B. unfold exec.
      pose proof (add_phone_cases r s) as C.
      destruct (_ && _); rewrite C; reflexivity.
    - destruct (IH _ (record_ok_add_birthday r s H)) as [A B].
      split; [exact A|]. rewrite B. unfold exec.
      pose proof (add_birthday_cases r s) as C.
      destruct (is_ok _); rewrite C; reflexivity. }
  destruct (I calls (mkRecord (Field_init n) [] None) eq_refl) as [Hok Hn].
  split; [exact Hn|]. split.
  - unfold record_ok in Hok. apply andb_prop in Hok. destruct Hok as [Hp _].
    rewrite forallb_forall in Hp. apply Forall_forall. intros p Hin.
    apply isdigit_len_10. apply (Hp p Hin).
  - intros b Hb. unfold record_ok, birthday_ok in Hok.
    apply andb_prop in Hok. destruct Hok as [_ Hbo]. rewrite Hb in Hbo.
    destruct (strptime (value b)) as [d|e] eqn:Es; [|discriminate].
    exists d. split; [reflexivity|]. apply strptime_spec in Es. apply Es.
Qed.

Lemma record_fields_stay_valid_witness :
  Record_init (u "Bob") = Ok (record_without_birthday "Bob")
  /\ Forall (fun p => len (value p) = 10
                      /\ Forall (fun c => isdigit_cp c = true) (value p))
            (phones (fold_left after_call
                       [AddPhone (u "0501234567"); AddPhone (u "12345");
                        AddBirthday (u "31.04.1990");
                        AddBirthday (u "15.06.1985")]
                       (record_without_birthday "Bob"))).
Proof.
  split; [reflexivity|].
  exact (proj1 (proj2 (record_fields_stay_valid (u "Bob")
                         [AddPhone (u "0501234567"); AddPhone (u "12345");
                          AddBirthday (u "31.04.1990");
                          AddBirthday (u "15.06.1985")]
                         (record_without_birthday "Bob") eq_refl))).
Defined.

(* ================================================================== *)
(** ** Further properties: the query of the birthdays                  *)
(* ================================================================== *)

(** A day of a month other than 29 February exists in every year. *)
Lemma every_year_has_day b y :
  valid_date b = true -> (month b =? 2) && (day b =? 29) = false ->
  1 <= y <= 9999 ->
  valid_date (mkdate y (month b) (day b)) = true.
Proof.
  intros V N Hy. apply valid_date_spec in V. destruct V as (_ & Hm & Hd).
  apply valid_date_spec. simpl. split; [exact Hy|]. split; [exact Hm|].
  rewrite _days_in_month_of in *.
  destruct b as [yb m d]. simpl in *.
  each_month m Hm; destruct (_is_leap yb); destruct (_is_leap y);
    calc_tables; try lia.
  all: simpl in N; apply andb_false_iff in N; destruct N as [N|N];
    [discriminate N|apply Z.eqb_neq in N; lia].
Qed.

Lemma leap_day_free_schedulable today r :
  valid_date today = true -> year today < 9999 ->
  record_ok r = true -> leap_day_free r = true ->
  schedulable today r = true.
Proof.
  intros Vt Hy Hok Hfree. pose proof (record_ok_birthday_date r Hok) as B.
  unfold schedulable, leap_day_free in *.
  destruct (birthday r) as [f|]; [|reflexivity].
  destruct B as (b & Eb & Vb & _). rewrite Eb in *.
  apply negb_true_iff in Hfree.
  apply valid_date_spec in Vt. destruct Vt as (Ht & _).
  unfold rolled_occurrence, occurrence_in.
  rewrite (every_year_has_day b (year today) Vb Hfree) by lia.
  rewrite (every_year_has_day b (year today + 1) Vb Hfree) by lia.
  destruct (_ <? _); reflexivity.
Qed.

(** X3. When no contact of the book is born on 29 February (and the fields
    of the records are those their constructors accepted, and the year of
    today is not the last of the calendar), the query returns a list and
    raises nothing. *)
Theorem upcoming_birthdays_returns (today : date) (book : AddressBook) :
  valid_date today = true -> year today < 9999 ->
  forallb record_ok (dict_values book) = true ->
  forallb leap_day_free (dict_values book) = true ->
  eval (get_upcoming_birthdays today) book
  = Ok (flat_map (entries_of today) (dict_values book)).
Proof.
  intros Vt Hy Hok Hfree.
  pose proof (get_upcoming_birthdays_result today book Vt) as R.
  replace (forallb (schedulable today) (dict_values book)) with true in R;
    [exact R|].
  symmetry. apply forallb_forall. intros r Hin.
  rewrite forallb_forall in Hok, Hfree.
  apply leap_day_free_schedulable; auto.
Qed.

Lemma upcoming_birthdays_returns_witness :
  valid_date monday_10_june_2024 = true
  /\ year monday_10_june_2024 < 9999
  /\ forallb record_ok (dict_values sample_book) = true
  /\ forallb leap_day_free (dict_values sample_book) = true
  /\ eval (get_upcoming_birthdays monday_10_june_2024) sample_book
     = Ok (flat_map (entries_of monday_10_june_2024) (dict_values sample_book)).
Proof.
  split; [reflexivity|]. split; [reflexivity|].
  split; [reflexivity|]. split; [reflexivity|].
  exact (upcoming_birthdays_returns monday_10_june_2024 sample_book
           eq_refl eq_refl eq_refl eq_refl).
Defined.

Lemma entries_of_length today r : (List.length (entries_of today r) <= 1)%nat.
Proof.
  pose proof (entries_of_spec today r) as S.
  destruct (included today r).
  - destruct S as (b & occ & _ & _ & _ & _ & ->). simpl. lia.
  - rewrite S. simpl. lia.
Qed.

Lemma flat_map_entries_length today records :
  (List.length (flat_map (entries_of today) records) <= List.length records)%nat.
Proof.
  induction records as [|r rs IH]; simpl; [lia|].
  rewrite length_app. pose proof (entries_of_length today r). lia.
Qed.

Lemma entries_of_name today r :
  Forall (fun e => entry_name e = value (name r)) (entries_of today r).
Proof.
  unfold entries_of.
  destruct (birthday_date r) as [b|]; [|constructor].
  destruct (rolled_occurrence today b) as [occ|]; [|constructor].
  destruct (_ && _); repeat constructor.
Qed.

Lemma entries_by_record today records :
  Forall2 (fun r es =>
             (List.length es <= 1)%nat
             /\ Forall (fun e => entry_name e = value (name r)) es)
          records (map (entries_of today) records).
Proof.
  induction records as [|r rs IH]; simpl; constructor; [|exact IH].
  split; [apply entries_of_length|apply entries_of_name].
Qed.

(** X4. With [today] in a year from 1000 on (where [strftime] writes the
    year on four digits on every platform): the list the query returns is
    made, in the order of the book, of one part for each record of the book,
    and each part is empty or is one entry, which carries the name of its
    record; so the list is no longer than the book.  The date of every entry
    is today or one of the 8 days after it: never a day that is past, and at
    most the Monday after a Saturday that is six days ahead. *)
Theorem upcoming_dates_in_window (today : date) (book : AddressBook)
    (out : list Entry) :
  valid_date today = true ->
  1000 <= year today ->
  eval (get_upcoming_birthdays today) book = Ok out ->
  (exists parts,
      out = List.concat parts
      /\ Forall2 (fun r es =>
                    (List.length es <= 1)%nat
                    /\ Forall (fun e => entry_name e = value (name r)) es)
                 (dict_values book) parts)
  /\ (List.length out <= List.length book)%nat
  /\ forall e, In e out ->
       exists cd, strptime (congratulation_date e) = Ok cd
                  /\ 0 <= toordinal cd - toordinal today <= 8.
Proof.
  intros Vt _ E. rewrite (get_upcoming_birthdays_ok _ _ _ Vt E).
  split; [|split].
  - exists (map (entries_of today) (dict_values book)).
    split; [apply flat_map_concat_map|apply entries_by_record].
  - unfold dict_values at 1.
    pose proof (flat_map_entries_length today (dict_values book)) as L.
    unfold dict_values in L at 2. rewrite length_map in L. exact L.
  - intros e Hin. apply in_flat_map in Hin. destruct Hin as (r & _ & Hin).
    pose proof (entries_of_spec today r) as S.
    destruct (included today r); [|rewrite S in Hin; destruct Hin].
    destruct S as (b & occ & _ & _ & Hd & Vo & Ee). rewrite Ee in Hin.
    destruct Hin as [<-|[]].
    destruct (congratulation_day_spec occ Vo) as (Vc & _ & Hw & Hn).
    exists (congratulation_day occ). split.
    + simpl. rewrite <- strftime_dd_mm_yyyy. apply strptime_strftime, Vc.
    + unfold delta in Hd. pose proof (weekday_range occ) as R.
      destruct (Z_lt_ge_dec (weekday occ) 5) as [W|W].
      * rewrite (Hn W). lia.
      * destruct (Hw ltac:(lia)) as [O _]. lia.
Qed.

Lemma upcoming_dates_in_window_witness :
  valid_date monday_10_june_2024 = true
  /\ 1000 <= year monday_10_june_2024
  /\ eval (get_upcoming_birthdays monday_10_june_2024) sample_book
     = Ok [mkEntry (u "Alice") (u "10.06.2024"); mkEntry (u "Bob") (u "17.06.2024")]
  /\ (exists parts,
        [mkEntry (u "Alice") (u "10.06.2024"); mkEntry (u "Bob") (u "17.06.2024")]
        = List.concat parts
        /\ Forall2 (fun r es =>
                      (List.length es <= 1)%nat
                      /\ Forall (fun e => entry_name e = value (name r)) es)
                   (dict_values sample_book) parts)
  /\ (exists cd, strptime (u "17.06.2024") = Ok cd
                 /\ 0 <= toordinal cd - toordinal monday_10_june_2024 <= 8).
Proof.
  assert (Y : 1000 <= year monday_10_june_2024) by (simpl; lia).
  split; [reflexivity|]. split; [exact Y|]. split; [reflexivity|].
  pose proof (upcoming_dates_in_window monday_10_june_2024 sample_book _
                eq_refl Y eq_refl) as T.
  split; [exact (proj1 T)|].
  exact (proj2 (proj2 T) (mkEntry (u "Bob") (u "17.06.2024"))
           (or_intror (or_introl eq_refl))).
Defined.

Lemma upcoming_body_reads today r1 r2 acc :
  name_and_birthday r1 = name_and_birthday r2 ->
  upcoming_body today r1 acc = upcoming_body today r2 acc.
Proof.
  unfold name_and_birthday, upcoming_body. intros E.
  injection E as En Eb. rewrite En, Eb. reflexivity.
Qed.

Lemma upcoming_loop_reads today (s1 s2 : AddressBook) rs1 :
  forall rs2 acc,
    map name_and_birthday rs1 = map name_and_birthday rs2 ->
    fst (for_each rs1 acc
           (fun record upcoming => lift (upcoming_body today record upcoming)) s1)
    = fst (for_each rs2 acc
             (fun record upcoming => lift (upcoming_body today record upcoming)) s2).
Proof.
  induction rs1 as [|r1 rs1 IH]; intros [|r2 rs2] acc E;
    try discriminate; [reflexivity|].
  simpl in E.
  assert (Er : name_and_birthday r1 = name_and_birthday r2) by congruence.
  assert (Ers : map name_and_birthday rs1 = map name_and_birthday rs2)
    by congruence.
  simpl. unfold bind, lift at 1 3.
  rewrite (upcoming_body_reads today r1 r2 acc Er).
  destruct (upcoming_body today r2 acc); [apply IH, Ers|reflexivity].
Qed.

(** X5. The query reads the names and the birthdays of the records, in the
    order of the book, and nothing else: two books that agree on them, with
    whatever phones and under whatever keys, get the same answer. *)
Theorem upcoming_reads_names_and_birthdays (today : date)
    (book1 book2 : AddressBook) :
  map name_and_birthday (dict_values book1)
  = map name_and_birthday (dict_values book2) ->
  eval (get_upcoming_birthdays today) book1
  = eval (get_upcoming_birthdays today) book2.
Proof.
  intros E. unfold eval. rewrite !get_upcoming_birthdays_unfold.
  apply upcoming_loop_reads, E.
Qed.

Lemma upcoming_reads_names_and_birthdays_witness :
  map name_and_birthday (dict_values sample_book)
  = map name_and_birthday
        (dict_values
           (dict_set (u "Bob")
              (exec (add_phone (u "0501234567"))
                    (record_with_birthday "Bob" "15.06.1985"))
              sample_book))
  /\ eval (get_upcoming_birthdays monday_10_june_2024) sample_book
     = eval (get_upcoming_birthdays monday_10_june_2024)
            (dict_set (u "Bob")
               (exec (add_phone (u "0501234567"))
                     (record_with_birthday "Bob" "15.06.1985"))
               sample_book).
Proof.
  split; [reflexivity|].
  exact (upcoming_reads_names_and_birthdays monday_10_june_2024 sample_book _
           eq_refl).
Defined.

(* ================================================================== *)
(** ** Further properties: the book                                    *)
(* ================================================================== *)

Lemma existsb_key_In k keys :
  existsb (fun k' => str_eqb k' k) keys = true <-> In k keys.
Proof.
  rewrite existsb_exists. split.
  - intros (k' & Hin & E). apply str_eqb_eq in E. subst. exact Hin.
  - intros Hin. exists k. split; [exact Hin|apply str_eqb_refl].
Qed.

Lemma dict_get_In k v data :
  dict_get k data = Some v -> In (k, v) data.
Proof.
  induction data as [|[k' v'] data IH]; simpl; [discriminate|].
  destruct (str_eqb k' k) eqn:E.
  - apply str_eqb_eq in E. subst. intros H; injection H as ->. left. reflexivity.
  - intros H. right. apply IH, H.
Qed.

Lemma dict_get_None_keys k data :
  dict_get k data = None <-> ~ In k (dict_keys data).
Proof.
  split; [|apply dict_get_absent].
  induction data as [|[k' v'] data IH]; simpl; [auto|].
  destruct (str_eqb k' k) eqn:E; [discriminate|].
  intros H [Hk|Hin]; [|exact (IH H Hin)].
  subst. rewrite str_eqb_refl in E. discriminate.
Qed.

Lemma dict_set_absent k v data :
  dict_get k data = None -> dict_set k v data = data ++ [(k, v)].
Proof.
  induction data as [|[k' v'] data IH]; simpl; [reflexivity|].
  destruct (str_eqb k' k); [discriminate|].
  intros H. rewrite (IH H). reflexivity.
Qed.

Lemma dict_set_same k v data :
  dict_get k data = Some v -> dict_set k v data = data.
Proof.
  induction data as [|[k' v'] data IH]; simpl; [discriminate|].
  destruct (str_eqb k' k).
  - intros H; injection H as ->. reflexivity.
  - intros H. rewrite (IH H). reflexivity.
Qed.

Lemma dict_set_present_keys k v data :
  dict_get k data <> None -> dict_keys (dict_set k v data) = dict_keys data.
Proof.
  intros H. rewrite dict_set_keys.
  destruct (existsb _ _) eqn:E; [reflexivity|].
  exfalso. apply H, dict_get_None_keys. intros Hin.
  apply existsb_key_In in Hin. congruence.
Qed.

Lemma dict_set_In k v data kv :
  In kv (dict_set k v data) -> kv = (k, v) \/ In kv data.
Proof.
  induction data as [|[k' v'] data IH]; simpl.
  - intros [H|[]]. left. symmetry. exact H.
  - destruct (str_eqb k' k) eqn:E; simpl.
    + apply str_eqb_eq in E. subst. intros [H|H]; auto.
    + intros [H|H]; auto. destruct (IH H); auto.
Qed.

Lemma book_keyed_set k v book :
  k = value (name v) -> book_keyed book -> book_keyed (dict_set k v book).
Proof.
  intros Ek [Hnd Hk]. split.
  - rewrite dict_set_keys. destruct (existsb _ _) eqn:E; [exact Hnd|].
    assert (N : ~ In k (dict_keys book)).
    { intros Hin. apply existsb_key_In in Hin. congruence. }
    apply NoDup_app; [exact Hnd|repeat constructor; intros []|].
    intros x Hx [<-|[]]. exact (N Hx).
  - apply Forall_forall. intros kv Hin.
    destruct (dict_set_In _ _ _ _ Hin) as [->|Hin']; [exact Ek|].
    rewrite Forall_forall in Hk. apply Hk, Hin'.
Qed.

Lemma book_keyed_get n r book :
  book_keyed book -> dict_get n book = Some r -> value (name r) = n.
Proof.
  intros [_ Hk] H. apply dict_get_In in H.
  rewrite Forall_forall in Hk. symmetry. exact (Hk _ H).
Qed.

(** X6. A book filled by [add_record] holds every record under its own name
    and holds no name twice: [add_record] keeps it so, and [find] then
    returns, for a name, a record of that name or nothing. *)
Theorem add_record_keeps_names (book : AddressBook) (record : RecordT) :
  book_keyed [] /\
  (book_keyed book ->
   book_keyed (exec (add_record record) book)
   /\ (forall n r, eval (find n) book = Ok (Some r) -> value (name r) = n)
   /\ (forall n r, eval (find n) (exec (add_record record) book) = Ok (Some r)
                   -> value (name r) = n)).
Proof.
  split; [split; constructor|].
  intros K.
  assert (K' : book_keyed (exec (add_record record) book))
    by (apply book_keyed_set; [reflexivity|exact K]).
  split; [exact K'|]. split; intros n r H.
  - apply (book_keyed_get n r book K). unfold eval, find, bind, get, ret in H.
    simpl in H. congruence.
  - apply (book_keyed_get n r _ K'). unfold eval, find, bind, get, ret in H.
    simpl in H. congruence.
Qed.

Lemma add_record_keeps_names_witness :
  book_keyed sample_book
  /\ book_keyed (exec (add_record (record_with_birthday "Bob" "01.01.2001"))
                      sample_book).
Proof.
  assert (K : book_keyed sample_book).
  { split.
    - repeat constructor; simpl; intros H;
        repeat (destruct H as [H|H]; [discriminate H|]); exact H.
    - repeat constructor. }
  split; [exact K|].
  exact (proj1 (proj2 (add_record_keeps_names sample_book
                         (record_with_birthday "Bob" "01.01.2001")) K)).
Defined.

(** X7. [add_record] touches one name only: [find] on every other name
    answers as before; a new name goes to the end of the book, after all the
    records it held, and a name the book holds keeps its place, so the book
    does not grow. *)
Theorem add_record_touches_one_name (book : AddressBook) (record : RecordT)
    (n : pystr) :
  (n <> value (name record) ->
   eval (find n) (exec (add_record record) book) = eval (find n) book)
  /\ (eval (find (value (name record))) book = Ok None ->
      exec (add_record record) book = book ++ [(value (name record), record)])
  /\ (eval (find (value (name record))) book <> Ok None ->
      dict_keys (exec (add_record record) book) = dict_keys book).
Proof.
  unfold eval, exec, find, add_record, bind, get, put, ret. simpl.
  split; [|split].
  - intros N. rewrite dict_get_other by exact N. reflexivity.
  - intros H. apply dict_set_absent. congruence.
  - intros H. apply dict_set_present_keys. congruence.
Qed.

Lemma add_record_touches_one_name_witness :
  u "Alice" <> value (name (record_with_birthday "Erin" "01.01.2001"))
  /\ eval (find (value (name (record_with_birthday "Erin" "01.01.2001"))))
          sample_book = Ok None
  /\ eval (find (value (name (record_with_birthday "Bob" "01.01.2001"))))
          sample_book <> Ok None
  /\ eval (find (u "Alice"))
          (exec (add_record (record_with_birthday "Erin" "01.01.2001"))
                sample_book)
     = eval (find (u "Alice")) sample_book
  /\ exec (add_record (record_with_birthday "Erin" "01.01.2001")) sample_book
     = sample_book ++ [(u "Erin", record_with_birthday "Erin" "01.01.2001")]
  /\ dict_keys (exec (add_record (record_with_birthday "Bob" "01.01.2001"))
                     sample_book)
     = dict_keys sample_book.
Proof.
  assert (N : u "Alice"
              <> value (name (record_with_birthday "Erin" "01.01.2001")))
    by discriminate.
  assert (B : eval (find (value (name (record_with_birthday "Bob" "01.01.2001"))))
                sample_book <> Ok None) by discriminate.
  split; [exact N|]. split; [reflexivity|]. split; [exact B|].
  split; [|split].
  - exact (proj1 (add_record_touches_one_name sample_book
                    (record_with_birthday "Erin" "01.01.2001") (u "Alice")) N).
  - exact (proj1 (proj2 (add_record_touches_one_name sample_book
                           (record_with_birthday "Erin" "01.01.2001") [])) eq_refl).
  - exact (proj2 (proj2 (add_record_touches_one_name sample_book
                           (record_with_birthday "Bob" "01.01.2001") [])) B).
Defined.

(* ================================================================== *)
(** ** Further properties: the command handlers                        *)
(* ================================================================== *)

(** The handler [add_contact] on a name and a phone. *)
Lemma add_contact_two name phone book :
  add_contact [name; phone] book
  = if isdigit phone && (len phone =? 10)
    then (Return (inl (u "Contact added/updated.")),
          dict_set name (with_phone (contact_or_new name book) phone) book)
    else (Return (inr (u "Error: Phone number must be 10 digits.")),
          dict_set name (contact_or_new name book) book).
Proof.
  unfold add_contact, input_error, add_contact_func, cbind, pure_outcome,
    call, find, bind, get, ret, cret, on_record, contact_or_new, with_phone.
  simpl.
  destruct (dict_get name book) as [r|] eqn:G; simpl.
  - pose proof (add_phone_cases r phone) as C.
    destruct (isdigit phone && (len phone =? 10)); rewrite C; reflexivity.
  - unfold Field_init.
    pose proof (add_phone_cases (mkRecord (mkField name) [] None) phone) as C.
    destruct (isdigit phone && (len phone =? 10)); rewrite C; simpl;
      rewrite dict_set_set; reflexivity.
Qed.

Lemma add_contact_arity args book :
  List.length args <> 2%nat ->
  exists msg, add_contact args book = (Return (inr (u "Error: " ++ u msg)), book).
Proof.
  intros H. destruct args as [|a [|b [|c args]]]; simpl in H;
    try contradiction; unfold add_contact, input_error, add_contact_func,
    cbind, pure_outcome; simpl; eauto.
Qed.

(** X8. The command [add] with a name and a phone of 10 digits answers
    "Contact added/updated."; the book then holds under the name the record
    it held, or a new record of that name, with the phone added after its
    other phones, and holds under every other name what it held. *)
Theorem add_contact_adds_phone (book : AddressBook) (name phone n : pystr) :
  is_ok (Phone_init phone) = true ->
  let book' := snd (add_contact [name; phone] book) in
  fst (add_contact [name; phone] book)
  = Return (inl (u "Contact added/updated."))
  /\ dict_get name book' = Some (with_phone (contact_or_new name book) phone)
  /\ (n <> name -> dict_get n book' = dict_get n book).
Proof.
  rewrite is_ok_Phone_init. intros E. cbv zeta.
  rewrite add_contact_two, E. simpl.
  split; [reflexivity|]. split; [apply dict_get_set|].
  intros N. apply dict_get_other, N.
Qed.

Lemma add_contact_adds_phone_witness :
  is_ok (Phone_init (u "0501234567")) = true
  /\ u "Alice" <> u "Bob"
  /\ dict_get (u "Bob")
              (snd (add_contact [u "Bob"; u "0501234567"] sample_book))
     = Some (with_phone (contact_or_new (u "Bob") sample_book) (u "0501234567"))
  /\ dict_get (u "Alice")
              (snd (add_contact [u "Bob"; u "0501234567"] sample_book))
     = dict_get (u "Alice") sample_book.
Proof.
  assert (N : u "Alice" <> u "Bob") by discriminate.
  split; [reflexivity|]. split; [exact N|].
  pose proof (add_contact_adds_phone sample_book (u "Bob") (u "0501234567")
                (u "Alice") eq_refl) as T.
  split; [exact (proj1 (proj2 T))|exact (proj2 (proj2 T) N)].
Defined.

(** X9. The command [add] with a name and a phone that is not 10 digits
    answers "Error: Phone number must be 10 digits."; a book that holds the
    name is left as it was, but a book that does not hold it now holds, at
    its end, a record of that name without a phone: the record is put in the
    book before the phone is checked. *)
Theorem add_contact_bad_phone (book : AddressBook) (name phone : pystr) :
  is_ok (Phone_init phone) = false ->
  fst (add_contact [name; phone] book)
  = Return (inr (u "Error: Phone number must be 10 digits."))
  /\ (dict_get name book <> None ->
      snd (add_contact [name; phone] book) = book)
  /\ (dict_get name book = None ->
      snd (add_contact [name; phone] book)
      = book ++ [(name, mkRecord (mkField name) [] None)]).
Proof.
  rewrite is_ok_Phone_init. intros E.
  rewrite add_contact_two, E. simpl. split; [reflexivity|].
  unfold contact_or_new. split; intros H.
  - destruct (dict_get name book) as [r|] eqn:G; [|contradiction].
    apply dict_set_same, G.
  - rewrite H. apply dict_set_absent, H.
Qed.

Lemma add_contact_bad_phone_witness :
  is_ok (Phone_init (u "12345")) = false
  /\ dict_get (u "Bob") sample_book <> None
  /\ dict_get (u "Erin") sample_book = None
  /\ snd (add_contact [u "Bob"; u "12345"] sample_book) = sample_book
  /\ snd (add_contact [u "Erin"; u "12345"] sample_book)
     = sample_book ++ [(u "Erin", mkRecord (mkField (u "Erin")) [] None)].
Proof.
  assert (B : dict_get (u "Bob") sample_book <> None) by discriminate.
  split; [reflexivity|]. split; [exact B|]. split; [reflexivity|]. split.
  - exact (proj1 (proj2 (add_contact_bad_phone sample_book (u "Bob")
                           (u "12345") eq_refl)) B).
  - exact (proj2 (proj2 (add_contact_bad_phone sample_book (u "Erin")
                           (u "12345") eq_refl)) eq_refl).
Defined.

Lemma record_ok_contact_or_new name book :
  forallb record_ok (dict_values book) = true ->
  record_ok (contact_or_new name book) = true.
Proof.
  intros H. unfold contact_or_new.
  destruct (dict_get name book) as [r|] eqn:G; [|reflexivity].
  rewrite forallb_forall in H. apply H.
  apply dict_get_In in G. unfold dict_values.
  apply in_map_iff. exists (name, r). auto.
Qed.

Lemma name_contact_or_new nm book :
  book_keyed book -> value (name (contact_or_new nm book)) = nm.
Proof.
  intros K. unfold contact_or_new.
  destruct (dict_get nm book) as [r|] eqn:G; [|reflexivity].
  apply (book_keyed_get _ _ _ K G).
Qed.

Lemma forallb_values_set (f : RecordT -> bool) k v book :
  f v = true -> forallb f (dict_values book) = true ->
  forallb f (dict_values (dict_set k v book)) = true.
Proof.
  intros Hv H. rewrite forallb_forall in *. intros r Hin.
  unfold dict_values in Hin. apply in_map_iff in Hin.
  destruct Hin as ([k' r'] & <- & Hin). simpl.
  destruct (dict_set_In _ _ _ _ Hin) as [E|Hin'].
  - injection E as _ ->. exact Hv.
  - apply H. unfold dict_values. apply in_map_iff. exists (k', r'). auto.
Qed.

(** X10. The command [add] never raises: whatever its arguments, it answers
    a text.  With other than two arguments the text is that of an error and
    the book is left as it was.  Whatever it answers, it keeps the book
    well-formed: every record under its own name, no name twice, and every
    phone of every record a string of 10 digits. *)
Theorem add_contact_never_raises (book : AddressBook) (args : list pystr) :
  (exists text, fst (add_contact args book) = Return text)
  /\ (List.length args <> 2%nat ->
      exists msg,
        add_contact args book = (Return (inr (u "Error: " ++ u msg)), book))
  /\ (book_keyed book -> book_keyed (snd (add_contact args book)))
  /\ (forallb record_ok (dict_values book) = true ->
      forallb record_ok (dict_values (snd (add_contact args book))) = true).
Proof.
  destruct (Nat.eq_dec (List.length args) 2) as [L|L].
  - destruct args as [|nm [|phone [|c args]]]; try discriminate.
    rewrite add_contact_two.
    split.
    { destruct (isdigit phone && (len phone =? 10)); simpl;
        eexists; reflexivity. }
    split; [intros X; exfalso; apply X; reflexivity|].
    split.
    + intros K. pose proof (name_contact_or_new nm book K) as N.
      destruct (isdigit phone && (len phone =? 10)); simpl;
        apply book_keyed_set; auto.
    + intros H. pose proof (record_ok_contact_or_new nm book H) as R.
      destruct (isdigit phone && (len phone =? 10)) eqn:E; simpl;
        apply forallb_values_set; auto.
      pose proof (record_ok_add_phone _ phone R) as R'.
      unfold exec in R'.
      pose proof (add_phone_cases (contact_or_new nm book) phone) as C.
      rewrite E in C. rewrite C in R'. exact R'.
  - destruct (add_contact_arity args book L) as [msg E]. rewrite E. simpl.
    split; [eauto|]. split; [eauto|]. auto.
Qed.

Lemma add_contact_never_raises_witness :
  List.length [u "Bob"] <> 2%nat
  /\ forallb record_ok (dict_values sample_book) = true
  /\ (exists msg, add_contact [u "Bob"] sample_book
                  = (Return (inr (u "Error: " ++ u msg)), sample_book))
  /\ forallb record_ok
       (dict_values (snd (add_contact [u "Erin"; u "12345"] sample_book))) = true.
Proof.
  assert (L : List.length [u "Bob"] <> 2%nat) by discriminate.
  split; [exact L|]. split; [reflexivity|]. split.
  - exact (proj1 (proj2 (add_contact_never_raises sample_book [u "Bob"])) L).
  - exact (proj2 (proj2 (proj2 (add_contact_never_raises sample_book
                                  [u "Erin"; u "12345"]))) eq_refl).
Defined.

Lemma show_phone_cases args book :
  show_phone args book
  = (match args with
     | [] => Return (inr (u "Error: list index out of range"))
     | nm :: _ =>
         match dict_get nm book with
         | Some record => Return (inl (inl record))
         | None => Return (inl (inr (u "Contact not found.")))
         end
     end, book).
Proof.
  unfold show_phone, input_error, show_phone_func.
  destruct args as [|nm rest]; [reflexivity|].
  unfold cbind, call, find, bind, get, ret, cret. simpl.
  destruct (dict_get nm book); reflexivity.
Qed.

(** X11. The command [phone] never raises and never changes the book.  With
    no argument it answers the text "Error: list index out of range"; with
    arguments it answers the record the book holds under the first of them,
    whatever the book, and the text "Contact not found." when the book holds
    none.  After a command [add] that added a phone, it answers for that
    name a record whose last phone is the phone added. *)
Theorem show_phone_after_add (book : AddressBook) (args : list pystr)
    (nm phone : pystr) :
  snd (show_phone args book) = book
  /\ (exists answer, fst (show_phone args book) = Return answer)
  /\ show_phone [] book
     = (Return (inr (u "Error: list index out of range")), book)
  /\ (forall record,
        dict_get nm book = Some record ->
        show_phone (nm :: args) book = (Return (inl (inl record)), book))
  /\ (dict_get nm book = None ->
      show_phone (nm :: args) book
      = (Return (inl (inr (u "Contact not found."))), book))
  /\ (is_ok (Phone_init phone) = true ->
      exists record,
        fst (show_phone (nm :: args) (snd (add_contact [nm; phone] book)))
        = Return (inl (inl record))
        /\ record = with_phone (contact_or_new nm book) phone
        /\ last (phones record) (mkField []) = mkField phone).
Proof.
  rewrite !show_phone_cases. simpl.
  split; [reflexivity|]. split; [|split; [|split; [|split]]].
  - destruct args as [|a rest]; [eauto|]. destruct (dict_get a book); eauto.
  - reflexivity.
  - intros record ->. reflexivity.
  - intros ->. reflexivity.
  - rewrite is_ok_Phone_init. intros E.
    rewrite add_contact_two, E. simpl. rewrite dict_get_set.
    eexists. split; [reflexivity|]. split; [reflexivity|].
    unfold with_phone. simpl. apply last_last.
Qed.

Lemma show_phone_after_add_witness :
  dict_get (u "Erin") sample_book = None
  /\ dict_get (u "Bob") sample_book
     = Some (record_with_birthday "Bob" "15.06.1985")
  /\ is_ok (Phone_init (u "0501234567")) = true
  /\ show_phone [u "Erin"] sample_book
     = (Return (inl (inr (u "Contact not found."))), sample_book)
  /\ show_phone [u "Bob"] sample_book
     = (Return (inl (inl (record_with_birthday "Bob" "15.06.1985"))),
        sample_book)
  /\ exists record,
       fst (show_phone [u "Erin"]
              (snd (add_contact [u "Erin"; u "0501234567"] sample_book)))
       = Return (inl (inl record))
       /\ record
          = with_phone (contact_or_new (u "Erin") sample_book) (u "0501234567")
       /\ last (phones record) (mkField []) = mkField (u "0501234567").
Proof.
  split; [reflexivity|]. split; [reflexivity|]. split; [reflexivity|].
  pose proof (show_phone_after_add sample_book [] (u "Erin") (u "0501234567"))
    as T.
  pose proof (show_phone_after_add sample_book [] (u "Bob") (u "0501234567"))
    as B.
  split; [exact (proj1 (proj2 (proj2 (proj2 (proj2 T)))) eq_refl)|].
  split; [exact (proj1 (proj2 (proj2 (proj2 B))) _ eq_refl)|].
  exact (proj2 (proj2 (proj2 (proj2 (proj2 T)))) eq_refl).
Defined.

Lemma birthdays_cases today book :
  valid_date today = true ->
  if forallb (schedulable today) (dict_values book)
  then birthdays today book
       = (Return (inl (flat_map (entries_of today) (dict_values book))), book)
  else exists msg,
      birthdays today book = (Return (inr (u "Error: " ++ u msg)), book).
Proof.
  intros Vt. pose proof (get_upcoming_birthdays_result today book Vt) as R.
  pose proof (for_each_lift_state (S:=AddressBook) (dict_values book)
                (upcoming_body today) [] book) as St.
  unfold birthdays, input_error, birthdays_func, call.
  unfold eval in R. rewrite get_upcoming_birthdays_unfold in *.
  destruct (for_each (dict_values book) [] _ book) as [r s'] eqn:F.
  simpl in St, R. subst s'.
  destruct (forallb (schedulable today) (dict_values book)).
  - rewrite R. reflexivity.
  - destruct R as [msg ->]. simpl. eauto.
Qed.

(** The answer of [birthdays] is the answer of the query, or "Error: " and
    the text of the ValueError the query raised. *)
Lemma birthdays_of_query today book :
  birthdays today book
  = (match eval (get_upcoming_birthdays today) book with
     | Ok entries => Return (inl entries)
     | Raise (ValueError msg) => Return (inr (u "Error: " ++ u msg))
     | Raise e => Throw (Core e)
     end, book).
Proof.
  pose proof (for_each_lift_state (S:=AddressBook) (dict_values book)
                (upcoming_body today) [] book) as St.
  unfold birthdays, input_error, birthdays_func, call, eval.
  rewrite get_upcoming_birthdays_unfold in *.
  destruct (for_each (dict_values book) [] _ book) as [r s'] eqn:F.
  simpl in St. subst s'. destruct r as [entries|[msg|msg]]; reflexivity.
Qed.

(** A date whose year and month exist, and which is no date, has no such
    day: that is what the constructor says. *)
Lemma date_new_day_message y m d :
  1 <= y <= 9999 -> 1 <= m <= 12 -> valid_date (mkdate y m d) = false ->
  date_new y m d = Raise (ValueError "day is out of range for month").
Proof.
  intros Hy Hm V. unfold valid_date in V. cbn [year month day] in V.
  unfold date_new. unfold check_date_fields in *.
  assert (E1 : (MINYEAR <=? y) && (y <=? MAXYEAR) = true).
  { apply andb_true_intro. unfold MINYEAR, MAXYEAR.
    split; apply Z.leb_le; lia. }
  assert (E2 : (1 <=? m) && (m <=? 12) = true).
  { apply andb_true_intro. split; apply Z.leb_le; lia. }
  rewrite E1, E2 in *. cbn [negb] in *.
  destruct (negb _); [reflexivity|discriminate V].
Qed.

(** Before the year 9999, a record whose birthday was checked and which the
    scheduler cannot treat stops the loop with that message. *)
Lemma upcoming_body_day_message today r acc :
  valid_date today = true -> year today < 9999 ->
  record_ok r = true -> schedulable today r = false ->
  upcoming_body today r acc
  = Raise (ValueError "day is out of range for month").
Proof.
  intros Vt Hy Hr. pose proof (record_ok_birthday_date r Hr) as B.
  pose proof (proj1 (valid_date_spec today) Vt) as (Yt & _ & _).
  unfold schedulable, upcoming_body, birthday_date in *.
  destruct (birthday r) as [b|]; [|discriminate].
  destruct B as (d & Hd & Vd & _).
  destruct (strptime (value b)) as [d'|e]; [|discriminate].
  injection Hd as ->.
  pose proof (proj1 (valid_date_spec d) Vd) as (_ & Md & _).
  unfold rolled_occurrence. cbn [rbind].
  pose proof (replace_year_occurrence d (year today)) as R1.
  unfold occurrence_in in *.
  destruct (valid_date (mkdate (year today) (month d) (day d))) eqn:V0.
  - destruct R1 as (-> & V0' & _). cbn [rbind].
    rewrite (date_lt_toordinal _ _ V0 Vt).
    destruct (toordinal _ <? toordinal today); [|discriminate].
    unfold replace_year. cbn [month day].
    destruct (valid_date (mkdate (year today + 1) (month d) (day d))) eqn:V1;
      [discriminate|].
    assert (Y1 : 1 <= year today + 1 <= 9999) by lia.
    intros _. rewrite (date_new_day_message _ _ _ Y1 Md V1).
    reflexivity.
  - intros _. unfold replace_year.
    rewrite (date_new_day_message _ _ _ Yt Md V0). reflexivity.
Qed.

Lemma upcoming_loop_day_message today (s : AddressBook) records :
  valid_date today = true -> year today < 9999 ->
  forallb record_ok records = true ->
  forallb (schedulable today) records = false ->
  forall acc,
    fst (for_each records acc
           (fun record upcoming => lift (upcoming_body today record upcoming)) s)
    = Raise (ValueError "day is out of range for month").
Proof.
  intros Vt Hy. induction records as [|r rs IH]; intros Ho Hs acc;
    [discriminate|].
  simpl in Ho. apply andb_prop in Ho. destruct Ho as [Hr Hrs].
  simpl in Hs. simpl. unfold bind, lift at 1.
  destruct (schedulable today r) eqn:Sr.
  - rewrite (upcoming_body_schedulable _ _ _ Vt Sr). apply IH; assumption.
  - rewrite (upcoming_body_day_message _ _ acc Vt Hy Hr Sr). reflexivity.
Qed.

(** X12. The command [birthdays] never raises and never changes the book.
    When every birthday has its occurrence it answers the list of the
    entries.  When one has none, [get_upcoming_birthdays] raises ValueError
    and the command answers the text "Error: " followed by the message of
    that error; [display_birthdays], given that text where it expects the
    list, raises TypeError and prints nothing.  In a book of records whose
    fields passed the checks of their constructors, before the year 9999,
    the record without occurrence is a contact born on 29 February, in a
    year without that day, and the text is
    "Error: day is out of range for month". *)
Theorem birthdays_error_is_not_displayed (today : date) (book : AddressBook)
    (out : list event) :
  valid_date today = true ->
  snd (birthdays today book) = book
  /\ (forallb (schedulable today) (dict_values book) = true ->
      fst (birthdays today book)
      = Return (inl (flat_map (entries_of today) (dict_values book))))
  /\ (forallb (schedulable today) (dict_values book) = false ->
      exists msg,
        eval (get_upcoming_birthdays today) book = Raise (ValueError msg)
        /\ fst (birthdays today book) = Return (inr (u "Error: " ++ u msg))
        /\ display_birthdays (inr (u "Error: " ++ u msg)) out
           = (Throw (TypeError "string indices must be integers, not 'str'"),
              out))
  /\ (forallb (schedulable today) (dict_values book) = false ->
      year today < 9999 ->
      forallb record_ok (dict_values book) = true ->
      eval (get_upcoming_birthdays today) book
      = Raise (ValueError "day is out of range for month")
      /\ fst (birthdays today book)
         = Return (inr (u "Error: day is out of range for month"))
      /\ display_birthdays (inr (u "Error: day is out of range for month")) out
         = (Throw (TypeError "string indices must be integers, not 'str'"),
            out)).
Proof.
  intros Vt. rewrite birthdays_of_query. cbn [fst snd].
  pose proof (get_upcoming_birthdays_result today book Vt) as R.
  split; [reflexivity|]. split; [|split].
  - intros E. rewrite E in R. rewrite R. reflexivity.
  - intros E. rewrite E in R. destruct R as [msg R]. exists msg.
    rewrite R. split; [reflexivity|]. split; reflexivity.
  - intros E Hy Ho.
    assert (Q : eval (get_upcoming_birthdays today) book
                = Raise (ValueError "day is out of range for month")).
    { unfold eval. rewrite get_upcoming_birthdays_unfold.
      apply upcoming_loop_day_message; assumption. }
    rewrite Q. split; [reflexivity|]. split; reflexivity.
Qed.

Lemma birthdays_error_is_not_displayed_witness :
  valid_date saturday_25_february_2023 = true
  /\ forallb (schedulable saturday_25_february_2023)
             (dict_values leap_day_book) = false
  /\ year saturday_25_february_2023 < 9999
  /\ forallb record_ok (dict_values leap_day_book) = true
  /\ forallb (schedulable monday_10_june_2024) (dict_values sample_book) = true
  /\ (exists msg,
        eval (get_upcoming_birthdays saturday_25_february_2023) leap_day_book
        = Raise (ValueError msg)
        /\ fst (birthdays saturday_25_february_2023 leap_day_book)
           = Return (inr (u "Error: " ++ u msg))
        /\ display_birthdays (inr (u "Error: " ++ u msg)) []
           = (Throw (TypeError "string indices must be integers, not 'str'"),
              []))
  /\ fst (birthdays saturday_25_february_2023 leap_day_book)
     = Return (inr (u "Error: day is out of range for month"))
  /\ fst (birthdays monday_10_june_2024 sample_book)
     = Return (inl (flat_map (entries_of monday_10_june_2024)
                             (dict_values sample_book))).
Proof.
  assert (Y : year saturday_25_february_2023 < 9999) by (simpl; lia).
  split; [reflexivity|]. split; [reflexivity|]. split; [exact Y|].
  split; [reflexivity|]. split; [reflexivity|].
  pose proof (birthdays_error_is_not_displayed
                saturday_25_february_2023 leap_day_book [] eq_refl) as T.
  split; [exact (proj1 (proj2 (proj2 T)) eq_refl)|].
  split; [exact (proj1 (proj2 (proj2 (proj2 (proj2 T)) eq_refl Y eq_refl)))|].
  exact (proj1 (proj2 (birthdays_error_is_not_displayed
                         monday_10_june_2024 sample_book [] eq_refl))
           eq_refl).
Defined.

(* ================================================================== *)
(** ** Further properties: the text of a record                        *)
(* ================================================================== *)

Lemma app_same_length {A} (x y a b : list A) :
  List.length x = List.length y -> x ++ a = y ++ b -> x = y /\ a = b.
Proof.
  revert y. induction x as [|c x IH]; intros [|d y] L E;
    try discriminate; [auto|].
  simpl in L, E. injection E as -> E. injection L as L.
  destruct (IH y L E) as [-> ->]. auto.
Qed.

(** Two texts that hold no comma, each followed by nothing or by a text that
    starts with a comma. *)
Lemma split_at_comma (l1 l2 b1 b2 : pystr) :
  Forall (fun c => c <> 44) l1 -> Forall (fun c => c <> 44) l2 ->
  (b1 = [] \/ exists t, b1 = 44 :: t) -> (b2 = [] \/ exists t, b2 = 44 :: t) ->
  l1 ++ b1 = l2 ++ b2 -> l1 = l2 /\ b1 = b2.
Proof.
  intros F1. revert l2. induction F1 as [|c l1 Hc F1 IH]; intros l2 F2 B1 B2 E.
  - destruct F2 as [|d l2 Hd F2]; [auto|].
    simpl in E. destruct B1 as [->|[t ->]]; [discriminate|].
    injection E as E _. congruence.
  - destruct F2 as [|d l2 Hd F2].
    + simpl in E. destruct B2 as [->|[t ->]]; [discriminate|].
      injection E as E _. congruence.
    + simpl in E. injection E as -> E.
      destruct (IH l2 F2 B1 B2 E) as [-> ->]. auto.
Qed.

Lemma isdigit_cp_not_comma c : isdigit_cp c = true -> c <> 44.
Proof. intros H ->. discriminate H. Qed.

Lemma join_no_comma (l : list pystr) :
  Forall (fun p => Forall (fun c => isdigit_cp c = true) p) l ->
  Forall (fun c => c <> 44) (join (u "; ") l).
Proof.
  induction 1 as [|p l Hp Hl IH]; [constructor|].
  assert (Fp : Forall (fun c => c <> 44) p).
  { revert Hp. apply Forall_impl. intros c. apply isdigit_cp_not_comma. }
  simpl. destruct l as [|q l]; [exact Fp|].
  apply Forall_app. split; [exact Fp|].
  change (u "; " ++ join (u "; ") (q :: l))
    with (59 :: 32 :: join (u "; ") (q :: l)).
  constructor; [discriminate|]. constructor; [discriminate|]. exact IH.
Qed.

Lemma join_length_10_inj (l1 : list pystr) :
  forall l2,
    Forall (fun p => List.length p = 10%nat) l1 ->
    Forall (fun p => List.length p = 10%nat) l2 ->
    join (u "; ") l1 = join (u "; ") l2 -> l1 = l2.
Proof.
  induction l1 as [|x l1 IH]; intros l2 F1 F2 E.
  - destruct l2 as [|y l2]; [reflexivity|].
    inversion F2 as [|? ? Ly _]; subst. simpl in E.
    destruct l2; [subst y; discriminate Ly|].
    destruct y; [discriminate Ly|discriminate E].
  - destruct l2 as [|y l2].
    + inversion F1 as [|? ? Lx _]; subst. simpl in E.
      destruct l1; [subst x; discriminate Lx|].
      destruct x; [discriminate Lx|discriminate E].
    + inversion F1 as [|? ? Lx F1']; subst.
      inversion F2 as [|? ? Ly F2']; subst.
      destruct l1 as [|x' l1]; destruct l2 as [|y' l2];
        cbn [join] in E.
      * rewrite E. reflexivity.
      * exfalso. apply (f_equal (@List.length Z)) in E.
        rewrite !length_app in E.
        change (List.length (u "; ")) with 2%nat in E. lia.
      * exfalso. apply (f_equal (@List.length Z)) in E.
        rewrite !length_app in E.
        change (List.length (u "; ")) with 2%nat in E. lia.
      * destruct (app_same_length _ _ _ _ (eq_trans Lx (eq_sym Ly)) E)
          as [-> E'].
        apply app_inv_head in E'. rewrite (IH _ F1' F2' E'). reflexivity.
Qed.

Lemma map_value_inj (l1 l2 : list Field) :
  map value l1 = map value l2 -> l1 = l2.
Proof.
  revert l2. induction l1 as [|[x] l1 IH]; intros [|[y] l2] E;
    try discriminate; [reflexivity|].
  simpl in E. injection E as -> E. rewrite (IH _ E). reflexivity.
Qed.

Lemma record_ok_phones r :
  record_ok r = true ->
  Forall (fun p => Forall (fun c => isdigit_cp c = true) p)
         (map value (phones r))
  /\ Forall (fun p => List.length p = 10%nat) (map value (phones r)).
Proof.
  unfold record_ok. intros H. apply andb_prop in H. destruct H as [H _].
  rewrite forallb_forall in H.
  split; apply Forall_forall; intros p Hin; apply in_map_iff in Hin;
    destruct Hin as (f & <- & Hin); specialize (H f Hin);
    apply isdigit_len_10 in H; destruct H as [L F]; [exact F|].
  unfold len in L. lia.
Qed.

(** X13. The text of a record whose fields passed the checks of their
    constructors shows its phones and its birthday without ambiguity: two
    such records of the same name that have the same text have the same
    phones, in the same order, and the same birthday or none. *)
Theorem Record_str_shows_fields (r1 r2 : RecordT) :
  record_ok r1 = true -> record_ok r2 = true ->
  name r1 = name r2 -> Record_str r1 = Record_str r2 -> r1 = r2.
Proof.
  intros O1 O2 En E.
  destruct (record_ok_phones r1 O1) as [D1 L1].
  destruct (record_ok_phones r2 O2) as [D2 L2].
  unfold Record_str in E. rewrite En in E.
  apply app_inv_head in E. apply app_inv_head in E. apply app_inv_head in E.
  apply split_at_comma in E.
  - destruct E as [EJ EB].
    apply join_length_10_inj in EJ; [|assumption|assumption].
    apply map_value_inj in EJ.
    destruct r1 as [n1 p1 b1], r2 as [n2 p2 b2]. simpl in *. subst.
    f_equal. destruct b1 as [[v1]|], b2 as [[v2]|];
      try discriminate; [|reflexivity].
    simpl in EB. injection EB as ->. reflexivity.
  - apply join_no_comma, D1.
  - apply join_no_comma, D2.
  - destruct (birthday r1); [right; eexists; reflexivity|left; reflexivity].
  - destruct (birthday r2); [right; eexists; reflexivity|left; reflexivity].
Qed.

Lemma Record_str_shows_fields_witness :
  record_ok (exec (add_phone (u "0501234567"))
                  (record_with_birthday "Bob" "15.06.1985")) = true
  /\ Record_str (exec (add_phone (u "0501234567"))
                      (record_with_birthday "Bob" "15.06.1985"))
     = u "Contact name: Bob, phones: 0501234567, birthday: 15.06.1985"
  /\ exec (add_phone (u "0501234567")) (record_with_birthday "Bob" "15.06.1985")
     = exec (add_birthday (u "15.06.1985"))
            (exec (add_phone (u "0501234567")) (record_without_birthday "Bob")).
Proof.
  split; [reflexivity|]. split; [reflexivity|].
  exact (Record_str_shows_fields
           (exec (add_phone (u "0501234567"))
                 (record_with_birthday "Bob" "15.06.1985"))
           (exec (add_birthday (u "15.06.1985"))
                 (exec (add_phone (u "0501234567"))
                       (record_without_birthday "Bob")))
           eq_refl eq_refl eq_refl eq_refl).
Defined.

(* ================================================================== *)
(** ** Further properties: the command line                            *)
(* ================================================================== *)

Lemma is_word_chars w :
  is_word w = true ->
  w <> [] /\ forallb (fun c => negb (isspace_cp c)) w = true.
Proof. destruct w; [discriminate|]. intros H. split; [discriminate|exact H]. Qed.

Lemma split_words_word x :
  forall w s,
    forallb (fun c => negb (isspace_cp c)) x = true ->
    split_words w (x ++ s) = split_words (w ++ x) s.
Proof.
  induction x as [|c x IH]; intros w s H.
  - rewrite app_nil_r. reflexivity.
  - simpl in H. apply andb_prop in H. destruct H as [Hc Hx].
    apply negb_true_iff in Hc. simpl. rewrite Hc.
    rewrite (IH _ _ Hx), <- app_assoc. reflexivity.
Qed.

Lemma split_words_are_words s :
  forall w, w = [] \/ is_word w = true ->
            Forall (fun x => is_word x = true) (split_words w s).
Proof.
  induction s as [|c s IH]; intros w Hw; simpl.
  - destruct w; [constructor|]. destruct Hw as [Hw|Hw]; [discriminate|].
    repeat constructor. exact Hw.
  - destruct (isspace_cp c) eqn:Ec.
    + destruct w as [|a w]; [apply IH; auto|].
      destruct Hw as [Hw|Hw]; [discriminate|].
      constructor; [exact Hw|apply IH; auto].
    + apply IH. right. destruct w as [|a w]; simpl.
      * rewrite Ec. reflexivity.
      * destruct Hw as [Hw|Hw]; [discriminate|]. simpl in Hw.
        apply andb_prop in Hw. destruct Hw as [Ha Hw].
        rewrite Ha, forallb_app, Hw. simpl. rewrite Ec. reflexivity.
Qed.

Lemma split_join_words ws :
  Forall (fun x => is_word x = true) ws -> str_split (join (u " ") ws) = ws.
Proof.
  unfold str_split. induction 1 as [|x ws Hx Hws IH]; [reflexivity|].
  destruct (is_word_chars x Hx) as [Ne Hc]. simpl.
  destruct ws as [|y ws].
  - rewrite <- (app_nil_r x) at 1. rewrite split_words_word by exact Hc.
    simpl. destruct x; [contradiction|reflexivity].
  - rewrite split_words_word by exact Hc. simpl.
    destruct x; [contradiction|]. f_equal. exact IH.
Qed.

Lemma split_words_nil s :
  forall w, split_words w s = [] <-> w = [] /\ forallb isspace_cp s = true.
Proof.
  induction s as [|c s IH]; intros w; simpl.
  - destruct w; split; try discriminate; auto. intros [H _]; discriminate.
  - destruct (isspace_cp c) eqn:Ec; simpl.
    + destruct w as [|a w].
      * rewrite IH. tauto.
      * split; [discriminate|]. intros [H _]; discriminate.
    + rewrite IH. split; [|intros [_ H]; discriminate].
      intros [H _]. destruct w; discriminate.
Qed.



Lemma lstrip_ws_word w : is_word w = true -> lstrip_ws w = w.
Proof.
  destruct w as [|c w]; [discriminate|]. simpl. intros H.
  apply andb_prop in H. destruct H as [H _]. apply negb_true_iff in H.
  rewrite H. reflexivity.
Qed.

Lemma is_word_rev w : is_word w = true -> is_word (rev w) = true.
Proof.
  intros H. destruct (is_word_chars w H) as [Ne Hc].
  destruct (rev w) as [|c x] eqn:E.
  - apply (f_equal (@rev Z)) in E. rewrite rev_involutive in E. contradiction.
  - rewrite <- E. unfold is_word. rewrite E, <- E.
    rewrite forallb_forall in *. intros a Ha. apply Hc, in_rev, Ha.
Qed.

Lemma str_strip_word w : is_word w = true -> str_strip w = w.
Proof.
  intros H. unfold str_strip. rewrite (lstrip_ws_word w H).
  rewrite (lstrip_ws_word _ (is_word_rev w H)). apply rev_involutive.
Qed.

(** X14. [parse_input] reads a line word by word: on the words of a command
    joined by spaces it returns the first word in lower case and the others
    as they are, so commands are read without regard to case and arguments
    are not; on any line every argument it returns is a word, not empty and
    without whitespace; and it raises exactly on the lines that are empty or
    all whitespace. *)
Theorem parse_input_reads_words (str_lower : pystr -> pystr)
    (cmd : pystr) (args : list pystr) (line : pystr) :
  (Forall (fun x => is_word x = true) (cmd :: args) ->
   parse_input str_lower (join (u " ") (cmd :: args))
   = Return (str_lower cmd, args))
  /\ (forall c a, parse_input str_lower line = Return (c, a) ->
                  Forall (fun x => is_word x = true) a)
  /\ ((exists e, parse_input str_lower line = Throw e)
      <-> forallb isspace_cp line = true).
Proof.
  split; [|split].
  - intros F. unfold parse_input. rewrite (split_join_words _ F).
    inversion F; subst. rewrite str_strip_word by assumption. reflexivity.
  - intros c a. unfold parse_input.
    pose proof (split_words_are_words line [] (or_introl eq_refl)) as W.
    fold (str_split line) in W.
    destruct (str_split line) as [|x xs]; [discriminate|].
    intros H; injection H as _ <-. inversion W; assumption.
  - unfold parse_input.
    pose proof (split_words_nil line []) as N. fold (str_split line) in N.
    destruct (str_split line) as [|x xs].
    + split; [intros _; apply N; reflexivity|eauto].
    + split; [intros [e H]; discriminate|].
      intros H. assert (x :: xs = []) by (apply N; auto). discriminate.
Qed.

Lemma parse_input_reads_words_witness :
  Forall (fun x => is_word x = true) [u "ADD"; u "Bob"; u "0501234567"]
  /\ parse_input ascii_lower (u "ADD Bob 0501234567")
     = Return (u "add", [u "Bob"; u "0501234567"]).
Proof.
  assert (F : Forall (fun x => is_word x = true)
                     [u "ADD"; u "Bob"; u "0501234567"])
    by (repeat constructor).
  split; [exact F|].
  exact (proj1 (parse_input_reads_words ascii_lower (u "ADD")
                  [u "Bob"; u "0501234567"] []) F).
Defined.

(* ================================================================== *)
(** ** Further properties: the loop of [main]                          *)
(* ================================================================== *)

Lemma for_all_display {A} (f : A -> pystr) (xs : list A) :
  forall out,
    for_all xs (fun x => display_message (f x)) out
    = (Return tt, out ++ map (fun x => Printed (f x)) xs).
Proof.
  induction xs as [|x xs IH]; intros out; simpl.
  - rewrite app_nil_r. reflexivity.
  - unfold cbind, display_message at 1. rewrite IH, <- app_assoc. reflexivity.
Qed.

(** [display_contacts] on a list prints and returns. *)
Lemma display_contacts_list records out :
  exists evs, display_contacts (inl records) out = (Return tt, out ++ evs).
Proof.
  destruct records as [|r rs]; [eexists; reflexivity|].
  unfold display_contacts. rewrite for_all_display. eauto.
Qed.

Lemma show_all_cases book :
  show_all book = (Return (inl (dict_values book)), book).
Proof. reflexivity. Qed.

Lemma birthdays_state today book : snd (birthdays today book) = book.
Proof.
  pose proof (for_each_lift_state (S:=AddressBook) (dict_values book)
                (upcoming_body today) [] book) as St.
  unfold birthdays, input_error, birthdays_func, call.
  rewrite get_upcoming_birthdays_unfold.
  destruct (for_each (dict_values book) [] _ book) as [r s'].
  simpl in St. subst s'. destruct r as [a|[msg|msg]]; reflexivity.
Qed.

(** Without a birthday in the book the loop of the query appends nothing. *)
Lemma upcoming_loop_no_birthday today (s : AddressBook) records :
  forallb (fun r => match birthday r with None => true | Some _ => false end)
          records = true ->
  forall acc,
    for_each records acc
      (fun record upcoming => lift (upcoming_body today record upcoming)) s
    = (Ok acc, s).
Proof.
  induction records as [|r rs IH]; intros H acc; [reflexivity|].
  simpl in H. apply andb_prop in H. destruct H as [Hr Hrs].
  simpl. unfold bind, lift at 1, upcoming_body.
  destruct (birthday r); [discriminate|]. apply IH, Hrs.
Qed.

Lemma cli_book_no_birthday book :
  cli_book book ->
  forallb (fun r => match birthday r with None => true | Some _ => false end)
          (dict_values book) = true.
Proof.
  intros [_ H]. rewrite forallb_forall in *. intros r Hin.
  specialize (H r Hin). unfold cli_record in H.
  apply andb_prop in H. destruct H as [H _].
  apply andb_prop in H. destruct H as [_ H]. exact H.
Qed.

Lemma birthdays_cli_book today book :
  cli_book book -> birthdays today book = (Return (inl []), book).
Proof.
  intros K. unfold birthdays, input_error, birthdays_func, call.
  rewrite get_upcoming_birthdays_unfold.
  rewrite (upcoming_loop_no_birthday today book _ (cli_book_no_birthday _ K)).
  reflexivity.
Qed.



Section MainLoop.
Variable str_lower : pystr -> pystr.



End MainLoop.


(** X16. In a run of [main] the command [birthdays] finds nobody: on a book
    as the commands can make it, where no record has a birthday, it prints
    "No upcoming birthdays.", changes nothing and goes on. *)
Theorem birthdays_command_finds_none (str_lower : pystr -> pystr)
    (today : date) (line : pystr) (args : list pystr) (w : World) :
  cli_book (fst w) ->
  parse_input str_lower (str_strip line) = Return (u "birthdays", args) ->
  main_body str_lower today line w
  = (Return false, (fst w, snd w ++ [Printed (u "No upcoming birthdays.")])).
Proof.
  intros K P. destruct w as [book out]. simpl in K. unfold main_body.
  destruct (str_strip line) as [|c t] eqn:Es; [discriminate P|].
  unfold cbind at 1, pure_outcome at 1. rewrite P. simpl.
  unfold cbind at 1, in_book at 1. cbn [fst].
  rewrite (birthdays_cli_book today book K). reflexivity.
Qed.

Lemma birthdays_command_finds_none_witness :
  cli_book (snd (add_contact [u "Bob"; u "0501234567"] []))
  /\ parse_input ascii_lower (str_strip (u " Birthdays "))
     = Return (u "birthdays", [])
  /\ main_body ascii_lower monday_10_june_2024 (u " Birthdays ")
       (snd (add_contact [u "Bob"; u "0501234567"] []), [])
     = (Return false,
        (snd (add_contact [u "Bob"; u "0501234567"] []),
         [Printed (u "No upcoming birthdays.")])).
Proof.
  assert (K : cli_book (snd (add_contact [u "Bob"; u "0501234567"] []))).
  { split; [split|reflexivity].
    - repeat constructor. intros [].
    - repeat constructor. }
  split; [exact K|]. split; [reflexivity|].
  exact (birthdays_command_finds_none ascii_lower monday_10_june_2024
           (u " Birthdays ") []
           (snd (add_contact [u "Bob"; u "0501234567"] []), []) K eq_refl).
Defined.

(** X17. Of the commands of [main] only [add] changes the book: a turn of
    the loop on a line that is blank, or whose command is any other word,
    known or not, leaves the book as it was, also when the turn raises. *)
Theorem only_add_changes_the_book (str_lower : pystr -> pystr)
    (today : date) (line : pystr) (w : World) :
  (forall args,
     parse_input str_lower (str_strip line) <> Return (u "add", args)) ->
  fst (snd (main_body str_lower today line w)) = fst w.
Proof.
  intros N. destruct w as [book out]. unfold main_body.
  destruct (str_strip line) as [|c t] eqn:Es; [reflexivity|].
  unfold cbind at 1, pure_outcome at 1.
  destruct (parse_input str_lower (c :: t)) as [[command args]|e] eqn:P;
    [|reflexivity].
  destruct (existsb (str_eqb command) [u "close"; u "exit"]); [reflexivity|].
  destruct (str_eqb command (u "hello")); [reflexivity|].
  destruct (str_eqb command (u "add")) eqn:Ea.
  { apply str_eqb_eq in Ea. subst command. exfalso. exact (N args eq_refl). }
  destruct (str_eqb command (u "phone")).
  { unfold cbind at 1, in_book at 1. cbn [fst]. rewrite show_phone_cases.
    destruct args as [|nm rest]; [reflexivity|].
    destruct (dict_get nm book); [|reflexivity].
    unfold cbind, in_view, cret. simpl. reflexivity. }
  destruct (str_eqb command (u "all")).
  { unfold cbind at 1, in_book at 1. cbn [fst]. rewrite show_all_cases.
    destruct (display_contacts_list (dict_values book) out) as [evs Ed].
    unfold cbind, in_view, cret. cbn [fst snd]. rewrite Ed. reflexivity. }
  destruct (str_eqb command (u "birthdays")); [|reflexivity].
  unfold cbind at 1, in_book at 1. cbn [fst].
  pose proof (birthdays_state today book) as St.
  destruct (birthdays today book) as [o b']. simpl in St. subst b'.
  destruct o as [up|e]; [|reflexivity].
  unfold cbind, in_view, cret. simpl.
  destruct (display_birthdays up out) as [[[]|e] v]; reflexivity.
Qed.

Lemma only_add_changes_the_book_witness :
  (forall args,
     parse_input ascii_lower (str_strip (u "phone Bob"))
     <> Return (u "add", args))
  /\ fst (snd (main_body ascii_lower monday_10_june_2024 (u "phone Bob")
                 (sample_book, [])))
     = sample_book.
Proof.
  assert (N : forall args,
             parse_input ascii_lower (str_strip (u "phone Bob"))
             <> Return (u "add", args)) by (intros args; discriminate).
  split; [exact N|].
  exact (only_add_changes_the_book ascii_lower monday_10_june_2024
           (u "phone Bob") (sample_book, []) N).
Defined.

(* ================================================================== *)
(** ** Further properties: order and repetition                        *)
(* ================================================================== *)

Lemma NoDup_map_filter {A B} (g : A -> B) (f : A -> bool) (l : list A) :
  NoDup (map g l) -> NoDup (map g (filter f l)).
Proof.
  induction l as [|x l IH]; simpl; intros H; [constructor|].
  inversion H as [|? ? Hx Hl]; subst.
  destruct (f x); simpl; [|apply IH, Hl].
  constructor; [|apply IH, Hl].
  intros Hin. apply Hx. apply in_map_iff in Hin.
  destruct Hin as (y & E & Hy). apply filter_In in Hy.
  apply in_map_iff. exists y. tauto.
Qed.

Lemma book_keyed_names book :
  book_keyed book ->
  map (fun r => value (name r)) (dict_values book) = dict_keys book.
Proof.
  intros [_ H]. unfold dict_values, dict_keys. rewrite map_map.
  apply map_ext_in. intros kv Hin. rewrite Forall_forall in H.
  symmetry. apply H, Hin.
Qed.

(** X18. On a book that holds every record under its own name, the list the
    query returns names nobody twice. *)
Theorem upcoming_names_nobody_twice (today : date) (book : AddressBook)
    (out : list Entry) :
  valid_date today = true -> book_keyed book ->
  eval (get_upcoming_birthdays today) book = Ok out ->
  NoDup (map entry_name out).
Proof.
  intros Vt K E. rewrite (get_upcoming_birthdays_ok _ _ _ Vt E).
  rewrite names_of_entries. apply NoDup_map_filter.
  rewrite (book_keyed_names book K). apply K.
Qed.

Lemma upcoming_names_nobody_twice_witness :
  valid_date monday_10_june_2024 = true
  /\ book_keyed sample_book
  /\ NoDup (map entry_name
              [mkEntry (u "Alice") (u "10.06.2024");
               mkEntry (u "Bob") (u "17.06.2024")]).
Proof.
  assert (K : book_keyed sample_book).
  { split.
    - repeat constructor; simpl; intros H;
        repeat (destruct H as [H|H]; [discriminate H|]); exact H.
    - repeat constructor. }
  split; [reflexivity|]. split; [exact K|].
  exact (upcoming_names_nobody_twice monday_10_june_2024 sample_book _
           eq_refl K eq_refl).
Defined.

(** X19. The command [add] never reorders the book: a name the book holds
    keeps its place and a new name goes to the end, whether the phone is
    accepted or not; and the command [all] returns the records in that
    order, the order in which the names were first added, each name once. *)
Theorem add_contact_keeps_order (book : AddressBook) (nm phone : pystr) :
  dict_keys (snd (add_contact [nm; phone] book))
  = (if existsb (fun k => str_eqb k nm) (dict_keys book)
     then dict_keys book else dict_keys book ++ [nm])
  /\ (book_keyed book ->
      exists records,
        show_all book = (Return (inl records), book)
        /\ map (fun r => value (name r)) records = dict_keys book
        /\ NoDup (dict_keys book)).
Proof.
  split.
  - rewrite add_contact_two.
    destruct (isdigit phone && (len phone =? 10)); simpl; apply dict_set_keys.
  - intros K. exists (dict_values book). split; [reflexivity|].
    split; [apply book_keyed_names, K|apply K].
Qed.

Lemma add_contact_keeps_order_witness :
  book_keyed sample_book
  /\ dict_keys (snd (add_contact [u "Erin"; u "0501234567"] sample_book))
     = [u "Alice"; u "Bob"; u "Carol"; u "Dave"; u "Erin"]
  /\ dict_keys (snd (add_contact [u "Bob"; u "0501234567"] sample_book))
     = [u "Alice"; u "Bob"; u "Carol"; u "Dave"]
  /\ exists records,
       show_all sample_book = (Return (inl records), sample_book)
       /\ map (fun r => value (name r)) records = dict_keys sample_book
       /\ NoDup (dict_keys sample_book).
Proof.
  assert (K : book_keyed sample_book).
  { split.
    - repeat constructor; simpl; intros H;
        repeat (destruct H as [H|H]; [discriminate H|]); exact H.
    - repeat constructor. }
  split; [exact K|]. split; [|split].
  - exact (proj1 (add_contact_keeps_order sample_book (u "Erin")
                    (u "0501234567"))).
  - exact (proj1 (add_contact_keeps_order sample_book (u "Bob")
                    (u "0501234567"))).
  - exact (proj2 (add_contact_keeps_order sample_book (u "Bob")
                    (u "0501234567")) K).
Defined.

(* ================================================================== *)
(** ** Further properties: a session                                   *)
(* ================================================================== *)

Lemma split_words_lstrip s : split_words [] (lstrip_ws s) = split_words [] s.
Proof.
  induction s as [|c s IH]; [reflexivity|]. simpl.
  destruct (isspace_cp c) eqn:Ec; [exact IH|]. simpl. rewrite Ec. reflexivity.
Qed.

Lemma split_words_snoc_space c s :
  isspace_cp c = true -> forall w, split_words w (s ++ [c]) = split_words w s.
Proof.
  intros Ec. induction s as [|a s IH]; intros w; simpl.
  - rewrite Ec. destruct w; reflexivity.
  - destruct (isspace_cp a); [destruct w|]; rewrite IH; reflexivity.
Qed.

Lemma split_words_trailing t :
  forallb isspace_cp t = true ->
  forall w x, split_words w (x ++ t) = split_words w x.
Proof.
  induction t as [|c t IH]; intros H w x.
  - rewrite app_nil_r. reflexivity.
  - simpl in H. apply andb_prop in H. destruct H as [Hc Ht].
    change (x ++ c :: t) with (x ++ [c] ++ t). rewrite app_assoc.
    rewrite (IH Ht), (split_words_snoc_space c x Hc). reflexivity.
Qed.

Lemma lstrip_ws_split s :
  exists t, s = t ++ lstrip_ws s /\ forallb isspace_cp t = true.
Proof.
  induction s as [|c s IH]; [exists []; auto|]. simpl.
  destruct (isspace_cp c) eqn:Ec; [|exists []; auto].
  destruct IH as (t & E & Ht). exists (c :: t). simpl.
  rewrite Ec, Ht, <- E. auto.
Qed.

(** [split] does not see what [strip] removes. *)
Lemma split_strip s : str_split (str_strip s) = str_split s.
Proof.
  unfold str_split, str_strip.
  rewrite <- (split_words_lstrip s).
  destruct (lstrip_ws_split (rev (lstrip_ws s))) as (t & E & Ht).
  apply (f_equal (@rev Z)) in E. rewrite rev_involutive, rev_app_distr in E.
  rewrite E at 2. rewrite split_words_trailing; [reflexivity|].
  rewrite forallb_forall in *. intros a Ha. apply Ht, in_rev, Ha.
Qed.

Lemma strip_nil_split s : str_strip s = [] -> str_split s = [].
Proof. intros E. rewrite <- split_strip, E. reflexivity. Qed.

Section Session.
Variable str_lower : pystr -> pystr.

Lemma parse_input_strip line :
  parse_input str_lower (str_strip line) = parse_input str_lower line.
Proof. unfold parse_input. rewrite split_strip. reflexivity. Qed.

(** A turn of the loop on a line that has a command. *)
Lemma main_body_parsed line command args :
  parse_input str_lower line = Return (command, args) ->
  exists c t,
    str_strip line = c :: t
    /\ parse_input str_lower (c :: t) = Return (command, args).
Proof.
  intros P. destruct (str_strip line) as [|c t] eqn:Es.
  - apply strip_nil_split in Es. unfold parse_input in P. rewrite Es in P.
    discriminate.
  - exists c, t. split; [reflexivity|]. rewrite <- Es, parse_input_strip.
    exact P.
Qed.

Lemma main_body_add_ok today line nm phone book out :
  parse_input str_lower line = Return (u "add", [nm; phone]) ->
  isdigit phone && (len phone =? 10) = true ->
  main_body str_lower today line (book, out)
  = (Return false,
     (dict_set nm (with_phone (contact_or_new nm book) phone) book,
      out ++ [Printed (u "Contact added/updated.")])).
Proof.
  intros P E.
  destruct (main_body_parsed line _ _ P) as (c & t & Es & P').
  unfold main_body. rewrite Es.
  unfold cbind at 1, pure_outcome at 1. rewrite P'. cbv beta iota.
  change (existsb (str_eqb (u "add")) [u "close"; u "exit"]) with false.
  change (str_eqb (u "add") (u "hello")) with false.
  change (str_eqb (u "add") (u "add")) with true. cbv iota.
  unfold cbind at 1, in_book at 1. cbn [fst].
  rewrite add_contact_two, E. reflexivity.
Qed.

Lemma main_body_phone_found today line nm rest r book out :
  parse_input str_lower line = Return (u "phone", nm :: rest) ->
  dict_get nm book = Some r ->
  main_body str_lower today line (book, out)
  = (Return false, (book, out ++ [Printed (Record_str r)])).
Proof.
  intros P G.
  destruct (main_body_parsed line _ _ P) as (c & t & Es & P').
  unfold main_body. rewrite Es.
  unfold cbind at 1, pure_outcome at 1. rewrite P'. cbv beta iota.
  change (existsb (str_eqb (u "phone")) [u "close"; u "exit"]) with false.
  change (str_eqb (u "phone") (u "hello")) with false.
  change (str_eqb (u "phone") (u "add")) with false.
  change (str_eqb (u "phone") (u "phone")) with true. cbv iota.
  unfold cbind at 1, in_book at 1. cbn [fst].
  rewrite show_phone_cases, G. reflexivity.
Qed.

Lemma main_body_exit today line args book out :
  parse_input str_lower line = Return (u "exit", args) ->
  main_body str_lower today line (book, out)
  = (Return true, (book, out ++ [Printed (u "Good bye!")])).
Proof.
  intros P.
  destruct (main_body_parsed line _ _ P) as (c & t & Es & P').
  unfold main_body. rewrite Es.
  unfold cbind at 1, pure_outcome at 1. rewrite P'. reflexivity.
Qed.

End Session.

Lemma whitespace_is_no_digit c : isspace_cp c = true -> isdigit_cp c = false.
Proof.
  unfold isspace_cp. rewrite existsb_exists. intros (r & Hin & Hr).
  bool_to_prop.
  assert (A : forallb
                (fun r => forallb (fun c => negb (isdigit_cp c))
                            (zrange (fst r) (Z.to_nat (snd r - fst r + 1))))
                whitespace_ranges = true) by (vm_compute; reflexivity).
  rewrite forallb_forall in A. specialize (A r Hin).
  rewrite forallb_forall in A.
  apply negb_true_iff, A, zrange_In. lia.
Qed.

(** A string that makes a Phone is a word. *)
Lemma phone_is_word s : isdigit s && (len s =? 10) = true -> is_word s = true.
Proof.
  intros H. apply isdigit_len_10 in H. destruct H as [L F].
  destruct s as [|c s]; [discriminate L|]. unfold is_word.
  apply forallb_forall. intros a Ha. rewrite Forall_forall in F.
  destruct (isspace_cp a) eqn:E; [|reflexivity].
  apply whitespace_is_no_digit in E. rewrite (F a Ha) in E. discriminate.
Qed.

(** X20. A session of three lines: the command [add] with a name and a phone
    of 10 digits, the command [phone] with the name, and the command [exit],
    each command in whatever case.  [main] greets, answers
    "Contact added/updated.", shows the contact with its phone, says
    "Good bye!" and returns; the book then holds the one contact, under the
    name as it was typed. *)
Theorem session_add_phone_exit (str_lower : pystr -> pystr)
    (c1 c2 c3 nm phone : pystr) (d1 d2 d3 : date) :
  is_word c1 = true -> str_lower c1 = u "add" ->
  is_word c2 = true -> str_lower c2 = u "phone" ->
  is_word c3 = true -> str_lower c3 = u "exit" ->
  is_word nm = true -> is_ok (Phone_init phone) = true ->
  main str_lower
       [(d1, join (u " ") [c1; nm; phone]); (d2, join (u " ") [c2; nm]);
        (d3, c3)]
  = (Return tt,
     ([(nm, mkRecord (mkField nm) [mkField phone] None)],
      [Printed (u "Welcome to the assistant bot!");
       Prompted (u "Enter a command: ");
       Printed (u "Contact added/updated.");
       Prompted (u "Enter a command: ");
       Printed (u "Contact name: " ++ nm ++ u ", phones: " ++ phone);
       Prompted (u "Enter a command: ");
       Printed (u "Good bye!")])).
Proof.
  intros W1 L1 W2 L2 W3 L3 Wn Hp. rewrite is_ok_Phone_init in Hp.
  pose proof (phone_is_word phone Hp) as Wp.
  assert (P1 : parse_input str_lower (join (u " ") [c1; nm; phone])
               = Return (u "add", [nm; phone])).
  { unfold parse_input. rewrite split_join_words by (repeat constructor; assumption).
    rewrite str_strip_word, L1 by assumption. reflexivity. }
  assert (P2 : parse_input str_lower (join (u " ") [c2; nm])
               = Return (u "phone", [nm])).
  { unfold parse_input. rewrite split_join_words by (repeat constructor; assumption).
    rewrite str_strip_word, L2 by assumption. reflexivity. }
  assert (P3 : parse_input str_lower c3 = Return (u "exit", [])).
  { unfold parse_input.
    rewrite (split_join_words [c3] ltac:(repeat constructor; assumption)
             : str_split c3 = [c3]).
    rewrite str_strip_word, L3 by assumption. reflexivity. }
  unfold main. cbn [main_loop].
  unfold cbind at 1, in_view at 1, display_message at 1. cbn [fst snd app].
  unfold cbind at 1, prompt at 1. cbn [fst snd app].
  unfold cbind at 1.
  rewrite (main_body_add_ok str_lower d1 _ nm phone [] _ P1 Hp).
  cbv iota. unfold cbind at 1, prompt at 1. cbn [fst snd app].
  unfold cbind at 1.
  rewrite (main_body_phone_found str_lower d2 _ nm []
             (with_phone (contact_or_new nm []) phone) _ _ P2
             (dict_get_set _ _ _)).
  cbv iota. unfold cbind at 1, prompt at 1. cbn [fst snd app].
  unfold cbind at 1.
  rewrite (main_body_exit str_lower d3 _ [] _ _ P3).
  unfold cret, contact_or_new, with_phone, Record_str.
  cbn [dict_get dict_set name phones birthday value map join app].
  rewrite app_nil_r. reflexivity.
Qed.

Lemma session_add_phone_exit_witness :
  is_word (u "ADD") = true /\ ascii_lower (u "ADD") = u "add"
  /\ is_word (u "Phone") = true /\ ascii_lower (u "Phone") = u "phone"
  /\ is_word (u "exit") = true /\ ascii_lower (u "exit") = u "exit"
  /\ is_word (u "Bob") = true /\ is_ok (Phone_init (u "0501234567")) = true
  /\ main ascii_lower
          [(monday_10_june_2024, u "ADD Bob 0501234567");
           (monday_10_june_2024, u "Phone Bob");
           (monday_10_june_2024, u "exit")]
     = (Return tt,
        ([(u "Bob", mkRecord (mkField (u "Bob")) [mkField (u "0501234567")] None)],
         [Printed (u "Welcome to the assistant bot!");
          Prompted (u "Enter a command: ");
          Printed (u "Contact added/updated.");
          Prompted (u "Enter a command: ");
          Printed (u "Contact name: Bob, phones: 0501234567");
          Prompted (u "Enter a command: ");
          Printed (u "Good bye!")])).
Proof.
  repeat (split; [reflexivity|]).
  exact (session_add_phone_exit ascii_lower (u "ADD") (u "Phone") (u "exit")
           (u "Bob") (u "0501234567") monday_10_june_2024 monday_10_june_2024
           monday_10_june_2024 eq_refl eq_refl eq_refl eq_refl eq_refl eq_refl
           eq_refl eq_refl).
Defined.
